(** * tiws: a WebSocket client over Ti.Network.Socket.TCP

    A shallow embedding of [src/utils.js], [src/sender.js],
    [src/constants.js] and [src/websocket.js], and the properties of the
    framing layer proved about it.

    Conventions of the embedding.
    - A JavaScript number is a [Z]; the 32-bit conversions that the bit
      operators perform are written out ([int32], [toInt32]).
    - A [Buffer] is a [list Z] of bytes.  Buffers that the code mutates in
      place or that a caller keeps a reference to live in a store
      ([heap], a [gmap] from object identities to contents).
    - A JavaScript string is a Rocq [string], read as the sequence of its
      UTF-8 bytes.
    - A method of the [WebSocket] or [Sender] class is a computation in the
      monad [M]: it threads the connection state and may end in a thrown
      exception; whatever was mutated before the [throw] stays mutated.
    - Event handlers registered by the application are not part of the
      library: an emitted event is appended to the log [trace].  Which
      events have a listener is part of the state, since [emit] throws
      an ['error'] event that has none.
    - [socket.write] completes asynchronously: its callback is queued in
      [pending] and runs when the input [write_complete] is delivered. *)

From Stdlib Require Import ZArith Lia Ascii.
From stdpp Require Import base option list gmap strings pretty.

Local Open Scope Z_scope.

(** ** JavaScript numbers and exceptions *)

Inductive JsError :=
| Error (message : string)
| RangeError (message : string)
| TypeError (message : string).

Definition message (e : JsError) : string :=
  match e with Error m | RangeError m | TypeError m => m end.

Inductive completion (A : Type) :=
| Normal (a : A)
| Throw (e : JsError).
Arguments Normal {A} a.
Arguments Throw {A} e.

(** ToInt32 of a number *)
Definition int32 (v : Z) : Z := (v + 2 ^ 31) mod 2 ^ 32 - 2 ^ 31.

(** ToInt32 of the result of an index access: [undefined] converts to 0 *)
Definition toInt32 (o : option Z) : Z := int32 (default 0 o).

Definition js_xor (a b : option Z) : Z := Z.lxor (toInt32 a) (toInt32 b).
Definition js_and (a b : option Z) : Z := Z.land (toInt32 a) (toInt32 b).
Definition js_or (a b : option Z) : Z := Z.lor (toInt32 a) (toInt32 b).
Definition js_shl (a : option Z) (n : Z) : Z := int32 (Z.shiftl (toInt32 a) n).

(** ** constants.js *)

Definition OpcodeContinueFrame : Z := 0x0.
Definition OpcodeTextFrame : Z := 0x1.
Definition OpcodeBinaryFrame : Z := 0x2.
Definition OpcodeConnectionClose : Z := 0x8.
Definition OpcodePing : Z := 0x9.
Definition OpcodePong : Z := 0xA.

Definition FinMask : Z := 0x80.
Definition OpcodeMask : Z := 0x0F.
Definition MaskMask : Z := 0x80.
Definition PayloadLengthMask : Z := 0x7F.

Definition EMPTY_BUFFER : list Z := [].

(** ** The Buffer API used by the library *)

Module Buffer.

Definition is_bytes (b : list Z) : Prop := Forall (λ x, 0 ≤ x < 256) b.

Definition is_bytesb (b : list Z) : bool :=
  forallb (λ x, (0 <=? x) && (x <? 256)) b.

Definition length (b : list Z) : Z := Z.of_nat (List.length b).

(** [b[i]]: [undefined] ([None]) outside the buffer *)
Definition get (b : list Z) (i : Z) : option Z :=
  if i <? 0 then None else b !! Z.to_nat i.

(** [b[i] = v]: the value is stored modulo 256; a store outside the
    buffer is ignored *)
Definition set (b : list Z) (i : Z) (v : Z) : list Z :=
  if i <? 0 then b else <[Z.to_nat i := v mod 256]> b.

(** [Buffer.alloc(size)] and, for the library's uses, where every byte is
    written before it is read, [Buffer.allocUnsafe(size)] *)
Definition alloc (size : Z) : completion (list Z) :=
  if size <? 0 then Throw (RangeError "The value of size is out of range")
  else Normal (replicate (Z.to_nat size) 0).

(** [source.copy(target, targetStart, sourceStart, sourceEnd)]: the new
    contents of [target] and the number of bytes copied.  Nothing is
    copied when the target has no room or the source range is empty; a
    source range that starts behind the end of the source is a
    [RangeError]; the range is clipped to both buffers. *)
Definition copy (source target : list Z) (targetStart sourceStart sourceEnd : Z)
  : completion (list Z * Z) :=
  if (length target <=? targetStart) || (sourceEnd <=? sourceStart) then
    Normal (target, 0)
  else if length source <? sourceStart then
    Throw (RangeError "The value of sourceStart is out of range")
  else
    let n := Z.min (Z.min sourceEnd (length source) - sourceStart)
                   (length target - targetStart) in
    let bytes := take (Z.to_nat n) (drop (Z.to_nat sourceStart) source) in
    Normal (take (Z.to_nat targetStart) target ++ bytes
              ++ drop (Z.to_nat (targetStart + n)) target, n).

Definition concat (l : list (list Z)) : list Z := mjoin l.

Definition slice (b : list Z) (start : Z) : list Z := drop (Z.to_nat start) b.

(** [b.writeUInt16BE(value, offset)] *)
Definition writeUInt16BE (b : list Z) (value offset : Z) : completion (list Z) :=
  if (value <? 0) || (65535 <? value) then
    Throw (RangeError "The value of value is out of range")
  else if (offset <? 0) || (length b - 2 <? offset) then
    Throw (RangeError "The value of offset is out of range")
  else Normal (set (set b offset (value / 256)) (offset + 1) value).

(** [b.writeUInt32BE(value, offset)] *)
Definition writeUInt32BE (b : list Z) (value offset : Z) : completion (list Z) :=
  if (value <? 0) || (4294967295 <? value) then
    Throw (RangeError "The value of value is out of range")
  else if (offset <? 0) || (length b - 4 <? offset) then
    Throw (RangeError "The value of offset is out of range")
  else Normal (set (set (set (set b offset (value / 16777216))
                              (offset + 1) (value / 65536))
                         (offset + 2) (value / 256))
                    (offset + 3) value).

(** [b.readUInt16BE(0)] *)
Definition readUInt16BE (b : list Z) (offset : Z) : completion Z :=
  match get b offset, get b (offset + 1) with
  | Some hi, Some lo => Normal (hi * 256 + lo)
  | _, _ => Throw (RangeError "The value of offset is out of range")
  end.

(** [Buffer.from(string)], [b.write(string, offset)] and [b.toString()]
    on the UTF-8 bytes of the string.  [toString] is the code's on bytes
    that are well-formed UTF-8 ([well_formed_utf8] below); for other bytes
    the code decodes to U+FFFD, which this definition does not do. *)
Definition fromString (s : string) : list Z :=
  (λ c, Z.of_N (Ascii.N_of_ascii c)) <$> String.list_ascii_of_string s.

Definition toString (b : list Z) : string :=
  String.string_of_list_ascii ((λ x, Ascii.ascii_of_N (Z.to_N x)) <$> b).

Definition byteLength (s : string) : Z := length (fromString s).

Definition write (b : list Z) (s : string) (offset : Z) : list Z :=
  let bytes := take (Z.to_nat (length b - offset)) (fromString s) in
  take (Z.to_nat offset) b ++ bytes
    ++ drop (Z.to_nat offset + List.length bytes) b.

End Buffer.

(** ** The connection and the objects it works with *)

(** websocket.js, [class WebSocketResponse] *)
Record WebSocketResponse := {
  isFin : bool;
  opcode : Z;
  bytesLeft : Z;
  frameCount : Z;
  buffer : list Z
}.

(** The states of a [Ti.Network.Socket.TCP] *)
Inductive SocketState :=
| Socket_INITIALIZED
| Socket_CONNECTED
| Socket_CLOSED
| Socket_ERROR.

(** What the platform computes for the library: the accept hash
    [Buffer.from(Ti.Utils.sha1(x), 'hex').toString('base64')] and the bytes
    that [Ti.Utils.randomBytes] or [Math.random] deliver, in the order in
    which they are drawn *)
Record Titanium := {
  sha1_base64 : string → string;
  random : nat → Z
}.

(** A value in the callback position of a call *)
Inductive Callback :=
| cb_undefined
| cb_boolean (b : bool)
| NOOP
| cb_function (id : nat)
| cb_closeFrameSent (code : option Z) (reason : option string).

(** The data argument of [send] and [pong] *)
Inductive JsData :=
| data_undefined
| data_string (s : string)
| data_buffer (l : nat).

Inductive EventData :=
| ev_undefined
| ev_number (n : Z)
| ev_string (s : string)
| ev_error (e : JsError)
| ev_buffer (b : list Z)
| ev_message_string (data : string)
| ev_message_buffer (data : list Z).

(** What the library does to its surroundings, in order *)
Inductive Effect :=
| Emit (name : string) (data : EventData)
| SocketWrite (bytes : list Z)
| SocketClose
| Call (id : nat) (err : option JsError).

Record Options := {
  path : string;
  host : string;
  headers : list (string * string)
}.

Definition CONNECTING : Z := 0.
Definition OPEN : Z := 1.
Definition CLOSING : Z := 2.
Definition CLOSED : Z := 3.

Definition readyStates (n : Z) : string :=
  if n =? 0 then "CONNECTING" else if n =? 1 then "OPEN"
  else if n =? 2 then "CLOSING" else if n =? 3 then "CLOSED" else "undefined".

(** The fields of a [WebSocket], the events that have a listener (the
    [EventEmitter] the class extends keeps them; [listeners] has the name
    of the event once for every listener), the field of its [Sender]
    ([firstFragment]; [None] until the socket is connected), the
    module-level [mask] of sender.js,
    the TCP socket object ([socketState]), the buffers the application
    holds ([heap]) and the bookkeeping of the embedding ([drawn], [pending],
    [trace]).  [socket] says whether [this.socket] still refers to the TCP
    socket. *)
Record WebSocket := {
  responseStack : list WebSocketResponse;
  readyState : Z;
  socket : bool;
  isServer : bool;
  closeFrameSent : bool;
  closeFrameReceived : bool;
  secWebSocketKey : string;
  options : Options;
  listeners : list string;
  sender : option bool;
  mask : list Z;
  socketState : SocketState;
  heap : gmap nat (list Z);
  Ti : Titanium;
  drawn : nat;
  pending : list Callback;
  trace : list Effect
}.

Definition set_responseStack (v : list WebSocketResponse) (s : WebSocket) :=
  {| responseStack := v; readyState := readyState s; socket := socket s;
     isServer := isServer s; closeFrameSent := closeFrameSent s;
     closeFrameReceived := closeFrameReceived s;
     secWebSocketKey := secWebSocketKey s; options := options s;
     listeners := listeners s;
     sender := sender s; mask := mask s; socketState := socketState s;
     heap := heap s; Ti := Ti s; drawn := drawn s; pending := pending s;
     trace := trace s |}.

Definition set_readyState (v : Z) (s : WebSocket) :=
  {| responseStack := responseStack s; readyState := v; socket := socket s;
     isServer := isServer s; closeFrameSent := closeFrameSent s;
     closeFrameReceived := closeFrameReceived s;
     secWebSocketKey := secWebSocketKey s; options := options s;
     listeners := listeners s;
     sender := sender s; mask := mask s; socketState := socketState s;
     heap := heap s; Ti := Ti s; drawn := drawn s; pending := pending s;
     trace := trace s |}.

Definition set_socket (v : bool) (s : WebSocket) :=
  {| responseStack := responseStack s; readyState := readyState s; socket := v;
     isServer := isServer s; closeFrameSent := closeFrameSent s;
     closeFrameReceived := closeFrameReceived s;
     secWebSocketKey := secWebSocketKey s; options := options s;
     listeners := listeners s;
     sender := sender s; mask := mask s; socketState := socketState s;
     heap := heap s; Ti := Ti s; drawn := drawn s; pending := pending s;
     trace := trace s |}.

Definition set_closeFrameSent (v : bool) (s : WebSocket) :=
  {| responseStack := responseStack s; readyState := readyState s;
     socket := socket s; isServer := isServer s; closeFrameSent := v;
     closeFrameReceived := closeFrameReceived s;
     secWebSocketKey := secWebSocketKey s; options := options s;
     listeners := listeners s;
     sender := sender s; mask := mask s; socketState := socketState s;
     heap := heap s; Ti := Ti s; drawn := drawn s; pending := pending s;
     trace := trace s |}.

Definition set_closeFrameReceived (v : bool) (s : WebSocket) :=
  {| responseStack := responseStack s; readyState := readyState s;
     socket := socket s; isServer := isServer s;
     closeFrameSent := closeFrameSent s; closeFrameReceived := v;
     secWebSocketKey := secWebSocketKey s; options := options s;
     listeners := listeners s;
     sender := sender s; mask := mask s; socketState := socketState s;
     heap := heap s; Ti := Ti s; drawn := drawn s; pending := pending s;
     trace := trace s |}.

Definition set_sender (v : option bool) (s : WebSocket) :=
  {| responseStack := responseStack s; readyState := readyState s;
     socket := socket s; isServer := isServer s;
     closeFrameSent := closeFrameSent s;
     closeFrameReceived := closeFrameReceived s;
     secWebSocketKey := secWebSocketKey s; options := options s;
     listeners := listeners s;
     sender := v; mask := mask s; socketState := socketState s;
     heap := heap s; Ti := Ti s; drawn := drawn s; pending := pending s;
     trace := trace s |}.

Definition set_mask (v : list Z) (s : WebSocket) :=
  {| responseStack := responseStack s; readyState := readyState s;
     socket := socket s; isServer := isServer s;
     closeFrameSent := closeFrameSent s;
     closeFrameReceived := closeFrameReceived s;
     secWebSocketKey := secWebSocketKey s; options := options s;
     listeners := listeners s;
     sender := sender s; mask := v; socketState := socketState s;
     heap := heap s; Ti := Ti s; drawn := drawn s; pending := pending s;
     trace := trace s |}.

Definition set_socketState (v : SocketState) (s : WebSocket) :=
  {| responseStack := responseStack s; readyState := readyState s;
     socket := socket s; isServer := isServer s;
     closeFrameSent := closeFrameSent s;
     closeFrameReceived := closeFrameReceived s;
     secWebSocketKey := secWebSocketKey s; options := options s;
     listeners := listeners s;
     sender := sender s; mask := mask s; socketState := v;
     heap := heap s; Ti := Ti s; drawn := drawn s; pending := pending s;
     trace := trace s |}.

Definition set_heap (v : gmap nat (list Z)) (s : WebSocket) :=
  {| responseStack := responseStack s; readyState := readyState s;
     socket := socket s; isServer := isServer s;
     closeFrameSent := closeFrameSent s;
     closeFrameReceived := closeFrameReceived s;
     secWebSocketKey := secWebSocketKey s; options := options s;
     listeners := listeners s;
     sender := sender s; mask := mask s; socketState := socketState s;
     heap := v; Ti := Ti s; drawn := drawn s; pending := pending s;
     trace := trace s |}.

Definition set_drawn (v : nat) (s : WebSocket) :=
  {| responseStack := responseStack s; readyState := readyState s;
     socket := socket s; isServer := isServer s;
     closeFrameSent := closeFrameSent s;
     closeFrameReceived := closeFrameReceived s;
     secWebSocketKey := secWebSocketKey s; options := options s;
     listeners := listeners s;
     sender := sender s; mask := mask s; socketState := socketState s;
     heap := heap s; Ti := Ti s; drawn := v; pending := pending s;
     trace := trace s |}.

Definition set_pending (v : list Callback) (s : WebSocket) :=
  {| responseStack := responseStack s; readyState := readyState s;
     socket := socket s; isServer := isServer s;
     closeFrameSent := closeFrameSent s;
     closeFrameReceived := closeFrameReceived s;
     secWebSocketKey := secWebSocketKey s; options := options s;
     listeners := listeners s;
     sender := sender s; mask := mask s; socketState := socketState s;
     heap := heap s; Ti := Ti s; drawn := drawn s; pending := v;
     trace := trace s |}.

Definition set_listeners (v : list string) (s : WebSocket) :=
  {| responseStack := responseStack s; readyState := readyState s;
     socket := socket s; isServer := isServer s;
     closeFrameSent := closeFrameSent s;
     closeFrameReceived := closeFrameReceived s;
     secWebSocketKey := secWebSocketKey s; options := options s;
     listeners := v;
     sender := sender s; mask := mask s; socketState := socketState s;
     heap := heap s; Ti := Ti s; drawn := drawn s; pending := pending s;
     trace := trace s |}.

Definition set_trace (v : list Effect) (s : WebSocket) :=
  {| responseStack := responseStack s; readyState := readyState s;
     socket := socket s; isServer := isServer s;
     closeFrameSent := closeFrameSent s;
     closeFrameReceived := closeFrameReceived s;
     secWebSocketKey := secWebSocketKey s; options := options s;
     listeners := listeners s;
     sender := sender s; mask := mask s; socketState := socketState s;
     heap := heap s; Ti := Ti s; drawn := drawn s; pending := pending s;
     trace := v |}.

(** ** The monad of methods *)

Definition M (A : Type) : Type := WebSocket → WebSocket * completion A.

Definition ret {A} (a : A) : M A := λ s, (s, Normal a).
Definition throw {A} (e : JsError) : M A := λ s, (s, Throw e).
Definition bind {A B} (m : M A) (k : A → M B) : M B :=
  λ s, match m s with
       | (s', Normal a) => k a s'
       | (s', Throw e) => (s', Throw e)
       end.
Definition read {A} (f : WebSocket → A) : M A := λ s, (s, Normal (f s)).
Definition update (f : WebSocket → WebSocket) : M unit := λ s, (f s, Normal tt).
Definition lift {A} (c : completion A) : M A := λ s, (s, c).
Definition perform (e : Effect) : M unit :=
  update (λ s, set_trace (trace s ++ [e]) s).

Declare Scope js_scope.
Delimit Scope js_scope with js.
Notation "'do' x ← m ; k" := (bind m (λ x, k))
  (at level 10, x pattern, m at level 100, k at level 200,
   format "'[v' 'do'  x  ←  m ; '/' k ']'") : js_scope.
Notation "m ;; k" := (bind m (λ _, k))
  (at level 100, k at level 200, right associativity) : js_scope.
Local Open Scope js_scope.

Definition when (b : bool) (m : M unit) : M unit := if b then m else ret tt.

(** The state a method leaves behind and how it ends *)
Definition state_after {A} (m : M A) (s : WebSocket) : WebSocket := (m s).1.
Definition outcome {A} (m : M A) (s : WebSocket) : completion A := (m s).2.

(** ** utils.js *)

(** [randomBytes(length)]: the next [length] bytes of the platform's
    random source *)
Definition randomBytes (length : Z) : M (list Z) :=
  λ s, let n := Z.to_nat length in
       (set_drawn (drawn s + n)%nat s,
        Normal ((λ i, random (Ti s) (drawn s + i)%nat mod 256) <$> seq 0 n)).

(** [randomFillSync(target, offset, length)]; the only target the library
    passes is the module-level [mask] of sender.js *)
Definition randomFillSync (offset length : Z) : M unit :=
  do bytes ← randomBytes length;
  do target ← read mask;
  do r ← lift (Buffer.copy bytes target offset 0 length);
  update (set_mask r.1).

Definition load (h : gmap nat (list Z)) (l : nat) (i : Z) : option Z :=
  h !! l ≫= λ b, Buffer.get b i.

Definition store (h : gmap nat (list Z)) (l : nat) (i v : Z) : gmap nat (list Z) :=
  alter (λ b, Buffer.set b i v) l h.

(** The loop of [applyMask], [n] iterations from index [i] on.  [source]
    and [output] are object identities: they may name the same buffer. *)
Fixpoint applyMask_loop (n : nat) (i : Z) (source : nat) (mask : list Z)
    (output : nat) (offset : Z) (h : gmap nat (list Z)) : gmap nat (list Z) :=
  match n with
  | O => h
  | S n' =>
      applyMask_loop n' (i + 1) source mask output offset
        (store h output (offset + i)
           (js_xor (load h source i) (Buffer.get mask (js_and (Some i) (Some 3)))))
  end.

Definition applyMask (source : nat) (mask : list Z) (output : nat)
    (offset length : Z) : M unit :=
  update (λ s, set_heap
     (applyMask_loop (Z.to_nat length) 0 source mask output offset (heap s)) s).

(** ** sender.js *)

Record FrameOptions := {
  data : JsData;
  frame_opcode : Z;
  fin : bool;
  rsv1 : bool
}.

Module Sender.

(** [data.length] *)
Definition data_length (d : JsData) : M Z :=
  match d with
  | data_undefined => throw (TypeError "Cannot read property 'length' of undefined")
  | data_string s => ret (Z.of_nat (String.length s))
  | data_buffer l => read (λ s, Buffer.length (default [] (heap s !! l)))
  end.

(** [target[i] = mask[j]] *)
Definition set_from (b : list Z) (i : Z) (v : option Z) : list Z :=
  Buffer.set b i (default 0 v).

Definition createFrameBuffer (options : FrameOptions) : M (list Z) :=
  do length ← data_length (data options);
  let offset := 6 in
  let payloadLength := length in
  let '(offset, payloadLength) :=
    if 65536 <=? length then (offset + 8, 127)
    else if 125 <? length then (offset + 2, 126)
    else (offset, payloadLength) in
  do target ← lift (Buffer.alloc offset);
  let target := Buffer.set target 0
    (if fin options then js_or (Some (frame_opcode options)) (Some 0x80)
     else frame_opcode options) in
  let target := if rsv1 options
    then Buffer.set target 0 (js_or (Buffer.get target 0) (Some 0x40))
    else target in
  let target := Buffer.set target 1 payloadLength in
  do target ←
    (if payloadLength =? 126 then lift (Buffer.writeUInt16BE target length 2)
     else if payloadLength =? 127 then
       do t ← lift (Buffer.writeUInt32BE target 0 2);
       lift (Buffer.writeUInt32BE t length 6)
     else ret target);
  randomFillSync 0 4;;
  do mask ← read mask;
  let target := Buffer.set target 1 (js_or (Buffer.get target 1) (Some 0x80)) in
  let target := set_from target (offset - 4) (Buffer.get mask 0) in
  let target := set_from target (offset - 3) (Buffer.get mask 1) in
  let target := set_from target (offset - 2) (Buffer.get mask 2) in
  let target := set_from target (offset - 1) (Buffer.get mask 3) in
  match data options with
  | data_buffer l =>
      applyMask l mask l 0 length;;
      do masked ← read (λ s, default [] (heap s !! l));
      ret (Buffer.concat [target; masked])
  | _ =>
      (* a string is not changed by the index assignments of applyMask
         and is refused by Buffer.concat *)
      throw (TypeError "list[1] must be an instance of Buffer or Uint8Array")
  end.

(** [sendFrame(frame, cb)]: the frame goes to the socket, the completion
    callback [() => { if (cb) cb(); }] waits in [pending] *)
Definition sendFrame (frame : list Z) (cb : Callback) : M unit :=
  perform (SocketWrite frame);;
  update (λ s, set_pending (pending s ++ [cb]) s).

(** A buffer the library creates itself gets a fresh identity *)
Definition new_buffer (contents : list Z) : M nat :=
  do l ← read (λ s, fresh (dom (heap s)));
  update (λ s, set_heap (<[l := contents]> (heap s)) s);;
  ret l.

Definition send (firstFragment : bool) (d : JsData)
    (binary compress fin : bool) (cb : Callback) : M unit :=
  let opcode := if binary then OpcodeBinaryFrame else OpcodeTextFrame in
  let rsv1 := compress in
  do (rsv1, opcode) ←
    (if firstFragment then update (set_sender (Some false));; ret (rsv1, opcode)
     else ret (false, OpcodeContinueFrame));
  when fin (update (set_sender (Some true)));;
  do frame ← createFrameBuffer
    {| data := d; frame_opcode := opcode; fin := fin; rsv1 := rsv1 |};
  sendFrame frame cb.

(** [Buffer.from(data)]: a copy of a buffer, the bytes of a string *)
Definition buffer_from (d : JsData) : M nat :=
  match d with
  | data_undefined =>
      throw (TypeError "The first argument must be of type string or an instance of Buffer")
  | data_string s => new_buffer (Buffer.fromString s)
  | data_buffer l =>
      do contents ← read (λ s, default [] (heap s !! l));
      new_buffer contents
  end.

Definition pong (d : JsData) (cb : Callback) : M unit :=
  do buffer ← buffer_from d;
  do frame ← createFrameBuffer
    {| data := data_buffer buffer; frame_opcode := OpcodePong;
       fin := true; rsv1 := false |};
  sendFrame frame cb.

(** The payload [data] that [close(code, reason, cb)] builds *)
Definition close_data (code : option Z) (reason : option string)
  : completion (list Z) :=
  match code with
  | None => Buffer.alloc 0
  | Some code =>
      if bool_decide (reason = None) || bool_decide (reason = Some "") then
        match Buffer.alloc 2 with
        | Normal data => Buffer.writeUInt16BE data code 0
        | Throw e => Throw e
        end
      else
        let reason := default "" reason in
        match Buffer.alloc (2 + Buffer.byteLength reason) with
        | Normal data =>
            match Buffer.writeUInt16BE data code 0 with
            | Normal data => Normal (Buffer.write data reason 2)
            | Throw e => Throw e
            end
        | Throw e => Throw e
        end
  end.

Definition close (code : option Z) (reason : option string) (cb : Callback)
  : M unit :=
  do data ← lift (close_data code reason);
  do l ← new_buffer data;
  do frame ← createFrameBuffer
    {| data := data_buffer l; frame_opcode := OpcodeConnectionClose;
       fin := true; rsv1 := false |};
  sendFrame frame cb.

End Sender.

(** ** websocket.js *)

Module CloseCode.
Definition protocolError : Z := 1002.
Definition noStatus : Z := 1005.
Definition abnormal : Z := 1006.
End CloseCode.

Definition GUID : string := "258EAFA5-E914-47DA-95CA-C5AB0DC85B11".

(** [class ResponseStack]: the top of the stack is the last element *)
Module ResponseStack.
Definition last (stack : list WebSocketResponse) : option WebSocketResponse :=
  List.last (Some <$> stack) None.
Definition push (response : WebSocketResponse) (stack : list WebSocketResponse) :=
  stack ++ [response].
Definition pop (stack : list WebSocketResponse) := removelast stack.
End ResponseStack.

(** An assignment to a field of the response on top of the stack *)
Definition update_last (f : WebSocketResponse → WebSocketResponse) : M unit :=
  update (λ s, set_responseStack
    (match ResponseStack.last (responseStack s) with
     | Some r => ResponseStack.push (f r) (ResponseStack.pop (responseStack s))
     | None => responseStack s
     end) s).

Definition set_bytesLeft (v : Z) (r : WebSocketResponse) :=
  {| isFin := isFin r; opcode := opcode r; bytesLeft := v;
     frameCount := frameCount r; buffer := buffer r |}.
Definition set_buffer (v : list Z) (r : WebSocketResponse) :=
  {| isFin := isFin r; opcode := opcode r; bytesLeft := bytesLeft r;
     frameCount := frameCount r; buffer := v |}.
Definition set_frameCount (v : Z) (r : WebSocketResponse) :=
  {| isFin := isFin r; opcode := opcode r; bytesLeft := bytesLeft r;
     frameCount := v; buffer := buffer r |}.
Definition set_isFin (v : bool) (r : WebSocketResponse) :=
  {| isFin := v; opcode := opcode r; bytesLeft := bytesLeft r;
     frameCount := frameCount r; buffer := buffer r |}.

(** What [EventEmitter.emit] throws for an ['error'] event that has no
    listener: the error itself, or for a value that is no error an [Error]
    that quotes the value *)
Definition unhandled (data : EventData) : JsError :=
  match data with
  | ev_error e => e
  | ev_string s => Error ("Unhandled error. ('" +:+ s +:+ "')")
  | _ => Error "Unhandled error."
  end.

(** [emitEvent(name, data)] and [emit(name, data)]: the [on<name>]
    property and the listeners are the application's; the embedding
    records that the event was raised.  [emit] throws an ['error'] event
    that nobody listens to. *)
Definition emitEvent (name : string) (data : EventData) : M unit :=
  if String.eqb name "error" then
    perform (Emit name data);;
    do listeners ← read listeners;
    if bool_decide ("error" ∈ listeners) then ret tt else throw (unhandled data)
  else perform (Emit name data).

(** [emitClose(code = 1006, message = '')]; [emitEvent] has two
    parameters, so only the code travels with the event *)
Definition emitClose (code : option Z) (message : option string) : M unit :=
  let code := default 1006 code in
  update (set_readyState CLOSED);;
  emitEvent "close" (ev_number code).

(** [this.socket.close()] *)
Definition socket_close : M unit :=
  do present ← read socket;
  if present then update (set_socketState Socket_CLOSED);; perform SocketClose
  else throw (TypeError "Cannot read property 'close' of undefined").

Definition abortHandshake (msg : string) : M unit :=
  update (set_readyState CLOSING);;
  do present ← read socket;
  (if present then
     do st ← read socketState;
     match st with Socket_CONNECTED => socket_close | _ => ret tt end
   else throw (TypeError "Cannot read property 'state' of undefined"));;
  emitClose (Some CloseCode.abnormal) (Some msg).

(** The arrow function [closeSocket] inside [close(code, reason)] *)
Definition closeSocket (code : option Z) (reason : option string) : M unit :=
  socket_close;;
  emitClose code reason.

Definition close (code : option Z) (reason : option string) : M unit :=
  do state ← read readyState;
  if state =? CLOSED then ret tt
  else if state =? CONNECTING then
    abortHandshake "WebSocket was closed before the connection was established"
  else if state =? CLOSING then
    do sent ← read closeFrameSent;
    do received ← read closeFrameReceived;
    when (sent && received) (closeSocket code reason)
  else
    update (set_readyState CLOSING);;
    do sender ← read sender;
    match sender with
    | None => throw (TypeError "Cannot read property 'close' of undefined")
    | Some _ => Sender.close code reason (cb_closeFrameSent code reason)
    end.

(** The completion callback of a write: [() => { if (cb) cb(); }], where
    the [cb] of [close] is
    [err => { this.closeFrameSent = true; if (this.closeFrameReceived) closeSocket(); }] *)
Definition run_callback (cb : Callback) : M unit :=
  match cb with
  | cb_undefined | cb_boolean false | NOOP => ret tt
  | cb_boolean true => throw (TypeError "cb is not a function")
  | cb_function id => perform (Call id None)
  | cb_closeFrameSent code reason =>
      update (set_closeFrameSent true);;
      do received ← read closeFrameReceived;
      when received (closeSocket code reason)
  end.

Definition sendAfterClose (d : JsData) (cb : Callback) : M unit :=
  match cb with
  | cb_undefined | cb_boolean false | NOOP | cb_closeFrameSent _ _ => ret tt
  | cb_boolean true => throw (TypeError "cb is not a function")
  | cb_function id =>
      do state ← read readyState;
      perform (Call id (Some (Error
        ("WebSocket is not open: readyState " +:+ pretty state
           +:+ " (" +:+ readyStates state +:+ ")"))))
  end.

(** [data || EMPTY_BUFFER] *)
Definition or_EMPTY_BUFFER (d : JsData) : M JsData :=
  match d with
  | data_undefined | data_string "" =>
      do l ← Sender.new_buffer EMPTY_BUFFER; ret (data_buffer l)
  | _ => ret d
  end.

(** [pong(data, mask, cb)] for a data argument that is [undefined], a
    string or a buffer, and a mask that is [undefined] or a boolean.
    [Sender.pong] has the parameters [(data, cb)]: it is the mask that
    arrives in its callback position. *)
Definition pong (d : JsData) (mask : option bool) (cb : Callback) : M unit :=
  do state ← read readyState;
  if state =? CONNECTING then
    throw (Error "WebSocket is not open: readyState 0 (CONNECTING)")
  else if negb (state =? OPEN) then sendAfterClose d cb
  else
    (* this._isServer is undefined *)
    let mask := default true mask in
    do sender ← read sender;
    match sender with
    | None => throw (TypeError "Cannot read property 'pong' of undefined")
    | Some _ => do d ← or_EMPTY_BUFFER d; Sender.pong d (cb_boolean mask)
    end.

Record SendOptions := {
  binary : option bool;
  compress : option bool;
  opt_fin : option bool
}.

Definition send (d : JsData) (options : SendOptions) (cb : Callback) : M unit :=
  do state ← read readyState;
  if state =? CONNECTING then
    throw (Error "WebSocket is not open: readyState 0 (CONNECTING)")
  else if negb (state =? OPEN) then sendAfterClose d cb
  else
    let is_string := match d with data_string _ => true | _ => false end in
    let binary := default (negb is_string) (binary options) in
    let compress := default false (compress options) in
    let fin := default true (opt_fin options) in
    do sender ← read sender;
    match sender with
    | None => throw (TypeError "Cannot read property 'send' of undefined")
    | Some firstFragment => Sender.send firstFragment d binary compress fin cb
    end.

Definition disconnectAndEmitError (error : JsError) (closeCode : option Z) : M unit :=
  emitEvent "error" (ev_error error);;
  close (Some (match closeCode with
               | Some c => if c =? 0 then CloseCode.abnormal else c
               | None => CloseCode.abnormal
               end))
        (Some (message error)).

(** What [processDataFrame] returns: the number that [Buffer.copy]
    returns, or [undefined] after [disconnectAndEmitError] *)
Inductive JsReturn :=
| js_undefined
| js_number (n : Z).

(** The local variables of [processDataFrame] that depend on the buffer
    alone *)
Module Frame.
Definition isFin (buffer : list Z) : bool :=
  negb (js_and (Some FinMask) (Buffer.get buffer 0) =? 0).
Definition opcode (buffer : list Z) : Z :=
  js_and (Some OpcodeMask) (Buffer.get buffer 0).
Definition isMasked (buffer : list Z) : bool :=
  negb (js_and (Some MaskMask) (Buffer.get buffer 1) =? 0).
Definition payloadLength (buffer : list Z) : Z :=
  js_and (Some PayloadLengthMask) (Buffer.get buffer 1).
Definition isControlFrame (buffer : list Z) : bool :=
  (opcode buffer =? OpcodeConnectionClose) || (opcode buffer =? OpcodePing).
(** [payloadDataLength] and [payloadDataOffset] after the test for the
    length field 126; [buffer[2] << 8 | buffer[3] & 0xffff] *)
Definition payloadDataLength (buffer : list Z) : Z :=
  if payloadLength buffer =? 126 then
    js_or (Some (js_shl (Buffer.get buffer 2) 8))
          (Some (js_and (Buffer.get buffer 3) (Some 0xffff)))
  else payloadLength buffer.
Definition payloadDataOffset (buffer : list Z) : Z :=
  if payloadLength buffer =? 126 then 2 + 2 else 2.
Definition framePayloadDataLength (buffer : list Z) : Z :=
  if Buffer.length buffer <? payloadDataLength buffer
  then Buffer.length buffer - payloadDataOffset buffer
  else payloadDataLength buffer.
End Frame.

(** The values of [closeCode] and [closeReason] that [processResponse]
    takes from the payload of a close frame *)
Definition closeCode_and_closeReason (data : list Z) : M (Z * string) :=
  if Buffer.length data =? 0 then
    ret (CloseCode.noStatus, "connection closed by server")
  else if Buffer.length data =? 1 then
    throw (RangeError "Invalid payload length 1")
  else
    do closeCode ← lift (Buffer.readUInt16BE data 0);
    ret (closeCode, Buffer.toString (Buffer.slice data 2)).

Definition processResponse (response : WebSocketResponse) : M unit :=
  when (isFin response && (bytesLeft response <=? 0)) (
    (if opcode response =? OpcodePing then
       (* the buffer of the response is one object: it is handed to pong
          and then to the listeners of 'ping' *)
       do data ← Sender.new_buffer (buffer response);
       do isServer ← read isServer;
       pong (data_buffer data) (Some (negb isServer)) NOOP;;
       do contents ← read (λ s, default [] (heap s !! data));
       emitEvent "ping" (ev_buffer contents)
     else if opcode response =? OpcodeConnectionClose then
       do parsed ← closeCode_and_closeReason (buffer response);
       let closeCode := parsed.1 in
       let closeReason := parsed.2 in
       update (set_closeFrameReceived true);;
       if closeCode =? CloseCode.noStatus then close None None
       else close (Some closeCode) (Some closeReason)
     else if opcode response =? OpcodeTextFrame then
       emitEvent "message" (ev_message_string (Buffer.toString (buffer response)))
     else if opcode response =? OpcodeBinaryFrame then
       emitEvent "message" (ev_message_buffer (buffer response))
     else ret tt);;
    update (λ s, set_responseStack (ResponseStack.pop (responseStack s)) s)).

(** [response.buffer = Buffer.concat([response.buffer, data])] *)
Definition append_buffer (data : list Z) (r : WebSocketResponse) :=
  set_buffer (Buffer.concat [buffer r; data]) r.

Definition processDataFrame (buffer : list Z) : M JsReturn :=
  do response ← read (λ s, ResponseStack.last (responseStack s));
  let bufferLength := Buffer.length buffer in
  let isFin := Frame.isFin buffer in
  let opcode := Frame.opcode buffer in
  let isMasked := Frame.isMasked buffer in
  let payloadLength := Frame.payloadLength buffer in
  if isMasked then
    disconnectAndEmitError (Error "Received masked data from server")
      (Some CloseCode.protocolError);;
    ret js_undefined
  else if Frame.isControlFrame buffer && negb isFin then
    disconnectAndEmitError (Error "Control frames can't be fragmented.")
      (Some CloseCode.protocolError);;
    ret js_undefined
  else if payloadLength =? 127 then
    throw (Error "unsupported payload length of 64 bit unsinged int")
  else
    let payloadDataLength := Frame.payloadDataLength buffer in
    let payloadDataOffset := Frame.payloadDataOffset buffer in
    let framePayloadDataLength := Frame.framePayloadDataLength buffer in
    do data ← lift (Buffer.alloc payloadDataLength);
    do copied ← lift (Buffer.copy buffer data 0 payloadDataOffset
                        (payloadDataOffset + payloadDataLength));
    let data := copied.1 in
    do response ←
      match response with
      | None =>
          let response :=
            {| isFin := isFin; opcode := opcode;
               bytesLeft := payloadDataLength - framePayloadDataLength;
               frameCount := 0 + 1; buffer := data |} in
          update (λ s, set_responseStack
                    (ResponseStack.push response (responseStack s)) s);;
          ret response
      | Some response =>
          (if opcode =? OpcodeContinueFrame then
             update_last (set_bytesLeft payloadDataLength)
           else
             disconnectAndEmitError
               (Error "A frame after a fragmeneted message must be a continue frame.")
               None);;
          update_last (append_buffer data);;
          update_last (λ r, set_bytesLeft (bytesLeft r - framePayloadDataLength) r);;
          update_last (λ r, set_frameCount (frameCount r + 1) r);;
          update_last (set_isFin isFin);;
          read (λ s, default response (ResponseStack.last (responseStack s)))
      end;
    processResponse response;;
    let nextFrameOffset := payloadDataOffset + framePayloadDataLength in
    let nextFrameLength := Buffer.length buffer - nextFrameOffset in
    do nextFrame ← lift (Buffer.alloc nextFrameLength);
    do copied ← lift (Buffer.copy buffer nextFrame 0 nextFrameOffset
                        (Buffer.length buffer));
    ret (js_number copied.2).

(** [processDataFramesInBuffer]: the loop variable [buffer] is a Buffer
    when the loop condition is tested for the first time; after an
    iteration it holds what [processDataFrame] returned.  A number has no
    [length]: both [undefined >= 2] and [undefined > 0] are false.  Reading
    [length] of [undefined] is a [TypeError]. *)
Definition processDataFramesInBuffer (buffer : list Z) : M unit :=
  if 2 <=? Buffer.length buffer then
    do buffer ← processDataFrame buffer;
    match buffer with
    | js_undefined => throw (TypeError "Cannot read property 'length' of undefined")
    | js_number _ => ret tt
    end
  else if 0 <? Buffer.length buffer then
    throw (Error "Fragmented data in buffer which cannot be processed")
  else ret tt.

(** *** The opening handshake *)

Definition CRLF : string :=
  String (Ascii.ascii_of_nat 13) (String (Ascii.ascii_of_nat 10) EmptyString).

Definition performWsHandshake : M unit :=
  do options ← read options;
  let httpHeader := "GET " +:+ path options +:+ " HTTP/1.1" +:+ CRLF in
  let httpHeader := httpHeader +:+ "Host: " +:+ host options +:+ CRLF in
  let httpHeader :=
    foldl (λ acc h, acc +:+ h.1 +:+ ": " +:+ h.2 +:+ CRLF) httpHeader
          (headers options) in
  let httpHeader := httpHeader +:+ CRLF in
  do present ← read socket;
  if present then
    perform (SocketWrite (Buffer.fromString httpHeader));;
    update (λ s, set_pending (pending s ++ [NOOP]) s)
  else throw (TypeError "Cannot read property 'write' of undefined").

(** A word character or a hyphen *)
Definition is_word (c : ascii) : bool :=
  let n := Ascii.nat_of_ascii c in
  ((65 <=? n) && (n <=? 90) || (97 <=? n) && (n <=? 122)
   || (48 <=? n) && (n <=? 57) || (n =? 95) || (n =? 45))%nat.

(** The characters that [.] does not match: the line terminators LF and
    CR, and U+2028 and U+2029, which are the bytes E2 80 A8 and E2 80 A9
    of the string *)
Definition is_line_terminator (c : ascii) : bool :=
  let n := Ascii.nat_of_ascii c in ((n =? 10) || (n =? 13))%nat.

Definition is_separator (c : ascii) (rest : list ascii) : bool :=
  (Ascii.nat_of_ascii c =? 226)%nat
  && match rest with
     | c2 :: c3 :: _ =>
         (Ascii.nat_of_ascii c2 =? 128)%nat
         && ((Ascii.nat_of_ascii c3 =? 168) || (Ascii.nat_of_ascii c3 =? 169))%nat
     | _ => false
     end.

Definition toLowerCase (s : list ascii) : string :=
  String.string_of_list_ascii
    ((λ c, let n := Ascii.nat_of_ascii c in
           if ((65 <=? n) && (n <=? 90))%nat then Ascii.ascii_of_nat (n + 32) else c)
       <$> s).

(** The successive matches of the header pattern of [processHandshake]
    (a run of word characters or hyphens, a colon and a space, the rest of
    the line) in a response, with the name in lower case: [run] is
    the run of word characters read so far (reversed), [value] the name
    whose value is being read and the value so far (reversed) *)
Fixpoint headerPattern (response run : list ascii)
    (value : option (list ascii * list ascii)) : list (string * string) :=
  match value with
  | Some (name, v) =>
      match response with
      | [] => [(toLowerCase name, String.string_of_list_ascii (rev v))]
      | c :: rest =>
          if is_line_terminator c || is_separator c rest then
            (toLowerCase name, String.string_of_list_ascii (rev v))
              :: headerPattern rest [] None
          else headerPattern rest run (Some (name, c :: v))
      end
  | None =>
      match response with
      | [] => []
      | c :: rest =>
          if is_word c then headerPattern rest (c :: run) None
          else if bool_decide (c = ":"%char) && negb (bool_decide (run = [])) then
            match rest with
            | c' :: rest' =>
                if bool_decide (c' = " "%char)
                then headerPattern rest' [] (Some (rev run, []))
                else headerPattern rest [] None
            | [] => []
            end
          else headerPattern rest [] None
      end
  end.

Definition processHandshake (buffer : list Z) : M unit :=
  let response := Buffer.toString buffer in
  match String.index 0 "HTTP/1.1 101" response with
  | None =>
      abortHandshake "Invalid HTTP status code received during WebSocket hanshake."
  | Some _ =>
      let headers : gmap string string :=
        foldl (λ headers m, <[m.1 := m.2]> headers) ∅
              (headerPattern (String.list_ascii_of_string response) [] None) in
      let secWebSocketAccept := headers !! "sec-websocket-accept" in
      do key ← read secWebSocketKey;
      do hash ← read (λ s, sha1_base64 (Ti s) (key +:+ GUID));
      if bool_decide (Some hash = secWebSocketAccept) then
        update (set_readyState OPEN);;
        emitEvent "open" ev_undefined
      else abortHandshake "Invalid Sec-WebSocket-Accept header"
  end.

Definition socketOnClose : M unit :=
  update (set_readyState CLOSING);;
  update (set_socket false);;
  emitClose None None.

(** The argument of the pump callback: the end of the stream, a call
    without a buffer, or a chunk of bytes *)
Inductive PumpEvent :=
| pump_end
| pump_no_buffer
| pump_data (buffer : list Z).

Definition processInputStream (e : PumpEvent) : M unit :=
  match e with
  | pump_end =>
      do state ← read readyState;
      if state =? CLOSED then ret tt else socketOnClose
  | pump_no_buffer => throw (Error "No buffer to process in socket pump callback")
  | pump_data buffer =>
      do state ← read readyState;
      if state =? CONNECTING then processHandshake buffer
      else processDataFramesInBuffer buffer
  end.

(** The [connected] and [error] callbacks that [connect] gives the socket *)
Definition connected : M unit :=
  update (set_sender (Some true));;
  performWsHandshake.

Definition error (e : string) : M unit :=
  update (set_readyState CLOSED);;
  emitEvent "error" (ev_string e).

(** ** The connection as a machine *)

(** The state in which the constructor leaves a connection *)
Definition new_WebSocket (opts : Options) (key : string) (ti : Titanium)
    (h : gmap nat (list Z)) : WebSocket :=
  {| responseStack := []; readyState := CONNECTING; socket := true;
     isServer := false; closeFrameSent := false; closeFrameReceived := false;
     secWebSocketKey := key; options := opts; listeners := []; sender := None;
     mask := [0; 0; 0; 0]; socketState := Socket_INITIALIZED; heap := h;
     Ti := ti; drawn := 0; pending := []; trace := [] |}.

(** Everything that can happen to a connection: a call of the
    application, a callback of the socket, a chunk from the pump, the
    completion of the [i]-th write that is still under way, the
    registration of a listener ([on(name, listener)], inherited from
    [EventEmitter]).  A call of
    [send] or [pong] with a function in the place of the data or of the
    mask, or with a number as data, is not among them, nor is the removal
    of a listener. *)
Inductive Input :=
| call_send (d : JsData) (options : SendOptions) (cb : option nat)
| call_pong (d : JsData) (mask : option bool) (cb : option nat)
| call_close (code : option Z) (reason : option string)
| socket_connected
| socket_error (e : string)
| pump (e : PumpEvent)
| write_complete (i : nat)
| call_on (name : string).

(** The callback argument of a call of the application: absent, or one of
    its functions *)
Definition callback (cb : option nat) : Callback :=
  match cb with
  | Some id => cb_function id
  | None => cb_undefined
  end.

Definition handle (i : Input) : M unit :=
  match i with
  | call_send d options cb => send d options (callback cb)
  | call_pong d mask cb => pong d mask (callback cb)
  | call_close code reason => close code reason
  | socket_connected => update (set_socketState Socket_CONNECTED);; connected
  | socket_error e => update (set_socketState Socket_ERROR);; error e
  | pump e => processInputStream e
  | write_complete i =>
      do cb ← read (λ s, pending s !! i);
      match cb with
      | Some cb => update (λ s, set_pending (delete i (pending s)) s);; run_callback cb
      | None => ret tt
      end
  | call_on name => update (λ s, set_listeners (listeners s ++ [name]) s)
  end.

(** An exception that reaches the event loop ends the handler; the state
    stays as the handler left it *)
Definition step (s : WebSocket) (i : Input) : WebSocket := state_after (handle i) s.

Definition run (s : WebSocket) (inputs : list Input) : WebSocket := foldl step s inputs.

(** ** A connection to run examples on *)

Definition example_Ti : Titanium :=
  {| sha1_base64 := λ _, "s3pPLMBiTxaQ9kYGzzhZRbK+xOo=";
     random := λ n, Z.of_nat n + 7 |}.

Definition example_options : Options :=
  {| path := "/chat"; host := "www.host.com";
     headers := [("Sec-WebSocket-Version", "13");
                 ("Sec-WebSocket-Key", "dGhlIHNhbXBsZSBub25jZQ==");
                 ("Connection", "Upgrade"); ("Upgrade", "websocket")] |}.

(** The application holds one buffer, [[1; 2; 3]], under the identity 0 *)
Definition example_new : WebSocket :=
  new_WebSocket example_options "dGhlIHNhbXBsZSBub25jZQ==" example_Ti
    {[ 0%nat := [1; 2; 3] ]}.

Definition example_handshake_response : list Z :=
  Buffer.fromString
    ("HTTP/1.1 101 Switching Protocols" +:+ CRLF
     +:+ "Upgrade: websocket" +:+ CRLF
     +:+ "Connection: Upgrade" +:+ CRLF
     +:+ "Sec-WebSocket-Accept: s3pPLMBiTxaQ9kYGzzhZRbK+xOo=" +:+ CRLF
     +:+ CRLF).

(** The connection after the application has registered a listener for
    ['error'], the socket has connected and the server has accepted the
    upgrade *)
Definition example_open : WebSocket :=
  run example_new [call_on "error"; socket_connected;
                   pump (pump_data example_handshake_response)].

(** ** What the properties are stated with *)

(** One iteration of [applyMask] seen from the byte it reads:
    [source[i] ^ mask[i & 3]], stored into a byte array *)
Definition masked_byte (mask : list Z) (i : nat) (d : Z) : Z :=
  js_xor (Some d) (Buffer.get mask (js_and (Some (Z.of_nat i)) (Some 3))) mod 256.

(** The masking function in the words of the specification:
    [data'[i] = data[i] XOR key[i mod 4]] *)
Definition mask_spec (key data : list Z) : list Z :=
  imap (λ i d, Z.lxor d (default 0 (key !! (i mod 4)%nat))) data.

(** The mask key of the next frame: the next four random bytes *)
Definition next_key (s : WebSocket) : list Z :=
  (λ i, random (Ti s) (drawn s + i)%nat mod 256) <$> seq 0 4.

(** The wire layout of an outbound frame: the first byte with FIN, RSV1
    and the opcode, the length field with the MASK bit set, the extended
    length in big-endian order, the mask key *)
Definition frame_header (o : FrameOptions) (length : Z) (key : list Z) : list Z :=
  let first :=
    (if fin o then js_or (Some (frame_opcode o)) (Some 0x80) else frame_opcode o)
      mod 256 in
  let first := if rsv1 o then js_or (Some first) (Some 0x40) mod 256 else first in
  if 65536 <=? length then
    [first; 255; 0; 0; 0; 0; (length / 16777216) mod 256;
     (length / 65536) mod 256; (length / 256) mod 256; length mod 256] ++ key
  else if 125 <? length then
    [first; 254; (length / 256) mod 256; length mod 256] ++ key
  else [first; js_or (Some (length mod 256)) (Some 0x80) mod 256] ++ key.

(** The state after a frame has been built from the buffer [l] *)
Definition framed (l : nat) (payload : list Z) (s : WebSocket) : WebSocket :=
  set_heap (<[l := imap (masked_byte (next_key s)) payload]> (heap s))
    (set_mask (next_key s) (set_drawn (drawn s + 4) s)).

(** A method preserves a relation between the state before and the state
    after it *)
Definition preserves (R : relation WebSocket) {A} (m : M A) : Prop :=
  ∀ s, R s (state_after m s).

(** Only the buffer [l'] has changed *)
Definition same_heap_except (l' : nat) : relation WebSocket :=
  λ s s', ∀ l, l ≠ l' → heap s' !! l = heap s !! l.

(** No buffer has changed *)
Definition same_heap : relation WebSocket := λ s s', heap s' = heap s.

(** The wire layout of a frame, read back: the index of the mask key (or
    of the payload of an unmasked frame) and the payload length that the
    header declares.  A big-endian number: *)
Definition be_uint (bytes : list Z) : Z := foldl (λ acc b, acc * 256 + b) 0 bytes.

Definition wire_offset (frame : list Z) : nat :=
  if Frame.payloadLength frame =? 127 then 10
  else if Frame.payloadLength frame =? 126 then 4 else 2.

Definition wire_length (frame : list Z) : Z :=
  if Frame.payloadLength frame =? 127 then be_uint (take 8 (drop 2 frame))
  else Frame.payloadDataLength frame.

(** Between two states nothing was added to or taken from the response
    stack and no event other than ['close'] was emitted *)
Definition no_dispatch : relation WebSocket := λ s s',
  responseStack s' = responseStack s
  ∧ ∃ effects, trace s' = trace s ++ effects
      ∧ Forall (λ e, ∀ name d, e = Emit name d → name = "close") effects.

(** The payload of the close frame that reports a masked frame *)
Definition masked_data_close_payload : list Z :=
  3 :: 234 :: Buffer.fromString "Received masked data from server".

(** The payload of a frame that is complete in the buffer *)
Definition frame_payload (buffer : list Z) : list Z :=
  take (Z.to_nat (Frame.payloadDataLength buffer))
       (drop (Z.to_nat (Frame.payloadDataOffset buffer)) buffer).

(** [readyState] is one of the four states; it is the same in two states;
    a valid state is followed by a valid state; by one that is not below *)
Definition valid_readyState (s : WebSocket) : Prop :=
  CONNECTING ≤ readyState s ≤ CLOSED.

Definition same_readyState : relation WebSocket :=
  λ s s', readyState s' = readyState s.

Definition stays_valid : relation WebSocket :=
  λ s s', valid_readyState s → valid_readyState s'.

Definition readyState_advances : relation WebSocket :=
  λ s s', valid_readyState s → valid_readyState s' ∧ readyState s ≤ readyState s'.

(** The callback of a close frame *)
Definition is_closeFrameSent (cb : Callback) : bool :=
  match cb with cb_closeFrameSent _ _ => true | _ => false end.

(** The number of close frames whose write has not completed yet *)
Definition waiting (s : WebSocket) : nat :=
  length (List.filter is_closeFrameSent (pending s)).

(** The socket has been closed and ['close'] has been emitted *)
Definition torn_down (effects : list Effect) : Prop :=
  SocketClose ∈ effects ∧ ∃ code, Emit "close" (ev_number code) ∈ effects.



(** What holds of an established connection as long as the transport is
    alive; [t0] is the trace at the time the connection was established *)
Definition close_handshake_inv (t0 : list Effect) (s : WebSocket) : Prop :=
  socket s = true
  ∧ (readyState s = OPEN ∨ readyState s = CLOSING ∨ readyState s = CLOSED)
  ∧ (readyState s = OPEN →
     closeFrameSent s = false ∧ closeFrameReceived s = false ∧ waiting s = 0%nat)
  ∧ (closeFrameSent s = true → waiting s = 0%nat)
  ∧ (waiting s ≤ 1)%nat
  ∧ (readyState s = CLOSED ↔ closeFrameSent s = true ∧ closeFrameReceived s = true)
  ∧ ∃ effects, trace s = t0 ++ effects
      ∧ (readyState s = CLOSED → torn_down effects)
      ∧ (SocketClose ∈ effects → readyState s = CLOSED).

Definition keeps_inv (t0 : list Effect) : relation WebSocket :=
  λ s s', close_handshake_inv t0 s → close_handshake_inv t0 s'.

(** Nothing that the close handshake depends on has changed *)
Definition same_connection : relation WebSocket := λ s s',
  socket s' = socket s ∧ readyState s' = readyState s
  ∧ closeFrameSent s' = closeFrameSent s
  ∧ closeFrameReceived s' = closeFrameReceived s
  ∧ pending s' = pending s ∧ trace s' = trace s.

(** The connection has written to the socket or emitted events, and
    nothing else that the close handshake depends on has changed *)
Definition no_close_progress : relation WebSocket := λ s s',
  socket s' = socket s ∧ readyState s' = readyState s
  ∧ closeFrameSent s' = closeFrameSent s
  ∧ closeFrameReceived s' = closeFrameReceived s
  ∧ waiting s' = waiting s
  ∧ ∃ effects, trace s' = trace s ++ effects ∧ SocketClose ∉ effects.

(** Well-formed UTF-8 (the byte sequences of table 3-7 of the Unicode
    Standard: no overlong form, no surrogate, nothing above U+10FFFF).
    These are the bytes that [toString] turns into the string they encode;
    elsewhere the code puts U+FFFD in the place of the bytes it cannot
    decode, which the embedding of [toString] does not follow.  What is
    proved about decoded text is stated for well-formed bytes. *)
Definition continuation_byte (b : Z) : bool := (0x80 <=? b) && (b <=? 0xBF).

Fixpoint well_formed_utf8 (bytes : list Z) : bool :=
  match bytes with
  | [] => true
  | b0 :: rest =>
      if (0 <=? b0) && (b0 <=? 0x7F) then well_formed_utf8 rest
      else if (0xC2 <=? b0) && (b0 <=? 0xDF) then
        match rest with
        | b1 :: rest => continuation_byte b1 && well_formed_utf8 rest
        | _ => false
        end
      else if (0xE0 <=? b0) && (b0 <=? 0xEF) then
        match rest with
        | b1 :: b2 :: rest =>
            (if b0 =? 0xE0 then (0xA0 <=? b1) && (b1 <=? 0xBF)
             else if b0 =? 0xED then (0x80 <=? b1) && (b1 <=? 0x9F)
             else continuation_byte b1)
            && continuation_byte b2 && well_formed_utf8 rest
        | _ => false
        end
      else if (0xF0 <=? b0) && (b0 <=? 0xF4) then
        match rest with
        | b1 :: b2 :: b3 :: rest =>
            (if b0 =? 0xF0 then (0x90 <=? b1) && (b1 <=? 0xBF)
             else if b0 =? 0xF4 then (0x80 <=? b1) && (b1 <=? 0x8F)
             else continuation_byte b1)
            && continuation_byte b2 && continuation_byte b3
            && well_formed_utf8 rest
        | _ => false
        end
      else false
  end.

(** The text of a message can be decoded: the payload of a text message is
    well-formed UTF-8 *)
Definition decodable (opcode : Z) (data : list Z) : Prop :=
  opcode = OpcodeTextFrame → well_formed_utf8 data = true.

(** The flags of the close handshake and the writes under way are as
    they were *)
Definition flags_kept : relation WebSocket := λ s s',
  closeFrameSent s' = closeFrameSent s
  ∧ closeFrameReceived s' = closeFrameReceived s
  ∧ pending s' = pending s.


(** ** What the further properties are stated with *)

(** The first byte of the frame that [createFrameBuffer] builds *)
Definition first_byte (o : FrameOptions) : Z :=
  let first :=
    (if fin o then js_or (Some (frame_opcode o)) (Some 0x80) else frame_opcode o)
      mod 256 in
  if rsv1 o then js_or (Some first) (Some 0x40) mod 256 else first.

(** The bytes that [Buffer.from(data || EMPTY_BUFFER)] holds *)
Definition data_bytes (h : gmap nat (list Z)) (d : JsData) : list Z :=
  match d with
  | data_undefined => []
  | data_string s => Buffer.fromString s
  | data_buffer l => default [] (h !! l)
  end.

(** The pong frame for a payload and a mask key *)
Definition pong_frame (key payload : list Z) : list Z :=
  frame_header {| data := data_undefined; frame_opcode := OpcodePong;
                  fin := true; rsv1 := false |} (Buffer.length payload) key
    ++ imap (masked_byte key) payload.

(** Everything but the trace, the pending writes, the mask and the random source,
    and every buffer that existed before *)
Definition only_sent : relation WebSocket := λ s s',
  responseStack s' = responseStack s ∧ readyState s' = readyState s
  ∧ socket s' = socket s ∧ closeFrameSent s' = closeFrameSent s
  ∧ closeFrameReceived s' = closeFrameReceived s ∧ sender s' = sender s
  ∧ socketState s' = socketState s
  ∧ ∀ l, is_Some (heap s !! l) → heap s' !! l = heap s !! l.

(** The buffer holds one unmasked frame and nothing else *)
Definition complete_frame (buffer : list Z) : Prop :=
  Buffer.is_bytes buffer ∧ Frame.isMasked buffer = false
  ∧ Frame.payloadLength buffer ≠ 127
  ∧ Frame.payloadDataOffset buffer + Frame.payloadDataLength buffer
    = Buffer.length buffer.

(** It is a continuation frame, the last one of its message or not *)
Definition fragment (final : bool) (buffer : list Z) : Prop :=
  complete_frame buffer ∧ Frame.opcode buffer = OpcodeContinueFrame
  ∧ Frame.isFin buffer = final.

(** What a listener of ['message'] gets for a text and for a binary message *)
Definition message_event (opcode : Z) (data : list Z) : EventData :=
  if opcode =? OpcodeTextFrame then ev_message_string (Buffer.toString data)
  else ev_message_buffer data.

(** The chunks that the pump delivers *)
Definition deliver (chunks : list (list Z)) : list Input :=
  (λ chunk, pump (pump_data chunk)) <$> chunks.

(** The part of the payload that a buffer holds *)
Definition received_payload (buffer : list Z) : list Z :=
  drop (Z.to_nat (Frame.payloadDataOffset buffer)) buffer.

(** The response stack holds one response at most *)
Definition stack_fits : relation WebSocket := λ s s',
  (length (responseStack s) ≤ 1)%nat → (length (responseStack s') ≤ 1)%nat.

(** A write to the socket *)
Definition is_write (e : Effect) : bool :=
  match e with SocketWrite _ => true | _ => false end.

(** Nothing was written to the socket, and [readyState] is what it was or
    has moved on to CLOSING or CLOSED *)
Definition winding_down : relation WebSocket := λ s s',
  (readyState s' = readyState s ∨ readyState s' = CLOSING ∨ readyState s' = CLOSED)
  ∧ ∃ effects, trace s' = trace s ++ effects
      ∧ Forall (λ e, is_write e = false) effects.

(** A connection that is not open is winding down *)
Definition silent_unless_open : relation WebSocket := λ s s',
  valid_readyState s → readyState s ≠ OPEN → winding_down s s'.

(** Nothing was written to the socket *)
Definition no_write : relation WebSocket := λ s s',
  ∃ effects, trace s' = trace s ++ effects ∧ Forall (λ e, is_write e = false) effects.

(** A ['close'] event *)
Definition is_close_event (e : Effect) : bool :=
  match e with Emit name _ => bool_decide (name = "close") | _ => false end.

(** The number of ['close'] events in a trace *)
Definition closes (t : list Effect) : nat := length (List.filter is_close_event t).

(** What holds of a connection at any time: ['close'] has been emitted once
    at most; once it has been emitted the connection is CLOSED and either
    no close frame is under way or the socket is gone *)
Definition once_inv (s : WebSocket) : Prop :=
  valid_readyState s
  ∧ (waiting s ≤ 1)%nat
  ∧ (readyState s ≤ OPEN → waiting s = 0%nat ∧ closeFrameSent s = false)
  ∧ (closeFrameSent s = true → waiting s = 0%nat)
  ∧ (closes (trace s) = 0%nat
     ∨ closes (trace s) = 1%nat ∧ readyState s = CLOSED
       ∧ (waiting s = 0%nat ∨ socket s = false)).

(** [once_inv] is kept *)
Definition keeps_once : relation WebSocket := λ s s', once_inv s → once_inv s'.

(** Nothing that [once_inv] depends on has changed *)
Definition steady : relation WebSocket := λ s s',
  socket s' = socket s ∧ readyState s' = readyState s
  ∧ closeFrameSent s' = closeFrameSent s
  ∧ waiting s' = waiting s ∧ closes (trace s') = closes (trace s).

(** A response head with header lines that the pattern of [processHandshake]
    reads: the status line, a line [name: value] for every header and the
    empty line *)
Definition header_line (h : string * string) : string :=
  h.1 +:+ ": " +:+ h.2 +:+ CRLF.

Definition http_response (status : string) (headers : list (string * string)) : string :=
  status +:+ CRLF +:+ foldr (λ h rest, header_line h +:+ rest) CRLF headers.

(** The characters of a string, and a string in lower case *)
Definition chars (s : string) : list ascii := String.list_ascii_of_string s.

(** A header name is a non-empty run of word characters and hyphens; a
    header value is a run of ASCII characters other than CR and LF *)
Definition is_name (s : string) : Prop :=
  s ≠ "" ∧ Forall (λ c, is_word c = true) (chars s).

Definition is_value (s : string) : Prop :=
  Forall (λ c, is_line_terminator c = false ∧ (Ascii.nat_of_ascii c < 128)%nat) (chars s).

Definition lower (s : string) : string := toLowerCase (chars s).

(** The error that a callback gets after the connection has left OPEN *)
Definition not_open (state : Z) : JsError :=
  Error (if state =? CLOSING
         then "WebSocket is not open: readyState 2 (CLOSING)"
         else "WebSocket is not open: readyState 3 (CLOSED)").

(** The bytes of a frame without a mask, as a server sends it: FIN and the
    opcode, the payload length in 7 or in 7 + 16 bits, the payload *)
Definition unmasked_frame (final : bool) (opc : Z) (payload : list Z) : list Z :=
  let first := (if final then 128 else 0) + opc in
  let L := Buffer.length payload in
  if L <=? 125 then first :: L :: payload
  else first :: 126 :: L / 256 :: L mod 256 :: payload.

(** The status code and the reason that a close payload carries *)
Definition close_status (payload : list Z) : option Z * option string :=
  match payload with
  | hi :: lo :: reason => (Some (hi * 256 + lo), Some (Buffer.toString reason))
  | _ => (None, None)
  end.

(** An ['open'] event *)
Definition is_open_event (e : Effect) : bool :=
  match e with Emit name _ => bool_decide (name = "open") | _ => false end.

(** The number of ['open'] events in a trace *)
Definition opens (t : list Effect) : nat := length (List.filter is_open_event t).

(** ['open'] has been emitted if and only if the connection has left
    CONNECTING through OPEN *)
Definition open_inv (s : WebSocket) : Prop :=
  valid_readyState s ∧ (opens (trace s) ≤ 1)%nat
  ∧ (readyState s = CONNECTING → opens (trace s) = 0%nat)
  ∧ (readyState s = OPEN → opens (trace s) = 1%nat).

(** No ['open'] was emitted, and [readyState] is what it was or has moved on
    to CLOSING or CLOSED *)
Definition past_open : relation WebSocket := λ s s',
  opens (trace s') = opens (trace s)
  ∧ (readyState s' = readyState s ∨ readyState s' = CLOSING ∨ readyState s' = CLOSED).

(** The error for a data frame in the middle of a fragmented message *)
Definition not_a_continuation : JsError :=
  Error "A frame after a fragmeneted message must be a continue frame.".

(** A call of [send] without options; the headers of an example response *)
Definition no_options : SendOptions :=
  {| binary := None; compress := None; opt_fin := None |}.

Definition example_headers : list (string * string) :=
  [("Upgrade", "websocket"); ("Connection", "Upgrade")].

(** * Properties *)

(** ** Bytes and the bit operators *)

Lemma int32_small v : -2 ^ 31 ≤ v < 2 ^ 31 → int32 v = v.
Proof. intros H. unfold int32. rewrite Z.mod_small; lia. Qed.

Lemma int32_byte v : 0 ≤ v < 256 → int32 v = v.
Proof. intros H. apply int32_small. lia. Qed.

Lemma mod_256_land v : v mod 256 = Z.land v 255.
Proof. change 255 with (Z.ones 8). rewrite Z.land_ones by lia. reflexivity. Qed.

Lemma land_255_byte v : 0 ≤ v < 256 → Z.land v 255 = v.
Proof. intros H. rewrite <- mod_256_land. apply Z.mod_small. lia. Qed.

Lemma land_lxor_distr a b c :
  Z.land (Z.lxor a b) c = Z.lxor (Z.land a c) (Z.land b c).
Proof.
  apply Z.bits_inj'. intros n _.
  rewrite !Z.land_spec, !Z.lxor_spec, !Z.land_spec.
  by destruct (Z.testbit a n), (Z.testbit b n), (Z.testbit c n).
Qed.

Lemma land_lor_distr a b c :
  Z.land (Z.lor a b) c = Z.lor (Z.land a c) (Z.land b c).
Proof.
  apply Z.bits_inj'. intros n _.
  rewrite !Z.land_spec, !Z.lor_spec, !Z.land_spec.
  by destruct (Z.testbit a n), (Z.testbit b n), (Z.testbit c n).
Qed.

(** Masking a byte twice with the same value gives the byte back *)
Lemma xor_byte_twice d k :
  0 ≤ d < 256 → (Z.lxor ((Z.lxor d k) mod 256) k) mod 256 = d.
Proof.
  intros Hd. rewrite !mod_256_land, !land_lxor_distr.
  rewrite <- !Z.land_assoc, Z.land_diag.
  rewrite Z.lxor_assoc, Z.lxor_nilpotent, Z.lxor_0_r.
  by apply land_255_byte.
Qed.

Lemma lxor_byte a b : 0 ≤ a < 256 → 0 ≤ b < 256 → 0 ≤ Z.lxor a b < 256.
Proof.
  intros Ha Hb.
  assert (Z.lxor a b = Z.land (Z.lxor a b) 255) as ->.
  { by rewrite land_lxor_distr, !land_255_byte. }
  rewrite <- mod_256_land. apply Z.mod_pos_bound. lia.
Qed.

(** [i & 3] is [i mod 4], whatever ToInt32 does to [i] *)
Lemma int32_land_3 i : Z.land (int32 i) 3 = i mod 4.
Proof.
  change 3 with (Z.ones 2). rewrite Z.land_ones by lia.
  unfold int32. rewrite (Z.mod_eq (i + 2 ^ 31) (2 ^ 32)) by lia.
  replace (i + 2 ^ 31 - 2 ^ 32 * ((i + 2 ^ 31) / 2 ^ 32) - 2 ^ 31)
    with (i + (- 2 ^ 30 * ((i + 2 ^ 31) / 2 ^ 32)) * 2 ^ 2) by lia.
  by rewrite Z.mod_add by lia.
Qed.

Lemma is_bytes_lookup (b : list Z) (i : nat) (x : Z) :
  Buffer.is_bytes b → b !! i = Some x → 0 ≤ x < 256.
Proof. intros Hb Hi. by apply (proj1 (Forall_lookup _ _) Hb i x). Qed.

Lemma is_bytesb_spec (b : list Z) : Buffer.is_bytesb b = true ↔ Buffer.is_bytes b.
Proof.
  unfold Buffer.is_bytesb, Buffer.is_bytes.
  rewrite forallb_forall, Forall_forall. split; intros H x Hx.
  - apply list_elem_of_In, H in Hx. lia.
  - apply list_elem_of_In, H in Hx. lia.
Qed.

Lemma get_of_nat (b : list Z) (i : nat) : Buffer.get b (Z.of_nat i) = b !! i.
Proof.
  unfold Buffer.get. destruct (Z.ltb_spec (Z.of_nat i) 0); [lia|].
  by rewrite Nat2Z.id.
Qed.

Lemma set_of_nat (b : list Z) (i : nat) v :
  Buffer.set b (Z.of_nat i) v = <[i := v mod 256]> b.
Proof.
  unfold Buffer.set. destruct (Z.ltb_spec (Z.of_nat i) 0); [lia|].
  by rewrite Nat2Z.id.
Qed.

(** ASCII is well-formed UTF-8; what is not: a byte that cannot start a
    sequence, a sequence that is cut short, an overlong form, a surrogate,
    a code point above U+10FFFF *)
Lemma ascii_is_well_formed (bytes : list Z) :
  Forall (λ x, 0 ≤ x ≤ 127) bytes → well_formed_utf8 bytes = true.
Proof.
  induction 1 as [|x bytes Hx _ IH]; [done|]. cbn [well_formed_utf8].
  destruct (Z.leb_spec 0 x); [|lia]. by destruct (Z.leb_spec x 127); [|lia].
Qed.

Lemma well_formed_utf8_cases :
  well_formed_utf8 [0xC3; 0xA9] = true
  ∧ well_formed_utf8 [0xE2; 0x82; 0xAC] = true
  ∧ well_formed_utf8 [0xF0; 0x9F; 0x98; 0x80] = true
  ∧ well_formed_utf8 [104; 255] = false
  ∧ well_formed_utf8 [0xC3] = false
  ∧ well_formed_utf8 [0xC0; 0x80] = false
  ∧ well_formed_utf8 [0xED; 0xA0; 0x80] = false
  ∧ well_formed_utf8 [0xF4; 0x90; 0x80; 0x80] = false.
Proof. by vm_compute. Qed.

(** ** The masking loop *)

Lemma toInt32_byte d : 0 ≤ d < 256 → toInt32 (Some d) = d.
Proof. apply int32_byte. Qed.

Lemma masked_byte_twice mask i d :
  0 ≤ d < 256 → masked_byte mask i (masked_byte mask i d) = d.
Proof.
  intros Hd. unfold masked_byte, js_xor.
  set (k := toInt32 (Buffer.get mask _)).
  rewrite (toInt32_byte d) by done.
  rewrite toInt32_byte by (apply Z.mod_pos_bound; lia).
  by apply xor_byte_twice.
Qed.

Lemma masked_byte_spec key i d :
  Buffer.is_bytes key → 0 ≤ d < 256 →
  masked_byte key i d = Z.lxor d (default 0 (key !! (i mod 4)%nat)).
Proof.
  intros Hk Hd. unfold masked_byte, js_xor, js_and.
  rewrite (toInt32_byte d), (toInt32_byte 3) by lia.
  unfold toInt32 at 2. cbn [default from_option id]. rewrite int32_land_3.
  replace (Z.of_nat i mod 4) with (Z.of_nat (i mod 4)) by (by rewrite Nat2Z.inj_mod).
  rewrite get_of_nat.
  destruct (key !! (i mod 4)%nat) as [k|] eqn:Hki; cbn [default from_option id].
  - pose proof (is_bytes_lookup _ _ _ Hk Hki) as Hkb.
    rewrite (toInt32_byte k) by done. apply Z.mod_small. by apply lxor_byte.
  - change (toInt32 None) with 0. rewrite Z.lxor_0_r. apply Z.mod_small. lia.
Qed.

Lemma store_lookup (h : gmap nat (list Z)) l b i v :
  h !! l = Some b → store h l i v = <[l := Buffer.set b i v]> h.
Proof.
  intros Hl. unfold store. apply map_eq. intros j.
  destruct (decide (l = j)) as [->|Hne].
  - by rewrite lookup_alter_eq, lookup_insert_eq, Hl.
  - by rewrite lookup_alter_ne, lookup_insert_ne.
Qed.

(** The loop on one buffer that is both source and output: the [n] bytes
    from index [k] on are masked, the others stay *)
Lemma applyMask_loop_in_place n : ∀ k (h : gmap nat (list Z)) l mask b,
  h !! l = Some b →
  applyMask_loop n (Z.of_nat k) l mask l 0 h =
    <[l := take k b ++ imap (λ i, masked_byte mask (k + i)) (take n (drop k b))
             ++ drop (k + n) b]> h.
Proof.
  induction n as [|n IH]; intros k h l mask b Hl; simpl.
  - rewrite Nat.add_0_r, take_drop. by rewrite insert_id.
  - rewrite (store_lookup _ _ b) by done. rewrite Z.add_0_l, set_of_nat.
    replace (Z.of_nat k + 1) with (Z.of_nat (S k)) by lia.
    rewrite (IH (S k) _ l mask (<[k := _]> b)) by apply lookup_insert_eq.
    rewrite insert_insert_eq. f_equal.
    unfold load. rewrite Hl. simpl. rewrite get_of_nat.
    destruct (b !! k) as [d|] eqn:Hk.
    + assert (k < length b)%nat as Hlt by (by eapply lookup_lt_Some).
      rewrite (take_S_r _ _ (masked_byte mask k d)).
      2:{ rewrite list_lookup_insert_eq by done. done. }
      rewrite take_insert_ge by lia. rewrite !drop_insert_lt by lia.
      rewrite (drop_S b d k) by done. simpl.
      rewrite <- app_assoc. simpl. rewrite Nat.add_0_r.
      replace (k + S n)%nat with (S (k + n)) by lia.
      f_equal. f_equal. f_equal.
      apply imap_ext. intros i x _. simpl. f_equal. lia.
    + assert (length b ≤ k)%nat as Hge by (by apply lookup_ge_None).
      rewrite list_insert_ge by done.
      rewrite !drop_ge by lia. rewrite (take_ge b) by lia.
      rewrite (take_ge b k) by lia. by rewrite !take_nil.
Qed.

(** ** Masking is its own inverse *)

(** C5: for every byte sequence [data] and every key of bytes (a 4-byte key
    in particular), [applyMask] on the buffer that holds [data] leaves
    [data'] with [data'[i] = data[i] XOR key[i mod 4]] in it, and applying
    it a second time with the same key leaves the original [data]. *)
Theorem applyMask_self_inverse (s : WebSocket) (l : nat) (data key : list Z) :
  heap s !! l = Some data → Buffer.is_bytes data → Buffer.is_bytes key →
  let mask_once := applyMask l key l 0 (Buffer.length data) in
  heap (state_after mask_once s) !! l = Some (mask_spec key data)
  ∧ heap (state_after (mask_once;; mask_once) s) !! l = Some data.
Proof.
  intros Hl Hdata Hkey. cbn zeta.
  unfold state_after, applyMask, bind, update, Buffer.length. cbn.
  rewrite Nat2Z.id.
  rewrite (applyMask_loop_in_place _ 0 _ _ _ data Hl). cbn [Nat.add].
  rewrite drop_0, firstn_all, drop_all, app_nil_r. cbn [take app].
  set (once := imap _ data).
  rewrite (applyMask_loop_in_place _ 0 _ _ _ once) by apply lookup_insert_eq.
  rewrite insert_insert_eq, !lookup_insert_eq. cbn [Nat.add].
  assert (length once = length data) as Hlen by apply length_imap.
  rewrite drop_0, <- Hlen, firstn_all, drop_all, app_nil_r. cbn [take app].
  split; f_equal.
  - unfold once, mask_spec. apply imap_ext. intros i d Hi. cbv beta.
    apply masked_byte_spec; [done|]. exact (is_bytes_lookup _ _ _ Hdata Hi).
  - rewrite take_0. cbn [app]. unfold once.
    apply list_eq. intros i. rewrite !list_lookup_imap.
    destruct (data !! i) as [d|] eqn:Hi; [|done]. cbn. f_equal.
    apply masked_byte_twice. exact (is_bytes_lookup _ _ _ Hdata Hi).
Qed.

Lemma applyMask_self_inverse_witness :
  heap example_new !! 0%nat = Some [1; 2; 3]
  ∧ Buffer.is_bytes [1; 2; 3] ∧ Buffer.is_bytes [7; 8; 9; 10]
  ∧ heap (state_after (applyMask 0 [7; 8; 9; 10] 0 0 3) example_new) !! 0%nat
      = Some (mask_spec [7; 8; 9; 10] [1; 2; 3])
  ∧ heap (state_after (applyMask 0 [7; 8; 9; 10] 0 0 3;;
                       applyMask 0 [7; 8; 9; 10] 0 0 3) example_new) !! 0%nat
      = Some [1; 2; 3].
Proof.
  assert (Buffer.is_bytes [1; 2; 3]) as H1 by (repeat constructor; lia).
  assert (Buffer.is_bytes [7; 8; 9; 10]) as H2 by (repeat constructor; lia).
  split; [reflexivity|]. split; [exact H1|]. split; [exact H2|].
  exact (applyMask_self_inverse example_new 0 [1; 2; 3] [7; 8; 9; 10]
           eq_refl H1 H2).
Defined.

(** ** The frame that [createFrameBuffer] builds *)

Lemma randomBytes_4 s :
  randomBytes 4 s = (set_drawn (drawn s + 4) s, Normal (next_key s)).
Proof. reflexivity. Qed.

(** A copy that overwrites the whole target *)
Lemma copy_all (source target : list Z) :
  length source = length target → (0 < length source)%nat →
  Buffer.copy source target 0 0 (Buffer.length source)
    = Normal (source, Buffer.length source).
Proof.
  intros Hlen Hpos. unfold Buffer.copy, Buffer.length. rewrite <- Hlen.
  destruct (Z.leb_spec (Z.of_nat (length source)) 0); [lia|]. cbn [orb].
  destruct (Z.ltb_spec (Z.of_nat (length source)) 0); [lia|].
  rewrite !Z.sub_0_r, !Z.min_id, Z.add_0_l, Nat2Z.id.
  change (Z.to_nat 0) with 0%nat. rewrite drop_0, firstn_all, take_0.
  rewrite drop_ge by lia. by rewrite app_nil_r.
Qed.

Lemma randomFillSync_mask s :
  length (mask s) = 4%nat →
  randomFillSync 0 4 s = (set_mask (next_key s) (set_drawn (drawn s + 4) s), Normal tt).
Proof.
  intros Hm. unfold randomFillSync, bind. rewrite randomBytes_4.
  unfold read, lift, update. cbn [mask set_drawn].
  change 4 with (Buffer.length (next_key s)) at 1.
  rewrite copy_all; [done| |]; cbn; lia.
Qed.

Lemma applyMask_whole s l key payload :
  heap s !! l = Some payload →
  applyMask l key l 0 (Buffer.length payload) s =
    (set_heap (<[l := imap (masked_byte key) payload]> (heap s)) s, Normal tt).
Proof.
  intros Hl. unfold applyMask, update, Buffer.length. rewrite Nat2Z.id.
  rewrite (applyMask_loop_in_place _ 0 _ _ _ payload Hl). cbn [Nat.add].
  by rewrite drop_0, firstn_all, drop_all, app_nil_r.
Qed.
(** ** Running a method *)

Lemma bind_Normal {A B} (m : M A) (k : A → M B) s s' a :
  m s = (s', Normal a) → bind m k s = k a s'.
Proof. intros H. unfold bind. by rewrite H. Qed.

Lemma bind_Throw {A B} (m : M A) (k : A → M B) s s' e :
  m s = (s', Throw e) → bind m k s = (s', Throw e).
Proof. intros H. unfold bind. by rewrite H. Qed.

Lemma bind_read {A B} (f : WebSocket → A) (k : A → M B) s :
  bind (read f) k s = k (f s) s.
Proof. reflexivity. Qed.

Lemma bind_update {B} (f : WebSocket → WebSocket) (k : unit → M B) s :
  bind (update f) k s = k tt (f s).
Proof. reflexivity. Qed.

Lemma bind_lift {A B} (a : A) (k : A → M B) s :
  bind (lift (Normal a)) k s = k a s.
Proof. reflexivity. Qed.

Lemma bind_ret {A B} (a : A) (k : A → M B) s : bind (ret a) k s = k a s.
Proof. reflexivity. Qed.

Lemma writeUInt16BE_ok (b : list Z) value offset :
  0 ≤ value ≤ 65535 → 0 ≤ offset ≤ Buffer.length b - 2 →
  Buffer.writeUInt16BE b value offset
    = Normal (Buffer.set (Buffer.set b offset (value / 256)) (offset + 1) value).
Proof.
  intros Hv Ho. unfold Buffer.writeUInt16BE.
  destruct (Z.ltb_spec value 0); [lia|]. destruct (Z.ltb_spec 65535 value); [lia|].
  destruct (Z.ltb_spec offset 0); [lia|].
  by destruct (Z.ltb_spec (Buffer.length b - 2) offset); [lia|].
Qed.

Lemma writeUInt32BE_ok (b : list Z) value offset :
  0 ≤ value ≤ 4294967295 → 0 ≤ offset ≤ Buffer.length b - 4 →
  Buffer.writeUInt32BE b value offset
    = Normal (Buffer.set (Buffer.set (Buffer.set (Buffer.set b offset
                (value / 16777216)) (offset + 1) (value / 65536))
                (offset + 2) (value / 256)) (offset + 3) value).
Proof.
  intros Hv Ho. unfold Buffer.writeUInt32BE.
  destruct (Z.ltb_spec value 0); [lia|].
  destruct (Z.ltb_spec 4294967295 value); [lia|].
  destruct (Z.ltb_spec offset 0); [lia|].
  by destruct (Z.ltb_spec (Buffer.length b - 4) offset); [lia|].
Qed.

Lemma next_key_bytes s :
  ∃ k0 k1 k2 k3, next_key s = [k0; k1; k2; k3]
    ∧ k0 mod 256 = k0 ∧ k1 mod 256 = k1 ∧ k2 mod 256 = k2 ∧ k3 mod 256 = k3.
Proof.
  eexists _, _, _, _. split; [reflexivity|].
  repeat split; apply Z.mod_mod; lia.
Qed.

Lemma length_set b i v : Buffer.length (Buffer.set b i v) = Buffer.length b.
Proof.
  unfold Buffer.set, Buffer.length. destruct (i <? 0); [done|].
  by rewrite length_insert.
Qed.

Lemma concat_2 (a b : list Z) : Buffer.concat [a; b] = a ++ b.
Proof. unfold Buffer.concat. cbn. by rewrite app_nil_r. Qed.

Lemma createFrameBuffer_buffer s l payload o :
  heap s !! l = Some payload → length (mask s) = 4%nat →
  Buffer.length payload ≤ 4294967295 → data o = data_buffer l →
  Sender.createFrameBuffer o s =
    (framed l payload s,
     Normal (frame_header o (Buffer.length payload) (next_key s)
               ++ imap (masked_byte (next_key s)) payload)).
Proof.
  intros Hl Hm Hmax Hdata. destruct o as [d opc f r]. cbn in Hdata. subst d.
  set (o := {| data := data_buffer l; frame_opcode := opc; fin := f; rsv1 := r |}).
  assert (0 ≤ Buffer.length payload) as Hnn by (unfold Buffer.length; lia).
  unfold Sender.createFrameBuffer, frame_header, framed.
  cbn [data o Sender.data_length]. rewrite bind_read, Hl.
  cbn [default from_option id].
  destruct (next_key_bytes s) as (k0 & k1 & k2 & k3 & Hkey & Hk0 & Hk1 & Hk2 & Hk3).
  set (L := Buffer.length payload) in *.
  destruct (Z.leb_spec 65536 L) as [Hbig|Hbig];
    [|destruct (Z.ltb_spec 125 L) as [Hmid|Hsmall]].
  - change (Buffer.alloc (6 + 8)) with (Normal (replicate 14 0) : completion (list Z)).
    rewrite bind_lift. change (127 =? 126) with false. change (127 =? 127) with true.
    cbv iota.
    erewrite bind_Normal.
    2:{ erewrite bind_Normal. 
        2:{ unfold lift. rewrite writeUInt32BE_ok; [reflexivity|lia|].
            destruct f, r; cbn [fin rsv1 o]; rewrite !length_set; by vm_compute. }
        unfold lift. rewrite writeUInt32BE_ok; [reflexivity|lia|].
        destruct f, r; cbn [fin rsv1 o]; rewrite !length_set; by vm_compute. }
    erewrite bind_Normal by (by apply randomFillSync_mask).
    rewrite bind_read. cbn [mask set_mask].
    erewrite bind_Normal by (by apply applyMask_whole).
    rewrite bind_read. cbn [heap set_heap]. rewrite lookup_insert_eq.
    cbn [default from_option id]. unfold ret. f_equal. f_equal.
    rewrite Hkey. rewrite concat_2. clearbody L.
    destruct f, r; cbv -[Z.modulo Z.div js_or imap masked_byte Z.of_nat];
    rewrite ?Hk0, ?Hk1, ?Hk2, ?Hk3; repeat (f_equal; try done).
  - change (Buffer.alloc (6 + 2)) with (Normal (replicate 8 0) : completion (list Z)).
    rewrite bind_lift. change (126 =? 126) with true. cbv iota.
    erewrite bind_Normal.
    2:{ unfold lift. rewrite writeUInt16BE_ok; [reflexivity|lia|].
        destruct f, r; cbn [fin rsv1 o]; rewrite !length_set; by vm_compute. }
    erewrite bind_Normal by (by apply randomFillSync_mask).
    rewrite bind_read. cbn [mask set_mask].
    erewrite bind_Normal by (by apply applyMask_whole).
    rewrite bind_read. cbn [heap set_heap]. rewrite lookup_insert_eq.
    cbn [default from_option id]. unfold ret. f_equal. f_equal.
    rewrite Hkey. rewrite concat_2. clearbody L.
    destruct f, r; cbv -[Z.modulo Z.div js_or imap masked_byte Z.of_nat];
    rewrite ?Hk0, ?Hk1, ?Hk2, ?Hk3; repeat (f_equal; try done).
  - change (Buffer.alloc 6) with (Normal (replicate 6 0) : completion (list Z)).
    rewrite bind_lift.
    destruct (Z.eqb_spec L 126); [lia|]. destruct (Z.eqb_spec L 127); [lia|].
    rewrite bind_ret.
    erewrite bind_Normal by (by apply randomFillSync_mask).
    rewrite bind_read. cbn [mask set_mask].
    erewrite bind_Normal by (by apply applyMask_whole).
    rewrite bind_read. cbn [heap set_heap]. rewrite lookup_insert_eq.
    cbn [default from_option id]. unfold ret. f_equal. f_equal.
    rewrite Hkey. rewrite concat_2. clearbody L.
    destruct f, r; cbv -[Z.modulo Z.div js_or imap masked_byte Z.of_nat];
    rewrite ?Hk0, ?Hk1, ?Hk2, ?Hk3; repeat (f_equal; try done).
Qed.


Section preserves.
Context (R : relation WebSocket) `{!PreOrder R}.

Lemma preserves_ret {A} (a : A) : preserves R (ret a).
Proof. intros s. reflexivity. Qed.

Lemma preserves_throw {A} e : preserves R (throw (A := A) e).
Proof. intros s. reflexivity. Qed.

Lemma preserves_read {A} (f : WebSocket → A) : preserves R (read f).
Proof. intros s. reflexivity. Qed.

Lemma preserves_lift {A} (c : completion A) : preserves R (lift c).
Proof. intros s. reflexivity. Qed.

Lemma preserves_update f : (∀ s, R s (f s)) → preserves R (update f).
Proof. intros H s. apply H. Qed.

Lemma preserves_bind {A B} (m : M A) (k : A → M B) :
  preserves R m → (∀ a, preserves R (k a)) → preserves R (bind m k).
Proof.
  intros Hm Hk s. unfold state_after, bind.
  specialize (Hm s). unfold state_after in Hm.
  destruct (m s) as [s' [a|e]]; cbn in *; [|done].
  etrans; [exact Hm|]. apply Hk.
Qed.

Lemma preserves_when b m : preserves R m → preserves R (when b m).
Proof. intros H. destruct b; [done|]. apply preserves_ret. Qed.
End preserves.

Ltac preserve_step :=
  lazymatch goal with
  | |- preserves _ (ret _) => apply preserves_ret; apply _
  | |- preserves _ (throw _) => apply preserves_throw; apply _
  | |- preserves _ (read _) => apply preserves_read; apply _
  | |- preserves _ (lift _) => apply preserves_lift; apply _
  | |- preserves _ (bind _ _) => apply preserves_bind; [apply _| |intros ?]
  | |- preserves _ (when _ _) => apply preserves_when; [apply _|]
  | |- preserves _ (let _ := _ in _) => cbv zeta
  | |- preserves _ (match ?x with _ => _ end) => destruct x
  end.

Ltac preserve := repeat preserve_step.

Global Instance same_heap_except_preorder l' : PreOrder (same_heap_except l').
Proof.
  split.
  - by intros s l.
  - intros s1 s2 s3 H12 H23 l Hl. by rewrite H23, H12.
Qed.

Lemma applyMask_loop_other n : ∀ i source mask output offset h l,
  l ≠ output →
  applyMask_loop n i source mask output offset h !! l = h !! l.
Proof.
  induction n as [|n IH]; intros i source mask output offset h l Hl; [done|].
  cbn. rewrite IH by done. unfold store. by rewrite lookup_alter_ne.
Qed.

Lemma createFrameBuffer_heap_other l' opc f r :
  preserves (same_heap_except l')
    (Sender.createFrameBuffer
       {| data := data_buffer l'; frame_opcode := opc; fin := f; rsv1 := r |}).
Proof.
  unfold Sender.createFrameBuffer, Sender.data_length, randomFillSync, applyMask.
  cbn [data]. preserve.
  all: try (apply preserves_update; intros s l Hl; try done).
  all: try (by intros s l Hl).
  cbn. by apply applyMask_loop_other.
Qed.

Lemma next_key_is_bytes s : Buffer.is_bytes (next_key s).
Proof. repeat constructor; apply Z.mod_pos_bound; lia. Qed.

Lemma masked_is_mask_spec key payload :
  Buffer.is_bytes key → Buffer.is_bytes payload →
  imap (masked_byte key) payload = mask_spec key payload.
Proof.
  intros Hk Hp. apply imap_ext. intros i d Hi.
  apply masked_byte_spec; [done|]. exact (is_bytes_lookup _ _ _ Hp Hi).
Qed.

Lemma fresh_heap_ne (h : gmap nat (list Z)) l b :
  h !! l = Some b → l ≠ fresh (dom h).
Proof.
  intros Hl ->. apply (is_fresh (dom h)). apply elem_of_dom. eauto.
Qed.

Lemma bind_bind {A B C} (m : M A) (f : A → M B) (g : B → M C) s :
  bind (bind m f) g s = bind m (λ a, bind (f a) g) s.
Proof. unfold bind. by destruct (m s) as [s' [a|e]]. Qed.

Ltac run_m :=
  repeat (progress (rewrite ?bind_bind, ?bind_update, ?bind_ret, ?bind_read,
                      ?bind_lift; cbv beta iota)).

(** The test of [emitEvent] for the name of an event *)
Ltac emit_name :=
  repeat match goal with
         | |- context [String.eqb ?a ?b] =>
             let r := eval vm_compute in (String.eqb a b) in
             lazymatch r with
             | true => change (String.eqb a b) with true
             | false => change (String.eqb a b) with false
             end
         end; cbv iota.

(** A frame is built from the buffer [l] and handed to the socket *)
Lemma frame_and_send s l payload o cb :
  heap s !! l = Some payload → length (mask s) = 4%nat →
  Buffer.length payload ≤ 4294967295 → data o = data_buffer l →
  bind (Sender.createFrameBuffer o) (λ frame, Sender.sendFrame frame cb) s =
    (let frame := frame_header o (Buffer.length payload) (next_key s)
                    ++ imap (masked_byte (next_key s)) payload in
     let s' := framed l payload s in
     (set_pending (pending s' ++ [cb])
        (set_trace (trace s' ++ [SocketWrite frame]) s'), Normal tt)).
Proof.
  intros Hl Hm Hmax Hdata.
  erewrite bind_Normal by (by apply createFrameBuffer_buffer).
  reflexivity.
Qed.

Lemma sendFrame_heap {A} (m : M A) (k : A → list Z) cb s :
  heap (state_after (bind m (λ a, Sender.sendFrame (k a) cb)) s)
    = heap (state_after m s).
Proof. unfold state_after, bind. by destruct (m s) as [s' [a|e]]. Qed.

Lemma Sender_close_keeps_heap s l code reason cb :
  is_Some (heap s !! l) →
  heap (state_after (Sender.close code reason cb) s) !! l = heap s !! l.
Proof.
  intros [b Hl]. unfold Sender.close, state_after.
  destruct (Sender.close_data code reason) as [data|e]; [|done].
  unfold Sender.new_buffer. run_m.
  pose proof (fresh_heap_ne _ _ _ Hl) as Hne.
  set (l' := fresh (dom (heap s))) in *.
  change ((bind ?m ?k ?s).1) with (state_after (bind m k) s).
  rewrite (sendFrame_heap _ (λ frame, frame)).
  rewrite (createFrameBuffer_heap_other l' _ _ _ _ l Hne).
  cbn [heap set_heap]. by rewrite lookup_insert_ne.
Qed.

Global Instance same_heap_preorder : PreOrder same_heap.
Proof.
  split; [done|]. intros s1 s2 s3 H12 H23. unfold same_heap in *. congruence.
Qed.

Ltac preserve_heap :=
  preserve; try (apply preserves_update; intros ?; reflexivity).

Lemma emitClose_same_heap code msg : preserves same_heap (emitClose code msg).
Proof. unfold emitClose, emitEvent, perform. preserve_heap. Qed.

Lemma socket_close_same_heap : preserves same_heap socket_close.
Proof. unfold socket_close, perform. preserve_heap. Qed.

Lemma abortHandshake_same_heap msg : preserves same_heap (abortHandshake msg).
Proof.
  unfold abortHandshake. preserve_heap.
  all: first [apply socket_close_same_heap | apply emitClose_same_heap].
Qed.

Lemma closeSocket_same_heap code reason :
  preserves same_heap (closeSocket code reason).
Proof.
  unfold closeSocket. preserve_heap;
    first [apply socket_close_same_heap | apply emitClose_same_heap].
Qed.

Lemma close_keeps_heap s l code reason :
  is_Some (heap s !! l) →
  heap (state_after (close code reason) s) !! l = heap s !! l.
Proof.
  intros Hl. unfold close, state_after. rewrite bind_read.
  destruct (readyState s =? CLOSED); [done|].
  destruct (readyState s =? CONNECTING).
  { match goal with |- context [abortHandshake ?msg s] =>
      pose proof (abortHandshake_same_heap msg s) as H end.
    unfold same_heap, state_after in H. by rewrite H. }
  destruct (readyState s =? CLOSING).
  { run_m. destruct (_ && _); [|done]. cbn [when].
    pose proof (closeSocket_same_heap code reason s) as H.
    unfold same_heap, state_after in H. by rewrite H. }
  run_m. cbn [sender set_readyState]. destruct (sender s); [|done].
  change ((?m ?s).1) with (state_after m s).
  by rewrite Sender_close_keeps_heap.
Qed.

(** C9, as the code has it: [createFrameBuffer] masks the buffer it is
    given in place, so after [send] the buffer of the caller holds the
    XOR-masked bytes.  [pong] frames a copy ([Buffer.from]): the buffer of
    the caller keeps its bytes and the copy is masked.  [close] builds its
    payload itself and leaves every buffer of the caller alone. *)
Theorem createFrameBuffer_masks_in_place (s : WebSocket) (l : nat)
    (payload : list Z) :
  heap s !! l = Some payload → Buffer.is_bytes payload →
  Buffer.length payload ≤ 4294967295 → length (mask s) = 4%nat →
  let masked := mask_spec (next_key s) payload in
  (∀ opc f r,
     let o := {| data := data_buffer l; frame_opcode := opc; fin := f; rsv1 := r |} in
     outcome (Sender.createFrameBuffer o) s
       = Normal (frame_header o (Buffer.length payload) (next_key s) ++ masked)
     ∧ heap (state_after (Sender.createFrameBuffer o) s) !! l = Some masked)
  ∧ (readyState s = OPEN → sender s ≠ None →
     (∀ options cb,
        heap (step s (call_send (data_buffer l) options cb)) !! l = Some masked)
     ∧ (∀ m cb,
        let s' := step s (call_pong (data_buffer l) m cb) in
        heap s' !! l = Some payload
        ∧ heap s' !! fresh (dom (heap s)) = Some masked
        ∧ ∃ header, last (trace s') = Some (SocketWrite (header ++ masked))))
  ∧ (∀ code reason, heap (step s (call_close code reason)) !! l = Some payload).
Proof.
  intros Hl Hp Hmax Hm masked.
  pose proof (masked_is_mask_spec _ _ (next_key_is_bytes s) Hp) as Hmasked.
  fold masked in Hmasked.
  split; [|split].
  - intros opc f r o. unfold outcome, state_after.
    rewrite (createFrameBuffer_buffer s l payload o Hl Hm Hmax eq_refl).
    cbn [fst snd framed heap set_heap]. rewrite lookup_insert_eq.
    by rewrite Hmasked.
  - intros Hopen Hsender. split.
    + intros options cb. unfold step, state_after, handle, send.
      rewrite bind_read, Hopen. change (OPEN =? CONNECTING) with false.
      change (negb (OPEN =? OPEN)) with false. cbv iota.
      rewrite bind_read. destruct (sender s) as [ff|] eqn:Hs; [|done].
      unfold Sender.send.
      destruct ff, (default true (opt_fin options));
        cbn [when]; run_m;
        (erewrite frame_and_send; [|exact Hl|exact Hm|exact Hmax|reflexivity]);
        cbn [fst framed heap set_heap set_pending set_trace];
        by rewrite lookup_insert_eq, <- Hmasked.
    + intros m cb s'. subst s'. unfold step, state_after, handle, pong.
      rewrite bind_read, Hopen. change (OPEN =? CONNECTING) with false.
      change (negb (OPEN =? OPEN)) with false. cbv iota.
      rewrite bind_read. destruct (sender s) as [ff|] eqn:Hs; [|done].
      cbn [or_EMPTY_BUFFER]. rewrite bind_ret.
      unfold Sender.pong, Sender.buffer_from, Sender.new_buffer. run_m.
      cbn [heap]. rewrite Hl. cbn [default from_option id].
      pose proof (fresh_heap_ne _ _ _ Hl) as Hne.
      set (l' := fresh (dom (heap s))) in *.
      erewrite frame_and_send;
        [|apply lookup_insert_eq|exact Hm|exact Hmax|reflexivity].
      cbn [fst framed heap set_heap set_pending set_trace trace].
      rewrite lookup_insert_ne by done. rewrite lookup_insert_ne by done.
      rewrite lookup_insert_eq. split; [done|]. split.
      * f_equal. exact Hmasked.
      * eexists. rewrite last_snoc. do 2 f_equal. f_equal. exact Hmasked.
  - intros code reason. rewrite <- Hl. by apply close_keeps_heap.
Qed.

Lemma createFrameBuffer_masks_in_place_witness :
  heap example_open !! 0%nat = Some [1; 2; 3]
  ∧ Buffer.is_bytes [1; 2; 3]
  ∧ Buffer.length [1; 2; 3] ≤ 4294967295
  ∧ length (mask example_open) = 4%nat
  ∧ let s := example_open in
    let l := 0%nat in
    let payload := [1; 2; 3] in
    let masked := mask_spec (next_key s) payload in
    (∀ opc f r,
       let o := {| data := data_buffer l; frame_opcode := opc; fin := f; rsv1 := r |} in
       outcome (Sender.createFrameBuffer o) s
         = Normal (frame_header o (Buffer.length payload) (next_key s) ++ masked)
       ∧ heap (state_after (Sender.createFrameBuffer o) s) !! l = Some masked)
    ∧ (readyState s = OPEN → sender s ≠ None →
       (∀ options cb,
          heap (step s (call_send (data_buffer l) options cb)) !! l = Some masked)
       ∧ (∀ m cb,
          let s' := step s (call_pong (data_buffer l) m cb) in
          heap s' !! l = Some payload
          ∧ heap s' !! fresh (dom (heap s)) = Some masked
          ∧ ∃ header, last (trace s') = Some (SocketWrite (header ++ masked))))
    ∧ (∀ code reason, heap (step s (call_close code reason)) !! l = Some payload).
Proof.
  assert (heap example_open !! 0%nat = Some [1; 2; 3]) as H1 by (vm_compute; reflexivity).
  assert (Buffer.is_bytes [1; 2; 3]) as H2 by (repeat constructor; lia).
  assert (Buffer.length [1; 2; 3] ≤ 4294967295) as H3 by (vm_compute; discriminate).
  assert (length (mask example_open) = 4%nat) as H4 by (vm_compute; reflexivity).
  split; [exact H1|]. split; [exact H2|]. split; [exact H3|]. split; [exact H4|].
  exact (createFrameBuffer_masks_in_place example_open 0 [1; 2; 3] H1 H2 H3 H4).
Defined.

(** C9 as it is stated fails for [pong]: the buffer [[1; 2; 3]] of the
    caller still holds its bytes after the call, although the frame that
    went to the socket carries them masked with the key [[7; 8; 9; 10]] *)
Lemma pong_keeps_the_buffer_of_the_caller :
  let s' := step example_open (call_pong (data_buffer 0) None None) in
  heap example_open !! 0%nat = Some [1; 2; 3]
  ∧ heap s' !! 0%nat = Some [1; 2; 3]
  ∧ mask_spec (next_key example_open) [1; 2; 3] = [6; 10; 10]
  ∧ heap s' !! 0%nat ≠ Some (mask_spec (next_key example_open) [1; 2; 3])
  ∧ last (trace s') = Some (SocketWrite [138; 131; 7; 8; 9; 10; 6; 10; 10]).
Proof. vm_compute. repeat split; discriminate. Qed.

(** ** Reading the header of a built frame back *)

Lemma forallb_below (P : Z → bool) (n : nat) :
  forallb P (Z.of_nat <$> seq 0 n) = true → ∀ z, 0 ≤ z < Z.of_nat n → P z = true.
Proof.
  intros H z Hz. rewrite forallb_forall in H. apply H.
  apply list_elem_of_In, list_elem_of_fmap. exists (Z.to_nat z).
  split; [lia|]. apply elem_of_seq. lia.
Qed.

Lemma first_byte_fields opc :
  0 ≤ opc < 16 →
  let first := js_or (Some opc) (Some 0x80) mod 256 in
  ∀ rest, Frame.isFin (first :: rest) = true ∧ Frame.opcode (first :: rest) = opc.
Proof.
  intros Hopc first rest. subst first.
  pose proof (forallb_below
    (λ opc, let first := js_or (Some opc) (Some 0x80) mod 256 in
            Frame.isFin [first] && (Frame.opcode [first] =? opc)) 16 eq_refl opc Hopc) as H.
  cbv zeta in H. apply andb_true_iff in H as [H1 H2]. apply Z.eqb_eq in H2.
  split; [exact H1|exact H2].
Qed.

Lemma short_length_field L :
  0 ≤ L ≤ 125 →
  let second := js_or (Some (L mod 256)) (Some 0x80) mod 256 in
  ∀ first rest,
    Frame.isMasked (first :: second :: rest) = true
    ∧ Frame.payloadLength (first :: second :: rest) = L.
Proof.
  intros HL second first rest. subst second.
  pose proof (forallb_below
    (λ L, let second := js_or (Some (L mod 256)) (Some 0x80) mod 256 in
          Frame.isMasked [0; second] && (Frame.payloadLength [0; second] =? L))
    126 eq_refl L ltac:(lia)) as H.
  cbv zeta in H. apply andb_true_iff in H as [H1 H2]. apply Z.eqb_eq in H2.
  split; [exact H1|exact H2].
Qed.

Lemma lor_high_low hi lo :
  0 ≤ lo < 256 → Z.lor (hi * 256) lo = hi * 256 + lo.
Proof.
  intros Hlo.
  assert (Z.land (hi * 2 ^ 8) lo = 0) as Hland.
  { apply Z.bits_inj'. intros n Hn. rewrite Z.land_spec, Z.bits_0.
    destruct (Z.lt_ge_cases n 8) as [Hlt|Hge].
    - by rewrite Z.mul_pow2_bits_low.
    - destruct (decide (lo = 0)) as [->|Hne].
      + by rewrite Z.bits_0, andb_false_r.
      + rewrite (Z.bits_above_log2 lo n), andb_false_r; [done|lia|].
        apply Z.lt_le_trans with 8; [|done]. apply Z.log2_lt_pow2; lia. }
  change 256 with (2 ^ 8).
  rewrite (Z.add_nocarry_lxor _ _ Hland). symmetry. by apply Z.lxor_lor.
Qed.

Lemma extended_length_field L :
  0 ≤ L ≤ 65535 →
  ∀ first rest,
    let frame := first :: 254 :: (L / 256) mod 256 :: L mod 256 :: rest in
    Frame.isMasked frame = true ∧ Frame.payloadLength frame = 126
    ∧ Frame.payloadDataLength frame = L.
Proof.
  intros HL first rest frame. subst frame.
  split; [reflexivity|]. split; [reflexivity|].
  unfold Frame.payloadDataLength.
  change (Frame.payloadLength _ =? 126) with true. cbv iota.
  change (Buffer.get _ 2) with (Some ((L / 256) mod 256)).
  change (Buffer.get _ 3) with (Some (L mod 256)).
  assert (0 ≤ L / 256 < 256) as Hhi by (Z.div_mod_to_equations; lia).
  assert (0 ≤ L mod 256 < 256) as Hlo by (apply Z.mod_pos_bound; lia).
  rewrite (Z.mod_small (L / 256)) by done.
  unfold js_or, js_shl, js_and.
  rewrite (toInt32_byte (L / 256)), (toInt32_byte (L mod 256)) by done.
  rewrite Z.shiftl_mul_pow2 by lia. change (2 ^ 8) with 256.
  unfold toInt32. cbn [default from_option id].
  rewrite (int32_small (L / 256 * 256)) by lia.
  rewrite (int32_small (L / 256 * 256)) by lia.
  change (int32 65535) with (Z.ones 16). rewrite Z.land_ones by lia.
  rewrite (Z.mod_small (L mod 256)) by (change (2 ^ 16) with 65536; lia).
  rewrite (int32_byte (L mod 256)) by done.
  rewrite lor_high_low by done. Z.div_mod_to_equations. lia.
Qed.

Lemma long_length_field L :
  0 ≤ L ≤ 4294967295 →
  ∀ first rest,
    let frame := first :: 255 :: 0 :: 0 :: 0 :: 0 :: (L / 16777216) mod 256
                   :: (L / 65536) mod 256 :: (L / 256) mod 256 :: L mod 256 :: rest in
    Frame.isMasked frame = true ∧ Frame.payloadLength frame = 127
    ∧ be_uint (take 8 (drop 2 frame)) = L.
Proof.
  intros HL first rest frame. subst frame.
  split; [reflexivity|]. split; [reflexivity|].
  cbn [drop take]. unfold be_uint. cbn [foldl]. rewrite take_0. cbn [foldl].
  Z.div_mod_to_equations. lia.
Qed.

Lemma mask_spec_twice key data : mask_spec key (mask_spec key data) = data.
Proof.
  unfold mask_spec. apply list_eq. intros i. rewrite !list_lookup_imap.
  destruct (data !! i) as [d|]; [|done]. cbn. f_equal.
  by rewrite Z.lxor_assoc, Z.lxor_nilpotent, Z.lxor_0_r.
Qed.

(** ** Masked frames are refused *)

Lemma processDataFrame_masked buffer s :
  Frame.isMasked buffer = true →
  processDataFrame buffer s =
    (disconnectAndEmitError (Error "Received masked data from server")
       (Some CloseCode.protocolError);;
     ret js_undefined) s.
Proof. intros H. unfold processDataFrame. rewrite bind_read, H. reflexivity. Qed.

(** C1, as the code has it: for every opcode (text, binary, close, ping
    and pong among them), every payload of bytes, whatever its length
    class (0, 1, 125, 126, 65535, 65537, ...), and any mask key, the frame
    that [createFrameBuffer] builds with [fin = true] carries FIN, the
    opcode, the MASK bit and the payload length in its header, the key
    behind the header, and behind the key the payload XOR-ed with the key,
    so that masking these bytes with the key again gives the payload.
    [processDataFrame] does not decode this frame: it refuses every frame
    whose MASK bit is set. *)
Theorem encoded_frame_fields (s : WebSocket) (l : nat) (payload : list Z) (opc : Z) :
  heap s !! l = Some payload → Buffer.is_bytes payload →
  Buffer.length payload ≤ 4294967295 → length (mask s) = 4%nat →
  0 ≤ opc < 16 →
  let o := {| data := data_buffer l; frame_opcode := opc; fin := true; rsv1 := false |} in
  let key := next_key s in
  ∃ frame,
    outcome (Sender.createFrameBuffer o) s = Normal frame
    ∧ Frame.isFin frame = true
    ∧ Frame.opcode frame = opc
    ∧ Frame.isMasked frame = true
    ∧ wire_length frame = Buffer.length payload
    ∧ take 4 (drop (wire_offset frame) frame) = key
    ∧ mask_spec key (drop (wire_offset frame + 4) frame) = payload
    ∧ ∀ s', processDataFrame frame s' =
        (disconnectAndEmitError (Error "Received masked data from server")
           (Some CloseCode.protocolError);;
         ret js_undefined) s'.
Proof.
  intros Hl Hp Hmax Hm Hopc o key.
  assert (0 ≤ Buffer.length payload) as Hnn by (unfold Buffer.length; lia).
  eexists. split.
  { unfold outcome. by rewrite (createFrameBuffer_buffer s l payload o Hl Hm Hmax eq_refl). }
  rewrite (masked_is_mask_spec _ _ (next_key_is_bytes s) Hp). fold key.
  assert (∃ k0 k1 k2 k3, key = [k0; k1; k2; k3]) as (k0 & k1 & k2 & k3 & Hkey)
    by (by eexists _, _, _, _).
  rewrite Hkey. unfold frame_header. cbn [fin rsv1 frame_opcode o].
  set (L := Buffer.length payload) in *.
  set (first := js_or (Some opc) (Some 128) mod 256).
  set (masked := mask_spec [k0; k1; k2; k3] payload).
  assert (mask_spec [k0; k1; k2; k3] masked = payload) as Hback
    by apply mask_spec_twice.
  destruct (Z.leb_spec 65536 L) as [Hbig|Hbig];
    [|destruct (Z.ltb_spec 125 L) as [Hmid|Hsmall]]; cbn [app].
  - destruct (first_byte_fields opc Hopc
      (255 :: 0 :: 0 :: 0 :: 0 :: (L / 16777216) mod 256 :: (L / 65536) mod 256
         :: (L / 256) mod 256 :: L mod 256 :: k0 :: k1 :: k2 :: k3 :: masked))
      as [Hfin Hopcode].
    destruct (long_length_field L ltac:(lia) first (k0 :: k1 :: k2 :: k3 :: masked))
      as (Hmasked & Hlen & Hbe).
    fold first in Hfin, Hopcode.
    unfold wire_length, wire_offset. rewrite Hlen. cbn [Z.eqb Pos.eqb].
    repeat split; try done; intros s'; by apply processDataFrame_masked.
  - destruct (first_byte_fields opc Hopc
      (254 :: (L / 256) mod 256 :: L mod 256 :: k0 :: k1 :: k2 :: k3 :: masked))
      as [Hfin Hopcode].
    destruct (extended_length_field L ltac:(lia) first (k0 :: k1 :: k2 :: k3 :: masked))
      as (Hmasked & Hlen & Hdata).
    fold first in Hfin, Hopcode.
    unfold wire_length, wire_offset. rewrite Hlen. cbn [Z.eqb Pos.eqb].
    repeat split; try done; intros s'; by apply processDataFrame_masked.
  - destruct (first_byte_fields opc Hopc
      (js_or (Some (L mod 256)) (Some 128) mod 256 :: k0 :: k1 :: k2 :: k3 :: masked))
      as [Hfin Hopcode].
    destruct (short_length_field L ltac:(lia) first (k0 :: k1 :: k2 :: k3 :: masked))
      as (Hmasked & Hlen).
    fold first in Hfin, Hopcode.
    unfold wire_length, wire_offset, Frame.payloadDataLength. rewrite Hlen.
    destruct (Z.eqb_spec L 127); [lia|]. destruct (Z.eqb_spec L 126); [lia|].
    repeat split; try done; intros s'; by apply processDataFrame_masked.
Qed.

Global Instance no_dispatch_preorder : PreOrder no_dispatch.
Proof.
  split.
  - intros s. split; [done|]. exists []. by rewrite app_nil_r.
  - intros s1 s2 s3 [Hr12 (e12 & Ht12 & He12)] [Hr23 (e23 & Ht23 & He23)].
    split; [congruence|]. exists (e12 ++ e23).
    split; [by rewrite Ht23, Ht12, app_assoc|]. by apply Forall_app.
Qed.

Lemma no_dispatch_update f :
  (∀ s, responseStack (f s) = responseStack s) → (∀ s, trace (f s) = trace s) →
  preserves no_dispatch (update f).
Proof.
  intros Hr Ht. apply preserves_update. intros s. split; [apply Hr|].
  exists []. by rewrite app_nil_r, Ht.
Qed.

Lemma no_dispatch_perform e :
  (∀ name d, e = Emit name d → name = "close") →
  preserves no_dispatch (perform e).
Proof.
  intros He. apply preserves_update. intros s. split; [done|].
  exists [e]. split; [done|]. by constructor.
Qed.

Ltac preserve_no_dispatch :=
  preserve;
  try (apply no_dispatch_update; intros ?; reflexivity);
  try (apply no_dispatch_perform; intros ? ? [=]; done).

Lemma createFrameBuffer_no_dispatch o :
  preserves no_dispatch (Sender.createFrameBuffer o).
Proof.
  unfold Sender.createFrameBuffer, Sender.data_length, randomFillSync, applyMask.
  preserve_no_dispatch.
Qed.

Lemma Sender_close_no_dispatch code reason cb :
  preserves no_dispatch (Sender.close code reason cb).
Proof.
  unfold Sender.close, Sender.new_buffer, Sender.sendFrame.
  preserve_no_dispatch. apply createFrameBuffer_no_dispatch.
Qed.

Lemma emitClose_no_dispatch code msg : preserves no_dispatch (emitClose code msg).
Proof. unfold emitClose, emitEvent. preserve_no_dispatch. Qed.

Lemma socket_close_no_dispatch : preserves no_dispatch socket_close.
Proof. unfold socket_close. preserve_no_dispatch. Qed.

Lemma closeSocket_no_dispatch code reason :
  preserves no_dispatch (closeSocket code reason).
Proof.
  unfold closeSocket. preserve_no_dispatch;
    first [apply socket_close_no_dispatch | apply emitClose_no_dispatch].
Qed.

Lemma close_no_dispatch code reason : preserves no_dispatch (close code reason).
Proof.
  unfold close, abortHandshake. preserve_no_dispatch;
    first [apply socket_close_no_dispatch | apply emitClose_no_dispatch
          | apply closeSocket_no_dispatch | apply Sender_close_no_dispatch].
Qed.

Lemma isMasked_testbit (buffer : list Z) b1 :
  buffer !! 1%nat = Some b1 → 0 ≤ b1 < 256 →
  Frame.isMasked buffer = Z.testbit b1 7.
Proof.
  intros Hb Hr. unfold Frame.isMasked. change 1 with (Z.of_nat 1).
  rewrite get_of_nat, Hb.
  pose proof (forallb_below
    (λ b, Bool.eqb (negb (js_and (Some MaskMask) (Some b) =? 0)) (Z.testbit b 7))
    256 eq_refl b1 Hr) as H.
  by apply Bool.eqb_prop in H.
Qed.

Lemma bind_ret_state {A B} (m : M A) (b : B) s :
  (bind m (λ _, ret b) s).1 = state_after m s.
Proof. unfold state_after, bind. by destruct (m s) as [? [?|?]]. Qed.

(** [Sender.close] when the payload can be built *)
Lemma Sender_close_sends s code reason cb payload :
  Sender.close_data code reason = Normal payload →
  Buffer.length payload ≤ 4294967295 → length (mask s) = 4%nat →
  Sender.close code reason cb s =
    (let l := fresh (dom (heap s)) in
     let o := {| data := data_buffer l; frame_opcode := OpcodeConnectionClose;
                 fin := true; rsv1 := false |} in
     let s1 := set_heap (<[l := payload]> (heap s)) s in
     let s2 := framed l payload s1 in
     (set_pending (pending s ++ [cb])
        (set_trace (trace s ++ [SocketWrite
           (frame_header o (Buffer.length payload) (next_key s)
              ++ imap (masked_byte (next_key s)) payload)]) s2), Normal tt)).
Proof.
  intros Hdata Hmax Hm. unfold Sender.close. rewrite Hdata.
  unfold Sender.new_buffer. run_m.
  erewrite frame_and_send;
    [reflexivity|apply lookup_insert_eq|exact Hm|exact Hmax|reflexivity].
Qed.

(** The ['error'] event with and without a listener *)
Lemma emitEvent_error e s :
  emitEvent "error" e s =
    (set_trace (trace s ++ [Emit "error" e]) s,
     if bool_decide ("error" ∈ listeners s) then Normal tt else Throw (unhandled e)).
Proof.
  unfold emitEvent, perform. change (String.eqb "error" "error") with true.
  cbv iota. run_m. change (listeners (set_trace _ s)) with (listeners s).
  by destruct (bool_decide ("error" ∈ listeners s)).
Qed.

Lemma disconnectAndEmitError_unheard error closeCode s :
  "error" ∉ listeners s →
  disconnectAndEmitError error closeCode s =
    (set_trace (trace s ++ [Emit "error" (ev_error error)]) s, Throw error).
Proof.
  intros H. unfold disconnectAndEmitError, bind at 1.
  by rewrite emitEvent_error, bool_decide_eq_false_2.
Qed.

Lemma disconnectAndEmitError_heard error closeCode s :
  "error" ∈ listeners s →
  disconnectAndEmitError error closeCode s =
    close (Some (match closeCode with
                 | Some c => if c =? 0 then CloseCode.abnormal else c
                 | None => CloseCode.abnormal
                 end))
          (Some (message error))
          (set_trace (trace s ++ [Emit "error" (ev_error error)]) s).
Proof.
  intros H. unfold disconnectAndEmitError, bind at 1.
  by rewrite emitEvent_error, bool_decide_eq_true_2.
Qed.

(** C3, as the code has it: for every inbound frame whose MASK bit (bit 7
    of byte 1) is set, [processDataFrame] stops at its first guard with
    the protocol error: it raises ['error'] with [Received masked data
    from server]; the response stack is left as it was and nothing but a
    ['close'] event can follow the error, so the payload is neither
    unmasked nor dispatched.  What becomes of the connection depends on
    it.  When nobody listens to ['error'], [emit] throws the error and
    [close] is not called: the connection stays as it was.  With a
    listener [close(1002, ...)] is called: an open connection sends the
    close frame with status 1002 and moves to CLOSING; a connection that
    is CLOSED, or CLOSING with its close handshake not complete, does
    nothing more. *)
Theorem masked_frame_is_rejected (s : WebSocket) (buffer : list Z) (b1 : Z) :
  buffer !! 1%nat = Some b1 → 0 ≤ b1 < 256 → Z.testbit b1 7 = true →
  let error := Error "Received masked data from server" in
  let s' := state_after (processDataFrame buffer) s in
  let reported := set_trace (trace s ++ [Emit "error" (ev_error error)]) s in
  processDataFrame buffer s =
    (disconnectAndEmitError error (Some 1002);; ret js_undefined) s
  ∧ responseStack s' = responseStack s
  ∧ (∃ effects,
       trace s' = trace s ++ Emit "error" (ev_error error) :: effects
       ∧ Forall (λ e, ∀ name d, e = Emit name d → name = "close") effects)
  ∧ ("error" ∉ listeners s → processDataFrame buffer s = (reported, Throw error))
  ∧ ("error" ∈ listeners s → readyState s = OPEN → sender s ≠ None →
     length (mask s) = 4%nat →
     let o := {| data := data_buffer (fresh (dom (heap s)));
                 frame_opcode := OpcodeConnectionClose; fin := true; rsv1 := false |} in
     outcome (processDataFrame buffer) s = Normal js_undefined
     ∧ readyState s' = CLOSING
     ∧ trace s' = trace s ++
         [Emit "error" (ev_error error);
          SocketWrite (frame_header o 34 (next_key s)
                         ++ mask_spec (next_key s) masked_data_close_payload)]
     ∧ pending s' = pending s ++
         [cb_closeFrameSent (Some 1002) (Some "Received masked data from server")])
  ∧ ("error" ∈ listeners s →
     readyState s = CLOSED
     ∨ readyState s = CLOSING ∧ closeFrameSent s && closeFrameReceived s = false →
     processDataFrame buffer s = (reported, Normal js_undefined)).
Proof.
  intros Hb Hr Hbit error s' reported.
  assert (Frame.isMasked buffer = true) as Hmasked
    by (by rewrite (isMasked_testbit buffer b1)).
  pose proof (processDataFrame_masked buffer s Hmasked) as Heq.
  split; [exact Heq|]. subst s'. unfold state_after, outcome. rewrite Heq. clear Heq.
  change (Error "Received masked data from server") with error.
  set (msg := "Received masked data from server").
  assert (∀ heard : "error" ∈ listeners s,
    (disconnectAndEmitError error (Some CloseCode.protocolError);;
     ret js_undefined) s
    = (close (Some 1002) (Some msg);; ret js_undefined) reported) as Hheard.
  { intros heard. unfold bind at 1.
    rewrite (disconnectAndEmitError_heard _ _ _ heard). reflexivity. }
  assert (∀ unheard : "error" ∉ listeners s,
    (disconnectAndEmitError error (Some CloseCode.protocolError);;
     ret js_undefined) s
    = (reported, Throw error)) as Hunheard.
  { intros unheard. unfold bind at 1.
    by rewrite (disconnectAndEmitError_unheard _ _ _ unheard). }
  split; [|split; [|split; [exact Hunheard|split]]].
  - destruct (decide ("error" ∈ listeners s)) as [heard|unheard].
    + rewrite (Hheard heard), bind_ret_state.
      by destruct (close_no_dispatch (Some 1002) (Some msg) reported) as [-> _].
    + by rewrite (Hunheard unheard).
  - destruct (decide ("error" ∈ listeners s)) as [heard|unheard].
    + rewrite (Hheard heard), bind_ret_state.
      destruct (close_no_dispatch (Some 1002) (Some msg) reported)
        as [_ (effects & Ht & He)].
      exists effects. split; [|done].
      rewrite Ht. cbn [reported trace set_trace]. by rewrite <- app_assoc.
    + rewrite (Hunheard unheard). exists []. by split.
  - intros heard Hopen Hsender Hm. cbv zeta. rewrite (Hheard heard).
    unfold close. rewrite bind_bind, bind_read.
    cbn [reported readyState set_trace]. rewrite Hopen.
    change (OPEN =? CLOSED) with false. change (OPEN =? CONNECTING) with false.
    change (OPEN =? CLOSING) with false. cbv iota. run_m.
    change (sender (set_readyState CLOSING reported)) with (sender s).
    destruct (sender s) as [ff|]; [|done].
    erewrite bind_Normal by
      (by apply (Sender_close_sends _ (Some 1002) (Some msg) _
                   masked_data_close_payload); [vm_compute|vm_compute|exact Hm]).
    cbn [fst snd readyState set_pending set_trace set_heap framed set_mask set_drawn
         trace pending ret].
    split; [reflexivity|]. split; [reflexivity|]. split; [|reflexivity].
    change (trace (set_readyState CLOSING reported))
      with (trace s ++ [Emit "error" (ev_error error)]).
    rewrite <- app_assoc. cbn [app].
    change (next_key (set_readyState CLOSING reported)) with (next_key s).
    rewrite (masked_is_mask_spec (next_key s) masked_data_close_payload);
      [reflexivity|apply next_key_is_bytes|].
    apply is_bytesb_spec. by vm_compute.
  - intros heard Hstate. rewrite (Hheard heard).
    unfold close. rewrite bind_bind, bind_read.
    cbn [reported readyState set_trace].
    destruct Hstate as [->|[-> Hflags]].
    + reflexivity.
    + change (CLOSING =? CLOSED) with false. change (CLOSING =? CONNECTING) with false.
      change (CLOSING =? CLOSING) with true. cbv iota. run_m.
      change (closeFrameSent reported) with (closeFrameSent s).
      change (closeFrameReceived reported) with (closeFrameReceived s).
      by rewrite Hflags.
Qed.

Lemma encoded_frame_fields_witness :
  heap example_open !! 0%nat = Some [1; 2; 3]
  ∧ Buffer.is_bytes [1; 2; 3]
  ∧ Buffer.length [1; 2; 3] ≤ 4294967295
  ∧ length (mask example_open) = 4%nat
  ∧ 0 ≤ OpcodeTextFrame < 16
  ∧ let s := example_open in
    let o := {| data := data_buffer 0; frame_opcode := OpcodeTextFrame;
                fin := true; rsv1 := false |} in
    let key := next_key s in
    ∃ frame,
      outcome (Sender.createFrameBuffer o) s = Normal frame
      ∧ Frame.isFin frame = true
      ∧ Frame.opcode frame = OpcodeTextFrame
      ∧ Frame.isMasked frame = true
      ∧ wire_length frame = Buffer.length [1; 2; 3]
      ∧ take 4 (drop (wire_offset frame) frame) = key
      ∧ mask_spec key (drop (wire_offset frame + 4) frame) = [1; 2; 3]
      ∧ ∀ s', processDataFrame frame s' =
          (disconnectAndEmitError (Error "Received masked data from server")
             (Some CloseCode.protocolError);;
           ret js_undefined) s'.
Proof.
  assert (heap example_open !! 0%nat = Some [1; 2; 3]) as H1 by (vm_compute; reflexivity).
  assert (Buffer.is_bytes [1; 2; 3]) as H2 by (repeat constructor; lia).
  assert (Buffer.length [1; 2; 3] ≤ 4294967295) as H3 by (vm_compute; discriminate).
  assert (length (mask example_open) = 4%nat) as H4 by (vm_compute; reflexivity).
  assert (0 ≤ OpcodeTextFrame < 16) as H5 by (unfold OpcodeTextFrame; lia).
  split; [exact H1|]. split; [exact H2|]. split; [exact H3|]. split; [exact H4|].
  split; [exact H5|].
  exact (encoded_frame_fields example_open 0 [1; 2; 3] OpcodeTextFrame H1 H2 H3 H4 H5).
Defined.

(** C1 as it is stated fails: the text frame that [createFrameBuffer]
    builds from the payload [[1; 2; 3]] with [fin = true] is not decoded by
    [processDataFrame].  No response is opened and no message is
    dispatched; the connection reports an error and sends a close frame. *)
Lemma encoded_frame_is_not_decoded :
  let o := {| data := data_buffer 0; frame_opcode := OpcodeTextFrame;
              fin := true; rsv1 := false |} in
  let s := state_after (Sender.createFrameBuffer o) example_open in
  let s' := state_after (processDataFrame [129; 131; 7; 8; 9; 10; 6; 10; 10]) s in
  outcome (Sender.createFrameBuffer o) example_open
    = Normal [129; 131; 7; 8; 9; 10; 6; 10; 10]
  ∧ outcome (processDataFrame [129; 131; 7; 8; 9; 10; 6; 10; 10]) s
    = Normal js_undefined
  ∧ responseStack s' = []
  ∧ drop (length (trace s)) (trace s') =
      [Emit "error" (ev_error (Error "Received masked data from server"));
       SocketWrite
         [136; 162; 11; 12; 13; 14; 8; 230; 95; 107; 104; 105; 100; 120;
          110; 104; 45; 99; 106; 127; 102; 107; 111; 44; 105; 111; 127;
          109; 45; 104; 121; 99; 96; 46; 120; 105; 127; 120; 110; 126]].
Proof. vm_compute. repeat split. Qed.

Lemma masked_frame_is_rejected_witness :
  [0x81; 0x81; 104] !! 1%nat = Some 0x81
  ∧ 0 ≤ 0x81 < 256
  ∧ Z.testbit 0x81 7 = true
  ∧ let s := example_open in
    let buffer := [0x81; 0x81; 104] in
    let error := Error "Received masked data from server" in
    let s' := state_after (processDataFrame buffer) s in
    let reported := set_trace (trace s ++ [Emit "error" (ev_error error)]) s in
    processDataFrame buffer s =
      (disconnectAndEmitError error (Some 1002);; ret js_undefined) s
    ∧ responseStack s' = responseStack s
    ∧ (∃ effects,
         trace s' = trace s ++ Emit "error" (ev_error error) :: effects
         ∧ Forall (λ e, ∀ name d, e = Emit name d → name = "close") effects)
    ∧ ("error" ∉ listeners s → processDataFrame buffer s = (reported, Throw error))
    ∧ ("error" ∈ listeners s → readyState s = OPEN → sender s ≠ None →
       length (mask s) = 4%nat →
       let o := {| data := data_buffer (fresh (dom (heap s)));
                   frame_opcode := OpcodeConnectionClose; fin := true;
                   rsv1 := false |} in
       outcome (processDataFrame buffer) s = Normal js_undefined
       ∧ readyState s' = CLOSING
       ∧ trace s' = trace s ++
           [Emit "error" (ev_error error);
            SocketWrite (frame_header o 34 (next_key s)
                           ++ mask_spec (next_key s) masked_data_close_payload)]
       ∧ pending s' = pending s ++
           [cb_closeFrameSent (Some 1002) (Some "Received masked data from server")])
    ∧ ("error" ∈ listeners s →
       readyState s = CLOSED
       ∨ readyState s = CLOSING ∧ closeFrameSent s && closeFrameReceived s = false →
       processDataFrame buffer s = (reported, Normal js_undefined)).
Proof.
  assert (0 ≤ 0x81 < 256) as H2 by lia.
  split; [reflexivity|]. split; [exact H2|]. split; [reflexivity|].
  exact (masked_frame_is_rejected example_open [0x81; 0x81; 104] 0x81
           eq_refl H2 eq_refl).
Defined.

(** C3 as it is stated fails.  On a connection that is CLOSING because the
    application has called [close(1000)], a masked frame raises ['error']
    and nothing else: no close frame with status 1002 is sent.  On an open
    connection without a listener for ['error'] the error is thrown out of
    the pump callback and the connection stays OPEN. *)
Lemma masked_frame_does_not_close_with_1002 :
  let error := Error "Received masked data from server" in
  let closing := step example_open (call_close (Some 1000) None) in
  let unheard := run example_new
    [socket_connected; pump (pump_data example_handshake_response)] in
  let masked := pump (pump_data [0x81; 0x81; 104]) in
  (readyState closing = CLOSING
   ∧ handle masked closing
     = (set_trace (trace closing ++ [Emit "error" (ev_error error)]) closing,
        Throw (TypeError "Cannot read property 'length' of undefined")))
  ∧ (readyState unheard = OPEN
     ∧ handle masked unheard
       = (set_trace (trace unheard ++ [Emit "error" (ev_error error)]) unheard,
          Throw error)).
Proof. vm_compute. repeat split. Qed.

(** ** Close frames *)


Lemma closeCode_one_byte b s :
  closeCode_and_closeReason [b] s = (s, Throw (RangeError "Invalid payload length 1")).
Proof. reflexivity. Qed.


(** ** Decoding a complete frame *)

Lemma toInt32_get_byte (buffer : list Z) i :
  Buffer.is_bytes buffer → 0 ≤ toInt32 (Buffer.get buffer i) < 256.
Proof.
  intros Hb. unfold Buffer.get. destruct (i <? 0); [by vm_compute|].
  destruct (buffer !! Z.to_nat i) as [v|] eqn:Hv; [|by vm_compute].
  pose proof (is_bytes_lookup _ _ _ Hb Hv). by rewrite toInt32_byte.
Qed.

Lemma payloadLength_range (buffer : list Z) :
  Buffer.is_bytes buffer → 0 ≤ Frame.payloadLength buffer ≤ 127.
Proof.
  intros Hb. unfold Frame.payloadLength, js_and.
  pose proof (toInt32_get_byte buffer 1 Hb) as Hv.
  change (toInt32 (Some PayloadLengthMask)) with (Z.ones 7).
  rewrite Z.land_comm, Z.land_ones by lia.
  pose proof (Z.mod_pos_bound (toInt32 (Buffer.get buffer 1)) (2 ^ 7)). lia.
Qed.

Lemma payloadDataLength_126 (buffer : list Z) :
  Buffer.is_bytes buffer → Frame.payloadLength buffer = 126 →
  Frame.payloadDataLength buffer
    = toInt32 (Buffer.get buffer 2) * 256 + toInt32 (Buffer.get buffer 3).
Proof.
  intros Hb H126. unfold Frame.payloadDataLength. rewrite H126.
  change (126 =? 126) with true. cbv iota.
  pose proof (toInt32_get_byte buffer 2 Hb) as H2.
  pose proof (toInt32_get_byte buffer 3 Hb) as H3.
  unfold js_or, js_shl, js_and.
  rewrite Z.shiftl_mul_pow2 by lia. change (2 ^ 8) with 256.
  change (toInt32 (Some 65535)) with (Z.ones 16). rewrite Z.land_ones by lia.
  rewrite (Z.mod_small (toInt32 (Buffer.get buffer 3)))
    by (change (2 ^ 16) with 65536; lia).
  unfold toInt32 at 1 3. cbn [default from_option id].
  rewrite (int32_small (_ * 256)) by lia.
  rewrite (int32_small (_ * 256)) by lia.
  rewrite (int32_byte (toInt32 _)) by done.
  by apply lor_high_low.
Qed.

Lemma payloadDataLength_nonneg (buffer : list Z) :
  Buffer.is_bytes buffer → 0 ≤ Frame.payloadDataLength buffer.
Proof.
  intros Hb. destruct (decide (Frame.payloadLength buffer = 126)) as [H126|Hne].
  - rewrite payloadDataLength_126 by done.
    pose proof (toInt32_get_byte buffer 2 Hb).
    pose proof (toInt32_get_byte buffer 3 Hb). lia.
  - unfold Frame.payloadDataLength.
    destruct (Z.eqb_spec (Frame.payloadLength buffer) 126); [done|].
    by apply payloadLength_range.
Qed.

(** Copying [n] bytes that are there into a fresh buffer of [n] bytes *)
Lemma copy_range (source : list Z) (start n : Z) :
  0 ≤ start → 0 ≤ n → start + n ≤ Buffer.length source →
  Buffer.copy source (replicate (Z.to_nat n) 0) 0 start (start + n)
    = Normal (take (Z.to_nat n) (drop (Z.to_nat start) source), n).
Proof.
  intros Hs Hn Hlen. unfold Buffer.copy, Buffer.length in *.
  rewrite !length_replicate. rewrite !Z2Nat.id by done.
  destruct (decide (n = 0)) as [->|Hne].
  { change (0 <=? 0) with true. cbn [orb]. by rewrite take_0. }
  destruct (Z.leb_spec n 0); [lia|]. destruct (Z.leb_spec (start + n) start); [lia|].
  cbn [orb]. destruct (Z.ltb_spec (Z.of_nat (length source)) start); [lia|].
  rewrite (Z.min_l (start + n)) by lia.
  replace (start + n - start) with n by lia.
  rewrite Z.sub_0_r, Z.min_id, Z.add_0_l. change (Z.to_nat 0) with 0%nat.
  rewrite take_0. cbn [app].
  rewrite (drop_ge (replicate _ _)); [by rewrite app_nil_r|].
  rewrite length_replicate. lia.
Qed.

(** The rest of a buffer, copied to the end *)
Lemma copy_rest (source : list Z) (start : Z) :
  0 ≤ start ≤ Buffer.length source →
  ∃ bytes,
    Buffer.copy source (replicate (Z.to_nat (Buffer.length source - start)) 0)
      0 start (Buffer.length source)
      = Normal (bytes, Buffer.length source - start).
Proof.
  intros Hs.
  pose proof (copy_range source start (Buffer.length source - start)
                ltac:(lia) ltac:(lia) ltac:(lia)) as H.
  replace (start + (Buffer.length source - start)) with (Buffer.length source)
    in H by lia.
  by eexists.
Qed.

(** A frame that is complete in the buffer, while no message is open: a
    response is created for it and processed *)
Lemma processDataFrame_new (s : WebSocket) (buffer : list Z) :
  responseStack s = [] → Buffer.is_bytes buffer →
  Frame.isMasked buffer = false →
  Frame.isControlFrame buffer && negb (Frame.isFin buffer) = false →
  Frame.payloadLength buffer ≠ 127 →
  Frame.payloadDataOffset buffer + Frame.payloadDataLength buffer
    ≤ Buffer.length buffer →
  let response :=
    {| isFin := Frame.isFin buffer; opcode := Frame.opcode buffer;
       bytesLeft := 0; frameCount := 1; buffer := frame_payload buffer |} in
  processDataFrame buffer s =
    (update (set_responseStack [response]);;
     processResponse response;;
     ret (js_number (Buffer.length buffer - Frame.payloadDataOffset buffer
                      - Frame.payloadDataLength buffer))) s.
Proof.
  intros Hstack Hb Hmasked Hcontrol H127 Hcomplete response.
  pose proof (payloadDataLength_nonneg buffer Hb) as Hlen.
  assert (2 ≤ Frame.payloadDataOffset buffer) as Hoff
    by (unfold Frame.payloadDataOffset; destruct (_ =? _); lia).
  unfold processDataFrame. rewrite bind_read, Hstack, Hmasked, Hcontrol.
  change (ResponseStack.last []) with (@None WebSocketResponse). cbv iota.
  destruct (Z.eqb_spec (Frame.payloadLength buffer) 127); [done|].
  unfold Buffer.alloc at 1.
  destruct (Z.ltb_spec (Frame.payloadDataLength buffer) 0); [lia|].
  rewrite bind_lift. rewrite copy_range by lia. rewrite bind_lift.
  cbn [fst]. fold (frame_payload buffer).
  unfold Frame.framePayloadDataLength.
  destruct (Z.ltb_spec (Buffer.length buffer) (Frame.payloadDataLength buffer)); [lia|].
  rewrite Z.sub_diag, Z.add_0_l.
  rewrite bind_bind, bind_update.
  cbn [responseStack set_responseStack]. rewrite Hstack.
  cbn [ResponseStack.push app]. rewrite bind_ret. fold response.
  rewrite (bind_update _ _ s).
  unfold bind at 1. unfold bind at 3.
  destruct (processResponse response _) as [s' [[]|e]]; [|done].
  unfold Buffer.alloc.
  destruct (Z.ltb_spec (Buffer.length buffer - (Frame.payloadDataOffset buffer
              + Frame.payloadDataLength buffer)) 0); [lia|].
  rewrite bind_lift.
  destruct (copy_rest buffer (Frame.payloadDataOffset buffer
              + Frame.payloadDataLength buffer) ltac:(lia)) as [bytes Hcopy].
  rewrite Hcopy, bind_lift. unfold ret. cbn [snd]. do 3 f_equal. lia.
Qed.

(** ** A continuation frame while no message is open *)

(** C6, as the code has it: a frame with the opcode continuation that
    arrives while no message is open is not answered with a protocol
    error.  [processDataFrame] creates a response with the opcode 0 from
    it; nothing is emitted or sent and [readyState] stays.  When the frame
    has FIN the response is dropped again without a dispatch, otherwise it
    stays on the stack as the open message. *)
Theorem continuation_opens_a_response (s : WebSocket) (buffer : list Z) :
  responseStack s = [] → Buffer.is_bytes buffer →
  Frame.opcode buffer = OpcodeContinueFrame →
  Frame.isMasked buffer = false → Frame.payloadLength buffer ≠ 127 →
  Frame.payloadDataOffset buffer + Frame.payloadDataLength buffer
    ≤ Buffer.length buffer →
  let s' := state_after (processDataFrame buffer) s in
  (∃ n, outcome (processDataFrame buffer) s = Normal (js_number n))
  ∧ trace s' = trace s
  ∧ readyState s' = readyState s
  ∧ responseStack s' =
      if Frame.isFin buffer then []
      else [{| isFin := false; opcode := OpcodeContinueFrame; bytesLeft := 0;
               frameCount := 1; buffer := frame_payload buffer |}].
Proof.
  intros Hstack Hb Hop Hmasked H127 Hcomplete s'. subst s'.
  unfold outcome, state_after.
  rewrite processDataFrame_new; try done.
  2:{ unfold Frame.isControlFrame. by rewrite Hop. }
  rewrite Hop. rewrite bind_update.
  unfold processResponse. cbn [isFin bytesLeft opcode].
  change (0 <=? 0) with true. rewrite andb_true_r.
  destruct (Frame.isFin buffer); cbn [when].
  - change (OpcodeContinueFrame =? OpcodePing) with false.
    change (OpcodeContinueFrame =? OpcodeConnectionClose) with false.
    change (OpcodeContinueFrame =? OpcodeTextFrame) with false.
    change (OpcodeContinueFrame =? OpcodeBinaryFrame) with false.
    cbv iota. run_m. cbn. eauto.
  - run_m. cbn. eauto.
Qed.

(** ** A delivery *)

(** C2: the code does not do what the claim says.  The loop of
    [processDataFramesInBuffer] is written to go through every frame of
    the buffer, but it assigns to its loop variable what
    [processDataFrame] returns, and that is the number that [Buffer.copy]
    returns, not the buffer with the next frame: the loop ends after one
    frame.  Of the two complete text frames "a" and "b" in one delivery
    only the first is dispatched, while the same frames in two deliveries
    give two messages; the bytes of the second frame are kept nowhere. *)
Lemma second_frame_is_not_decoded :
  let a := [0x81; 1; 97] in
  let b := [0x81; 1; 98] in
  let n := length (trace example_open) in
  let together := step example_open (pump (pump_data (a ++ b))) in
  let apart := run example_open [pump (pump_data a); pump (pump_data b)] in
  outcome (processDataFrame (a ++ b)) example_open = Normal (js_number 3)
  ∧ drop n (trace together) = [Emit "message" (ev_message_string "a")]
  ∧ drop n (trace apart) = [Emit "message" (ev_message_string "a");
                            Emit "message" (ev_message_string "b")]
  ∧ responseStack together = []
  ∧ step together (pump (pump_data [])) = together.
Proof. vm_compute. repeat split. Qed.

(** C6 as it is stated fails: a continuation frame without FIN and with
    the payload "a", received on an open connection that has no message
    open, raises no error and opens a message *)
Lemma continuation_raises_no_error :
  let buffer := [0x00; 1; 97] in
  let s' := state_after (processDataFrame buffer) example_open in
  responseStack example_open = []
  ∧ Frame.opcode buffer = OpcodeContinueFrame
  ∧ outcome (processDataFrame buffer) example_open = Normal (js_number 0)
  ∧ trace s' = trace example_open
  ∧ readyState s' = OPEN
  ∧ responseStack s' =
      [{| isFin := false; opcode := OpcodeContinueFrame; bytesLeft := 0;
          frameCount := 1; buffer := [97] |}].
Proof. vm_compute. repeat split. Qed.

(** ** The extended length of a short buffer *)



Lemma continuation_opens_a_response_witness :
  let s := example_open in
  let buffer := [0x00; 1; 97] in
  responseStack s = [] ∧ Buffer.is_bytes buffer
  ∧ Frame.opcode buffer = OpcodeContinueFrame
  ∧ Frame.isMasked buffer = false ∧ Frame.payloadLength buffer ≠ 127
  ∧ Frame.payloadDataOffset buffer + Frame.payloadDataLength buffer
      ≤ Buffer.length buffer
  ∧ let s' := state_after (processDataFrame buffer) s in
    (∃ n, outcome (processDataFrame buffer) s = Normal (js_number n))
    ∧ trace s' = trace s
    ∧ readyState s' = readyState s
    ∧ responseStack s' =
        if Frame.isFin buffer then []
        else [{| isFin := false; opcode := OpcodeContinueFrame; bytesLeft := 0;
                 frameCount := 1; buffer := frame_payload buffer |}].
Proof.
  assert (responseStack example_open = []) as H1 by (vm_compute; reflexivity).
  assert (Buffer.is_bytes [0x00; 1; 97]) as H2 by (repeat constructor; lia).
  assert (Frame.payloadLength [0x00; 1; 97] ≠ 127) as H5 by (vm_compute; discriminate).
  assert (Frame.payloadDataOffset [0x00; 1; 97] + Frame.payloadDataLength [0x00; 1; 97]
            ≤ Buffer.length [0x00; 1; 97]) as H6 by (vm_compute; discriminate).
  cbv zeta. split; [exact H1|]. split; [exact H2|]. split; [reflexivity|].
  split; [reflexivity|]. split; [exact H5|]. split; [exact H6|].
  exact (continuation_opens_a_response example_open [0x00; 1; 97]
           H1 H2 eq_refl eq_refl H5 H6).
Defined.


(** ** [readyState] never moves backward *)

Global Instance same_readyState_preorder : PreOrder same_readyState.
Proof.
  split; [done|]. intros s1 s2 s3 H12 H23. unfold same_readyState in *. congruence.
Qed.

Global Instance stays_valid_preorder : PreOrder stays_valid.
Proof.
  split; [intros s H; exact H|]. intros s1 s2 s3 H12 H23 H. apply H23, H12, H.
Qed.

Global Instance readyState_advances_preorder : PreOrder readyState_advances.
Proof.
  split; [intros s H; split; [exact H|reflexivity]|]. intros s1 s2 s3 H12 H23 H1.
  destruct (H12 H1) as [H2 Hle12]. destruct (H23 H2) as [H3 Hle23].
  split; [done|lia].
Qed.

Lemma preserves_weaken (R R' : relation WebSocket) {A} (m : M A) :
  (∀ s s', R s s' → R' s s') → preserves R m → preserves R' m.
Proof. intros HR Hm s. apply HR, Hm. Qed.

Lemma same_readyState_advances s s' :
  same_readyState s s' → readyState_advances s s'.
Proof.
  unfold same_readyState, readyState_advances, valid_readyState.
  intros -> ?. lia.
Qed.

Lemma same_readyState_stays_valid s s' : same_readyState s s' → stays_valid s s'.
Proof. unfold same_readyState, stays_valid, valid_readyState. by intros ->. Qed.

Ltac same_readyState_updates :=
  try (apply preserves_update; intros ?; reflexivity).

Lemma createFrameBuffer_same_readyState o :
  preserves same_readyState (Sender.createFrameBuffer o).
Proof.
  unfold Sender.createFrameBuffer, Sender.data_length, randomFillSync, applyMask.
  preserve; same_readyState_updates.
Qed.

Lemma sendFrame_same_readyState frame cb :
  preserves same_readyState (Sender.sendFrame frame cb).
Proof. unfold Sender.sendFrame, perform. preserve; same_readyState_updates. Qed.

Lemma new_buffer_same_readyState b : preserves same_readyState (Sender.new_buffer b).
Proof. unfold Sender.new_buffer. preserve; same_readyState_updates. Qed.

Lemma Sender_send_same_readyState ff d binary compress fin cb :
  preserves same_readyState (Sender.send ff d binary compress fin cb).
Proof.
  unfold Sender.send. preserve; same_readyState_updates;
    first [apply createFrameBuffer_same_readyState | apply sendFrame_same_readyState].
Qed.

Lemma Sender_pong_same_readyState d cb :
  preserves same_readyState (Sender.pong d cb).
Proof.
  unfold Sender.pong, Sender.buffer_from. preserve; same_readyState_updates;
    first [apply createFrameBuffer_same_readyState | apply sendFrame_same_readyState
          | apply new_buffer_same_readyState].
Qed.

Lemma Sender_close_same_readyState code reason cb :
  preserves same_readyState (Sender.close code reason cb).
Proof.
  unfold Sender.close. preserve; same_readyState_updates;
    first [apply createFrameBuffer_same_readyState | apply sendFrame_same_readyState
          | apply new_buffer_same_readyState].
Qed.

Lemma sendAfterClose_same_readyState d cb :
  preserves same_readyState (sendAfterClose d cb).
Proof. unfold sendAfterClose, perform. preserve; same_readyState_updates. Qed.

Lemma pong_same_readyState d mask cb : preserves same_readyState (pong d mask cb).
Proof.
  unfold pong, or_EMPTY_BUFFER. preserve; same_readyState_updates;
    first [apply sendAfterClose_same_readyState | apply Sender_pong_same_readyState
          | apply new_buffer_same_readyState].
Qed.

Lemma send_same_readyState d options cb : preserves same_readyState (send d options cb).
Proof.
  unfold send. preserve; same_readyState_updates;
    first [apply sendAfterClose_same_readyState | apply Sender_send_same_readyState].
Qed.

Lemma socket_close_same_readyState : preserves same_readyState socket_close.
Proof. unfold socket_close, perform. preserve; same_readyState_updates. Qed.

Lemma connected_same_readyState : preserves same_readyState connected.
Proof.
  unfold connected, performWsHandshake, perform. preserve; same_readyState_updates.
Qed.

Ltac advances_updates :=
  try (apply preserves_update; intros ? ?; split; [done|reflexivity]);
  try (apply preserves_update; intros ? ?; unfold valid_readyState in *;
       cbn [readyState set_readyState]; unfold CONNECTING, OPEN, CLOSING, CLOSED in *;
       lia).

Ltac by_same_readyState lem :=
  apply (preserves_weaken same_readyState); [apply same_readyState_advances|apply lem].

Lemma emitClose_advances code msg : preserves readyState_advances (emitClose code msg).
Proof. unfold emitClose, emitEvent, perform. preserve; advances_updates. Qed.

Lemma closeSocket_advances code reason :
  preserves readyState_advances (closeSocket code reason).
Proof.
  unfold closeSocket. preserve.
  - by_same_readyState socket_close_same_readyState.
  - apply emitClose_advances.
Qed.

Ltac stays_valid_updates :=
  try (apply preserves_update; intros ? ?; done);
  try (apply preserves_update; intros ? ?; unfold valid_readyState in *;
       cbn [readyState set_readyState]; unfold CONNECTING, OPEN, CLOSING, CLOSED in *;
       lia).

Lemma emitClose_stays_valid code msg : preserves stays_valid (emitClose code msg).
Proof. unfold emitClose, emitEvent, perform. preserve; stays_valid_updates. Qed.

Lemma abortHandshake_stays_valid msg : preserves stays_valid (abortHandshake msg).
Proof.
  unfold abortHandshake. preserve; stays_valid_updates;
    first [ apply emitClose_stays_valid
          | apply (preserves_weaken same_readyState);
            [apply same_readyState_stays_valid|apply socket_close_same_readyState] ].
Qed.

Lemma close_advances code reason : preserves readyState_advances (close code reason).
Proof.
  intros s Hv. unfold close, state_after. rewrite bind_read.
  destruct (Z.eqb_spec (readyState s) CLOSED) as [Hc|Hc]; [split; [done|reflexivity]|].
  destruct (Z.eqb_spec (readyState s) CONNECTING) as [Hn|Hn].
  { pose proof (abortHandshake_stays_valid
      "WebSocket was closed before the connection was established" s Hv) as H.
    split; [exact H|]. destruct H as [H _]. unfold state_after in H. lia. }
  destruct (Z.eqb_spec (readyState s) CLOSING) as [Hg|Hg].
  { run_m.
    exact (preserves_when readyState_advances _ _
             (closeSocket_advances code reason) s Hv). }
  run_m. assert (valid_readyState (set_readyState CLOSING s)) as Hv'
    by (unfold valid_readyState, CONNECTING, CLOSING, CLOSED; cbn; lia).
  assert (readyState s ≤ CLOSING) as Hle
    by (unfold valid_readyState, CONNECTING, OPEN, CLOSING, CLOSED in *; lia).
  cbn [sender set_readyState]. destruct (sender s); [|by split].
  pose proof (Sender_close_same_readyState code reason
    (cb_closeFrameSent code reason) (set_readyState CLOSING s)) as H.
  unfold same_readyState, state_after in H.
  unfold valid_readyState in *. rewrite H. cbn [readyState set_readyState].
  unfold CONNECTING, OPEN, CLOSING, CLOSED in *. lia.
Qed.

Lemma run_callback_advances cb : preserves readyState_advances (run_callback cb).
Proof.
  unfold run_callback, perform. preserve; advances_updates.
  apply closeSocket_advances.
Qed.

Lemma disconnectAndEmitError_advances e code :
  preserves readyState_advances (disconnectAndEmitError e code).
Proof.
  unfold disconnectAndEmitError, emitEvent, perform. preserve; advances_updates.
  apply close_advances.
Qed.

Lemma processResponse_advances response :
  preserves readyState_advances (processResponse response).
Proof.
  unfold processResponse, closeCode_and_closeReason, emitEvent, perform.
  preserve; advances_updates;
    first [ apply close_advances
          | by_same_readyState pong_same_readyState
          | by_same_readyState new_buffer_same_readyState ].
Qed.

Lemma processDataFrame_advances buffer :
  preserves readyState_advances (processDataFrame buffer).
Proof.
  unfold processDataFrame, update_last. preserve; advances_updates;
    first [ apply disconnectAndEmitError_advances | apply processResponse_advances ].
Qed.

Lemma processDataFramesInBuffer_advances buffer :
  preserves readyState_advances (processDataFramesInBuffer buffer).
Proof.
  unfold processDataFramesInBuffer. preserve; advances_updates.
  apply processDataFrame_advances.
Qed.

Lemma processHandshake_stays_valid buffer :
  preserves stays_valid (processHandshake buffer).
Proof.
  unfold processHandshake, emitEvent, perform. preserve; stays_valid_updates;
    apply abortHandshake_stays_valid.
Qed.

Lemma processInputStream_advances e :
  preserves readyState_advances (processInputStream e).
Proof.
  intros s Hv. unfold processInputStream, state_after.
  destruct e as [| |buffer].
  - rewrite bind_read.
    destruct (Z.eqb_spec (readyState s) CLOSED); [split; [done|reflexivity]|].
    assert (readyState (socketOnClose s).1 = CLOSED) as Hclosed by reflexivity.
    unfold valid_readyState in *. rewrite Hclosed.
    unfold CONNECTING, CLOSED in *. lia.
  - split; [done|reflexivity].
  - rewrite bind_read. destruct (Z.eqb_spec (readyState s) CONNECTING) as [Hn|Hn].
    + pose proof (processHandshake_stays_valid buffer s Hv) as H.
      split; [exact H|]. destruct H as [H _]. unfold state_after in H. lia.
    + by apply processDataFramesInBuffer_advances.
Qed.

Lemma handle_advances i : preserves readyState_advances (handle i).
Proof.
  destruct i; unfold handle, error, emitEvent, perform.
  - by_same_readyState send_same_readyState.
  - by_same_readyState pong_same_readyState.
  - apply close_advances.
  - preserve; advances_updates. by_same_readyState connected_same_readyState.
  - preserve; advances_updates.
  - apply processInputStream_advances.
  - preserve; advances_updates. apply run_callback_advances.
  - preserve; advances_updates.
Qed.

Lemma new_WebSocket_valid opts key ti h :
  valid_readyState (new_WebSocket opts key ti h).
Proof. by vm_compute. Qed.

Lemma run_valid s inputs : valid_readyState s → valid_readyState (run s inputs).
Proof.
  revert s. induction inputs as [|i inputs IH]; intros s Hv; [done|].
  cbn. apply IH. by apply (handle_advances i s).
Qed.

(** C8: at every point of the life of a connection, whatever has happened
    to it so far and whatever happens next (a call, a callback of the
    socket, a chunk, the completion of a write), [readyState] is one of the
    four states and the next state is not below the present one; the
    state OPEN is entered from CONNECTING only. *)
Theorem readyState_is_monotonic (opts : Options) (key : string) (ti : Titanium)
    (h : gmap nat (list Z)) (history : list Input) (i : Input) :
  let s := run (new_WebSocket opts key ti h) history in
  let s' := step s i in
  CONNECTING ≤ readyState s ≤ CLOSED
  ∧ CONNECTING ≤ readyState s' ≤ CLOSED
  ∧ readyState s ≤ readyState s'
  ∧ (readyState s' = OPEN → readyState s = CONNECTING ∨ readyState s = OPEN).
Proof.
  intros s s'.
  assert (valid_readyState s) as Hv by apply run_valid, new_WebSocket_valid.
  destruct (handle_advances i s Hv) as [Hv' Hle]. fold (step s i) in Hv', Hle.
  fold s' in Hv', Hle. split; [exact Hv|]. split; [exact Hv'|]. split; [exact Hle|].
  intros Hopen. unfold valid_readyState, CONNECTING, OPEN, CLOSED in *. lia.
Qed.

(** Over any stretch of the life of a connection *)
Corollary readyState_never_decreases (opts : Options) (key : string)
    (ti : Titanium) (h : gmap nat (list Z)) (history later : list Input) :
  let s := run (new_WebSocket opts key ti h) history in
  readyState s ≤ readyState (run s later).
Proof.
  intros s.
  assert (valid_readyState s) as Hv by apply run_valid, new_WebSocket_valid.
  clearbody s. revert s Hv.
  induction later as [|i later IH]; intros s Hv; [reflexivity|].
  cbn. destruct (handle_advances i s Hv) as [Hv' Hle]. fold (step s i) in Hv', Hle.
  etrans; [exact Hle|]. by apply IH.
Qed.

(** ** The close handshake *)

Global Instance keeps_inv_preorder t0 : PreOrder (keeps_inv t0).
Proof.
  split; [intros s H; exact H|]. intros s1 s2 s3 H12 H23 H. apply H23, H12, H.
Qed.

Global Instance same_connection_preorder : PreOrder same_connection.
Proof.
  split; [by intros s|].
  intros s1 s2 s3 (?&?&?&?&?&?) (?&?&?&?&?&?).
  repeat split; congruence.
Qed.

Global Instance no_close_progress_preorder : PreOrder no_close_progress.
Proof.
  split.
  - intros s. repeat split; try done. exists []. rewrite app_nil_r.
    split; [done|]. apply not_elem_of_nil.
  - intros s1 s2 s3 (?&?&?&?&?&e12&Ht12&He12) (?&?&?&?&?&e23&Ht23&He23).
    repeat split; try congruence. exists (e12 ++ e23).
    split; [by rewrite Ht23, Ht12, app_assoc|].
    rewrite elem_of_app. tauto.
Qed.



Lemma same_connection_update f :
  (∀ s, same_connection s (f s)) → preserves same_connection (update f).
Proof. intros H. by apply preserves_update. Qed.

Ltac same_connection_updates :=
  try (apply preserves_update; intros ?; by repeat split).

Lemma createFrameBuffer_same_connection o :
  preserves same_connection (Sender.createFrameBuffer o).
Proof.
  unfold Sender.createFrameBuffer, Sender.data_length, randomFillSync, applyMask.
  preserve; same_connection_updates.
Qed.

Lemma new_buffer_same_connection b : preserves same_connection (Sender.new_buffer b).
Proof. unfold Sender.new_buffer. preserve; same_connection_updates. Qed.


Lemma waiting_app s cb :
  length (List.filter is_closeFrameSent (pending s ++ [cb]))
    = (waiting s + if is_closeFrameSent cb then 1 else 0)%nat.
Proof.
  unfold waiting. rewrite List.filter_app, length_app. cbn.
  by destruct (is_closeFrameSent cb).
Qed.












Lemma Sender_close_cases code reason cb s :
  let s' := state_after (Sender.close code reason cb) s in
  socket s' = socket s ∧ readyState s' = readyState s
  ∧ closeFrameSent s' = closeFrameSent s
  ∧ closeFrameReceived s' = closeFrameReceived s
  ∧ ((pending s' = pending s ∧ trace s' = trace s)
     ∨ ∃ frame, pending s' = pending s ++ [cb]
                ∧ trace s' = trace s ++ [SocketWrite frame]).
Proof.
  unfold Sender.close, state_after.
  destruct (Sender.close_data code reason) as [data|e]; [|by repeat split; try left].
  unfold Sender.new_buffer. run_m.
  set (s1 := set_heap _ s).
  match goal with |- context [Sender.createFrameBuffer ?o] =>
    pose proof (createFrameBuffer_same_connection o s1) as Hsame end.
  unfold state_after in Hsame. unfold bind.
  destruct (Sender.createFrameBuffer _ s1) as [s2 [frame|e]];
    destruct Hsame as (?&?&?&?&Hp&Ht); cbn [fst] in *.
  - cbn. repeat split; try done. right. exists frame. by rewrite Hp, Ht.
  - repeat split; try done. by left.
Qed.







Lemma waiting_delete (l : list Callback) (i : nat) (cb : Callback) :
  l !! i = Some cb →
  length (List.filter is_closeFrameSent l)
    = (length (List.filter is_closeFrameSent (delete i l))
       + if is_closeFrameSent cb then 1 else 0)%nat.
Proof.
  revert i. induction l as [|x l IH]; intros [|i] Hi; try done.
  - injection Hi as ->. simpl.
    destruct (is_closeFrameSent cb); simpl; lia.
  - specialize (IH i Hi). simpl.
    destruct (is_closeFrameSent x); simpl; simpl in IH; lia.
Qed.












(** The three orders in which the two flags can become true: the close
    frame of the client is written before the close frame of the server
    arrives; the close frame of the server arrives first and is answered;
    the close frame of the server arrives while the write of the client's
    is still under way.  The socket is closed by the last of the three
    inputs and not before. *)
Lemma close_handshake_in_any_order :
  let remote := pump (pump_data [0x88; 2; 3; 232]) in
  let local := call_close (Some 1000) (Some "bye") in
  let n := length (trace example_open) in
  let closed s := (readyState s, closeFrameSent s, closeFrameReceived s,
                   drop (S n) (trace s)) in
  closed (run example_open [local; write_complete 1; remote])
    = (CLOSED, true, true, [SocketClose; Emit "close" (ev_number 1000)])
  ∧ closed (run example_open [local; write_complete 1])
    = (CLOSING, true, false, [])
  ∧ closed (run example_open [remote; write_complete 1])
    = (CLOSED, true, true, [SocketClose; Emit "close" (ev_number 1000)])
  ∧ closed (run example_open [remote]) = (CLOSING, false, true, [])
  ∧ closed (run example_open [local; remote; write_complete 1])
    = (CLOSED, true, true, [SocketClose; Emit "close" (ev_number 1000)])
  ∧ closed (run example_open [local; remote]) = (CLOSING, false, true, []).
Proof. vm_compute. repeat split. Qed.

(** * Further properties *)

Lemma toString_fromString (s : string) : Buffer.toString (Buffer.fromString s) = s.
Proof.
  unfold Buffer.toString, Buffer.fromString.
  rewrite <- list_fmap_compose.
  rewrite <- (String.string_of_list_ascii_of_string s) at 2. f_equal.
  induction (String.list_ascii_of_string s) as [|c l IH]; [done|].
  cbn [fmap list_fmap compose]. f_equal; [|exact IH].
  by rewrite N2Z.id, Ascii.ascii_N_embedding.
Qed.

Lemma fromString_is_bytes (s : string) : Buffer.is_bytes (Buffer.fromString s).
Proof.
  unfold Buffer.fromString, Buffer.is_bytes. apply Forall_fmap, Forall_forall.
  intros c _. cbn. pose proof (Ascii.N_ascii_bounded c). lia.
Qed.

Lemma write_all (b : list Z) (s : string) (offset : Z) :
  0 ≤ offset → Buffer.length b = offset + Buffer.byteLength s →
  Buffer.write b s offset = take (Z.to_nat offset) b ++ Buffer.fromString s.
Proof.
  intros Ho Hlen. unfold Buffer.write, Buffer.byteLength, Buffer.length in *.
  rewrite (take_ge (Buffer.fromString s)) by lia.
  rewrite drop_ge by lia. by rewrite app_nil_r.
Qed.

Lemma close_data_code code reason :
  0 ≤ code ≤ 65535 →
  Sender.close_data (Some code) reason
    = Normal (code / 256 :: code mod 256 :: Buffer.fromString (default "" reason)).
Proof.
  intros Hc. unfold Sender.close_data.
  assert (∀ n, Buffer.writeUInt16BE (replicate (2 + n) 0) code 0
             = Normal (code / 256 :: code mod 256 :: replicate n 0)) as Hw.
  { intros n. rewrite writeUInt16BE_ok;
      [|lia|unfold Buffer.length; rewrite length_replicate; lia].
    change (0 + 1) with (Z.of_nat 1). change 0 with (Z.of_nat 0) at 2.
    rewrite !set_of_nat. cbn [replicate Nat.add list_insert insert].
    f_equal. f_equal.
    apply Z.mod_small. split; [apply Z.div_pos; lia|].
    apply Z.div_lt_upper_bound; lia. }
  destruct (bool_decide (reason = None) || bool_decide (reason = Some "")) eqn:He.
  - change (Buffer.alloc 2) with (Normal (replicate (2 + 0) 0)). cbv iota.
    rewrite Hw. apply orb_true_iff in He as [He|He];
      apply bool_decide_eq_true in He; by subst.
  - unfold Buffer.alloc. 
    assert (0 ≤ Buffer.byteLength (default "" reason)) as Hn
      by (unfold Buffer.byteLength, Buffer.length; lia).
    destruct (Z.ltb_spec (2 + Buffer.byteLength (default "" reason)) 0); [lia|].
    replace (Z.to_nat (2 + Buffer.byteLength (default "" reason)))
      with (2 + length (Buffer.fromString (default "" reason)))%nat
      by (unfold Buffer.byteLength, Buffer.length; lia).
    cbv iota. rewrite Hw. rewrite write_all; [done|lia|].
    unfold Buffer.byteLength, Buffer.length. cbn [length].
    rewrite length_replicate. lia.
Qed.

(** X1: the payload that [Sender.close] builds for a status code between 0
    and 65535 and a reason (the code in two bytes, big-endian, then the
    bytes of the reason) is read back by the close branch of
    [processResponse] as the same code and the same reason; without a
    reason the reason read back is the empty string. *)
Theorem close_payload_round_trip (code : Z) (reason : option string) (s : WebSocket) :
  0 ≤ code ≤ 65535 →
  ∃ payload,
    Sender.close_data (Some code) reason = Normal payload
    ∧ Buffer.is_bytes payload
    ∧ Buffer.length payload = 2 + Buffer.byteLength (default "" reason)
    ∧ closeCode_and_closeReason payload s = (s, Normal (code, default "" reason)).
Proof.
  intros Hc. eexists. split; [by apply close_data_code|].
  assert (0 ≤ code / 256 < 256) as Hhi.
  { split; [apply Z.div_pos; lia|]. apply Z.div_lt_upper_bound; lia. }
  pose proof (Z.mod_pos_bound code 256 ltac:(lia)) as Hlo.
  split; [|split].
  - do 2 (constructor; [lia|]). apply fromString_is_bytes.
  - unfold Buffer.byteLength, Buffer.length. cbn [length]. lia.
  - unfold closeCode_and_closeReason. unfold Buffer.length at 1 2. cbn [length].
    destruct (Z.eqb_spec (Z.of_nat (S (S (length (Buffer.fromString (default "" reason)))))) 0);
      [lia|].
    destruct (Z.eqb_spec (Z.of_nat (S (S (length (Buffer.fromString (default "" reason)))))) 1);
      [lia|].
    change (Buffer.readUInt16BE (?hi :: ?lo :: ?r) 0) with (Normal (A:=Z) (hi * 256 + lo)).
    rewrite bind_lift. unfold ret. do 3 f_equal.
    + pose proof (Z.div_mod code 256 ltac:(lia)). lia.
    + change (Buffer.slice (?hi :: ?lo :: ?r) 2) with r. apply toString_fromString.
Qed.

Lemma close_payload_round_trip_witness :
  0 ≤ 1000 ≤ 65535
  ∧ ∃ payload,
      Sender.close_data (Some 1000) (Some "bye") = Normal payload
      ∧ Buffer.is_bytes payload
      ∧ Buffer.length payload = 2 + Buffer.byteLength (default "" (Some "bye"))
      ∧ closeCode_and_closeReason payload example_open
        = (example_open, Normal (1000, default "" (Some "bye"))).
Proof.
  assert (0 ≤ 1000 ≤ 65535) as H by lia.
  split; [exact H|].
  exact (close_payload_round_trip 1000 (Some "bye") example_open H).
Defined.

Lemma close_data_invalid code reason :
  ¬ 0 ≤ code ≤ 65535 →
  Sender.close_data (Some code) reason
    = Throw (RangeError "The value of value is out of range").
Proof.
  intros Hc. unfold Sender.close_data.
  assert (∀ b, Buffer.writeUInt16BE b code 0
               = Throw (RangeError "The value of value is out of range")) as Hw.
  { intros b. unfold Buffer.writeUInt16BE.
    destruct (Z.ltb_spec code 0); [done|]. by destruct (Z.ltb_spec 65535 code); [|lia]. }
  destruct (_ || _).
  - change (Buffer.alloc 2) with (Normal (replicate (2 + 0) 0)). cbv iota. apply Hw.
  - unfold Buffer.alloc.
    assert (0 ≤ Buffer.byteLength (default "" reason)) as Hn
      by (unfold Buffer.byteLength, Buffer.length; lia).
    destruct (Z.ltb_spec (2 + Buffer.byteLength (default "" reason)) 0); [lia|].
    cbv iota. by rewrite Hw.
Qed.

(** X2: [close(code)] on an open connection with a code outside 0..65535
    sets [readyState] to CLOSING and then ends in the [RangeError] of
    [writeUInt16BE]: nothing else has changed, no frame is written and no
    callback waits for a write.  With [closeFrameSent] still false every
    later call of [close] returns without doing anything. *)
Theorem close_with_invalid_code (s : WebSocket) (code : Z) (reason : option string) :
  readyState s = OPEN → sender s ≠ None → ¬ 0 ≤ code ≤ 65535 →
  let s' := set_readyState CLOSING s in
  state_after (close (Some code) reason) s = s'
  ∧ (∃ msg, outcome (close (Some code) reason) s = Throw (RangeError msg))
  ∧ (closeFrameSent s = false → ∀ c r, close c r s' = (s', Normal tt)).
Proof.
  intros Hopen Hsender Hcode s'.
  assert (close (Some code) reason s
          = (s', Throw (RangeError "The value of value is out of range"))) as Hclose.
  { unfold close. rewrite bind_read, Hopen.
    change (OPEN =? CLOSED) with false. change (OPEN =? CONNECTING) with false.
    change (OPEN =? CLOSING) with false. cbv iota.
    rewrite bind_update, bind_read. cbn [sender set_readyState].
    destruct (sender s) as [ff|]; [|done].
    unfold Sender.close. rewrite close_data_invalid by done. reflexivity. }
  unfold state_after, outcome. rewrite Hclose. cbn [fst snd].
  split; [done|]. split; [by eexists|].
  intros Hsent c r. subst s'. unfold close. rewrite bind_read.
  cbn [readyState set_readyState].
  change (CLOSING =? CLOSED) with false. change (CLOSING =? CONNECTING) with false.
  change (CLOSING =? CLOSING) with true. cbv iota.
  rewrite bind_read, bind_read. cbn [closeFrameSent set_readyState].
  by rewrite Hsent.
Qed.

Lemma close_with_invalid_code_witness :
  let s' := set_readyState CLOSING example_open in
  readyState example_open = OPEN ∧ sender example_open ≠ None
  ∧ state_after (close (Some 70000) None) example_open = s'
  ∧ (∃ msg, outcome (close (Some 70000) None) example_open = Throw (RangeError msg))
  ∧ (closeFrameSent example_open = false → ∀ c r, close c r s' = (s', Normal tt)).
Proof.
  assert (readyState example_open = OPEN) as H1 by reflexivity.
  assert (sender example_open ≠ None) as H2 by (by vm_compute).
  assert (¬ 0 ≤ 70000 ≤ 65535) as H3 by lia.
  split; [exact H1|]. split; [exact H2|].
  exact (close_with_invalid_code example_open 70000 None H1 H2 H3).
Defined.

(** *** [send] *)

Lemma randomFillSync_runs s :
  ∃ m, randomFillSync 0 4 s = (set_mask m (set_drawn (drawn s + 4) s), Normal tt).
Proof.
  unfold randomFillSync, bind. rewrite randomBytes_4.
  unfold read, lift, update. cbn [mask set_drawn].
  unfold Buffer.copy. destruct (_ || _); [by eexists|].
  change (Buffer.length (next_key s) <? 0) with false. cbv iota. by eexists.
Qed.

Lemma createFrameBuffer_string (o : FrameOptions) (str : string) (s : WebSocket) :
  data o = data_string str → Z.of_nat (String.length str) ≤ 4294967295 →
  ∃ m, Sender.createFrameBuffer o s =
    (set_mask m (set_drawn (drawn s + 4) s),
     Throw (TypeError "list[1] must be an instance of Buffer or Uint8Array")).
Proof.
  intros Hd Hlen. unfold Sender.createFrameBuffer. rewrite Hd.
  cbn [Sender.data_length]. rewrite bind_ret.
  set (L := Z.of_nat (String.length str)) in *.
  assert (0 ≤ L) as HL by (unfold L; lia).
  destruct (Z.leb_spec 65536 L); [|destruct (Z.ltb_spec 125 L)].
  - change (Buffer.alloc (6 + 8)) with (Normal (replicate 14 0)). rewrite bind_lift.
    change (127 =? 126) with false. change (127 =? 127) with true. cbv iota.
    rewrite bind_bind.
    rewrite writeUInt32BE_ok; [|lia|destruct (rsv1 o); rewrite !length_set; unfold Buffer.length; rewrite length_replicate; lia].
    rewrite bind_lift.
    rewrite writeUInt32BE_ok; [|lia|destruct (rsv1 o); rewrite !length_set; unfold Buffer.length; rewrite length_replicate; lia].
    rewrite bind_lift.
    destruct (randomFillSync_runs s) as [m Hm]. unfold bind at 1. rewrite Hm.
    rewrite bind_read. by exists m.
  - change (Buffer.alloc (6 + 2)) with (Normal (replicate 8 0)). rewrite bind_lift.
    change (126 =? 126) with true. cbv iota.
    rewrite writeUInt16BE_ok; [|lia|destruct (rsv1 o); rewrite !length_set; unfold Buffer.length; rewrite length_replicate; lia].
    rewrite bind_lift.
    destruct (randomFillSync_runs s) as [m Hm]. unfold bind at 1. rewrite Hm.
    rewrite bind_read. by exists m.
  - change (Buffer.alloc 6) with (Normal (replicate 6 0)). rewrite bind_lift.
    destruct (Z.eqb_spec L 126); [lia|]. destruct (Z.eqb_spec L 127); [lia|].
    rewrite bind_ret.
    destruct (randomFillSync_runs s) as [m Hm]. unfold bind at 1. rewrite Hm.
    rewrite bind_read. by exists m.
Qed.

(** X3: [send] with a string as data on an open connection ends in a
    [TypeError] and writes nothing: [Sender.send] hands the string to
    [createFrameBuffer] as it is, and [Buffer.concat] takes buffers only.
    No callback is queued, no buffer has changed and the connection stays
    OPEN. *)
Theorem send_refuses_a_string (s : WebSocket) (str : string) (options : SendOptions)
    (cb : Callback) :
  readyState s = OPEN → sender s ≠ None →
  Z.of_nat (String.length str) ≤ 4294967295 →
  let s' := state_after (send (data_string str) options cb) s in
  (∃ msg, outcome (send (data_string str) options cb) s = Throw (TypeError msg))
  ∧ trace s' = trace s ∧ pending s' = pending s ∧ heap s' = heap s
  ∧ readyState s' = OPEN.
Proof.
  intros Hopen Hsender Hlen s'. subst s'. unfold state_after, outcome.
  unfold send. rewrite bind_read, Hopen.
  change (OPEN =? CONNECTING) with false. change (negb (OPEN =? OPEN)) with false.
  cbv iota. rewrite bind_read.
  destruct (sender s) as [ff|]; [|done].
  unfold Sender.send.
  destruct ff; [rewrite bind_bind, bind_update, bind_ret|rewrite bind_ret];
    cbv beta iota;
    (destruct (default true (opt_fin options)); cbn [when];
      [rewrite bind_update|rewrite bind_ret]);
    (edestruct createFrameBuffer_string as [m Hm];
      [|exact Hlen|unfold bind; rewrite Hm; cbn; by split; [eexists|]]); done.
Qed.

Lemma send_refuses_a_string_witness :
  let s' := state_after (send (data_string "something") no_options cb_undefined)
              example_open in
  (readyState example_open = OPEN ∧ sender example_open ≠ None)
  ∧ (∃ msg, outcome (send (data_string "something") no_options cb_undefined)
              example_open = Throw (TypeError msg))
  ∧ trace s' = trace example_open ∧ pending s' = pending example_open
  ∧ heap s' = heap example_open ∧ readyState s' = OPEN.
Proof.
  assert (readyState example_open = OPEN) as H1 by reflexivity.
  assert (sender example_open ≠ None) as H2 by (by vm_compute).
  assert (Z.of_nat (String.length "something") ≤ 4294967295) as H3 by (by vm_compute).
  cbv zeta. split; [repeat (first [assumption | split]); first [reflexivity | done]|].
  exact (send_refuses_a_string example_open "something" no_options cb_undefined
           H1 H2 H3).
Defined.

Lemma frame_header_first o len key rest :
  Buffer.get (frame_header o len key ++ rest) 0 = Some (first_byte o).
Proof.
  unfold frame_header, first_byte.
  by destruct (65536 <=? len); [|destruct (125 <? len)].
Qed.

Lemma frame_header_wire_length o L key rest :
  0 ≤ L ≤ 4294967295 → wire_length (frame_header o L key ++ rest) = L.
Proof.
  intros HL. unfold frame_header. fold (first_byte o).
  destruct (Z.leb_spec 65536 L) as [Hbig|Hbig];
    [|destruct (Z.ltb_spec 125 L) as [Hmid|Hsmall]]; cbn [app].
  - destruct (long_length_field L ltac:(lia) (first_byte o) (key ++ rest))
      as (_ & Hlen & Hbe).
    unfold wire_length. by rewrite Hlen.
  - destruct (extended_length_field L ltac:(lia) (first_byte o) (key ++ rest))
      as (_ & Hlen & Hdata).
    unfold wire_length. by rewrite Hlen.
  - destruct (short_length_field L ltac:(lia) (first_byte o) (key ++ rest))
      as (_ & Hlen).
    unfold wire_length, Frame.payloadDataLength. rewrite Hlen.
    destruct (Z.eqb_spec L 127); [lia|]. by destruct (Z.eqb_spec L 126); [lia|].
Qed.

(** The fields of the first byte of a data frame *)
Lemma data_frame_first_byte (d : JsData) (opc : Z) (f r : bool) :
  opc = OpcodeContinueFrame ∨ opc = OpcodeTextFrame ∨ opc = OpcodeBinaryFrame →
  let o := {| data := d; frame_opcode := opc; fin := f; rsv1 := r |} in
  js_and (Some OpcodeMask) (Some (first_byte o)) = opc
  ∧ negb (js_and (Some FinMask) (Some (first_byte o)) =? 0) = f
  ∧ Z.testbit (first_byte o) 6 = r.
Proof. intros [->|[->| ->]]; destruct f, r; by vm_compute. Qed.

(** X4: [send] with a buffer on an open connection writes one frame and
    queues the callback.  The opcode of the frame is binary or text (by
    [options.binary], binary by default) when the sender is at the start
    of a message, and continuation otherwise; FIN is [options.fin] (true
    by default); RSV1 is [options.compress] on the first fragment and
    clear on the others; the length field gives the length of the data.
    Afterwards the sender is at the start of a message if and only if FIN
    was set. *)
Theorem send_frames_a_fragment (s : WebSocket) (l : nat) (payload : list Z)
    (firstFragment : bool) (options : SendOptions) (cb : Callback) :
  readyState s = OPEN → sender s = Some firstFragment →
  heap s !! l = Some payload → length (mask s) = 4%nat →
  Buffer.length payload ≤ 4294967295 →
  let is_binary := default true (binary options) in
  let compressed := default false (compress options) in
  let final := default true (opt_fin options) in
  let s' := state_after (send (data_buffer l) options cb) s in
  outcome (send (data_buffer l) options cb) s = Normal tt
  ∧ sender s' = Some final
  ∧ pending s' = pending s ++ [cb]
  ∧ ∃ frame,
      trace s' = trace s ++ [SocketWrite frame]
      ∧ Frame.opcode frame =
          (if firstFragment
           then if is_binary then OpcodeBinaryFrame else OpcodeTextFrame
           else OpcodeContinueFrame)
      ∧ Frame.isFin frame = final
      ∧ Z.testbit (default 0 (frame !! 0%nat)) 6 = firstFragment && compressed
      ∧ wire_length frame = Buffer.length payload.
Proof.
  intros Hopen Hsender Hl Hm Hmax is_binary compressed final s'.
  subst s'. unfold state_after, outcome, send.
  rewrite bind_read, Hopen.
  change (OPEN =? CONNECTING) with false. change (negb (OPEN =? OPEN)) with false.
  cbv iota. rewrite bind_read, Hsender. cbv iota.
  change (default (negb false) (binary options)) with is_binary.
  fold compressed final.
  unfold Sender.send.
  set (opc := if firstFragment
              then if is_binary then OpcodeBinaryFrame else OpcodeTextFrame
              else OpcodeContinueFrame).
  set (r := firstFragment && compressed).
  set (o := {| data := data_buffer l; frame_opcode := opc; fin := final; rsv1 := r |}).
  assert (opc = OpcodeContinueFrame ∨ opc = OpcodeTextFrame ∨ opc = OpcodeBinaryFrame)
    as Hopc by (unfold opc; destruct firstFragment, is_binary; auto).
  assert (∀ s1, heap s1 = heap s → mask s1 = mask s → trace s1 = trace s →
                pending s1 = pending s → drawn s1 = drawn s → Ti s1 = Ti s →
                sender s1 = Some final →
    let res := bind (Sender.createFrameBuffer o) (λ frame, Sender.sendFrame frame cb) s1 in
    res.2 = Normal tt ∧ sender res.1 = Some final
    ∧ pending res.1 = pending s ++ [cb]
    ∧ ∃ frame, trace res.1 = trace s ++ [SocketWrite frame]
        ∧ Frame.opcode frame = opc ∧ Frame.isFin frame = final
        ∧ Z.testbit (default 0 (frame !! 0%nat)) 6 = r
        ∧ wire_length frame = Buffer.length payload) as Hsend.
  { intros s1 Hh Hmask Ht Hp Hd HTi Hs1 res. subst res.
    rewrite (frame_and_send s1 l payload o cb);
      [|by rewrite Hh|by rewrite Hmask|done|done].
    cbn [fst snd sender set_pending set_trace framed set_heap set_mask set_drawn
         pending trace].
    split; [done|]. split; [done|]. split; [by rewrite Hp|].
    eexists. split; [by rewrite Ht|].
    assert (0 ≤ Buffer.length payload) by (unfold Buffer.length; lia).
    split; [|split; [|split]].
    - unfold Frame.opcode. rewrite frame_header_first.
      exact (proj1 (data_frame_first_byte (data_buffer l) opc final r Hopc)).
    - unfold Frame.isFin. rewrite frame_header_first.
      exact (proj1 (proj2 (data_frame_first_byte (data_buffer l) opc final r Hopc))).
    - pose proof (frame_header_first o (Buffer.length payload) (next_key s1)
        (imap (masked_byte (next_key s1)) payload)) as Hfirst.
      change 0 with (Z.of_nat 0) in Hfirst. rewrite get_of_nat in Hfirst.
      rewrite Hfirst. cbn [default from_option id].
      exact (proj2 (proj2 (data_frame_first_byte (data_buffer l) opc final r Hopc))).
    - apply frame_header_wire_length. lia. }
  destruct firstFragment.
  - rewrite bind_bind, bind_update, bind_ret. cbv beta iota.
    destruct final eqn:Hfinal; cbn [when]; [rewrite bind_update|rewrite bind_ret];
      by apply Hsend.
  - rewrite bind_ret. cbv beta iota.
    destruct final eqn:Hfinal; cbn [when]; [rewrite bind_update|rewrite bind_ret];
      by apply Hsend.
Qed.

Lemma send_frames_a_fragment_witness :
  let options := {| binary := Some false; compress := None; opt_fin := Some false |} in
  let s' := state_after (send (data_buffer 0) options cb_undefined) example_open in
  (sender example_open = Some true ∧ heap example_open !! 0%nat = Some [1; 2; 3])
  ∧ outcome (send (data_buffer 0) options cb_undefined) example_open = Normal tt
  ∧ sender s' = Some false
  ∧ pending s' = pending example_open ++ [cb_undefined]
  ∧ ∃ frame,
      trace s' = trace example_open ++ [SocketWrite frame]
      ∧ Frame.opcode frame = OpcodeTextFrame
      ∧ Frame.isFin frame = false
      ∧ Z.testbit (default 0 (frame !! 0%nat)) 6 = false
      ∧ wire_length frame = 3.
Proof.
  assert (readyState example_open = OPEN) as H1 by reflexivity.
  assert (sender example_open = Some true) as H2 by reflexivity.
  assert (heap example_open !! 0%nat = Some [1; 2; 3]) as H3 by reflexivity.
  assert (length (mask example_open) = 4%nat) as H4 by reflexivity.
  assert (Buffer.length [1; 2; 3] ≤ 4294967295) as H5 by (by vm_compute).
  cbv zeta. split; [repeat (first [assumption | split]); first [reflexivity | done]|].
  exact (send_frames_a_fragment example_open 0 [1; 2; 3] true
           {| binary := Some false; compress := None; opt_fin := Some false |}
           cb_undefined H1 H2 H3 H4 H5).
Defined.

Lemma fresh_heap_None (h : gmap nat (list Z)) : h !! fresh (dom h) = None.
Proof. apply not_elem_of_dom, is_fresh. Qed.

Lemma Sender_pong_sends s d cb payload :
  length (mask s) = 4%nat → data_bytes (heap s) d = payload →
  d ≠ data_undefined →
  Buffer.length payload ≤ 4294967295 →
  ∃ s', Sender.pong d cb s = (s', Normal tt)
    ∧ trace s' = trace s ++ [SocketWrite (pong_frame (next_key s) payload)]
    ∧ pending s' = pending s ++ [cb]
    ∧ only_sent s s'.
Proof.
  intros Hm Hd Hund Hmax. unfold Sender.pong.
  assert (∀ s1, s1 = set_heap (<[fresh (dom (heap s)) := payload]> (heap s)) s →
    ∃ s', bind (Sender.createFrameBuffer
                  {| data := data_buffer (fresh (dom (heap s)));
                     frame_opcode := OpcodePong; fin := true; rsv1 := false |})
               (λ frame, Sender.sendFrame frame cb) s1 = (s', Normal tt)
      ∧ trace s' = trace s ++ [SocketWrite (pong_frame (next_key s) payload)]
      ∧ pending s' = pending s ++ [cb]
      ∧ only_sent s s') as Hsend.
  { intros s1 ->. eexists. split.
    { apply frame_and_send; [apply lookup_insert_eq|exact Hm|exact Hmax|done]. }
    unfold only_sent, next_key, framed.
    cbn [fst snd trace pending heap responseStack readyState socket closeFrameSent
         closeFrameReceived sender socketState set_pending set_trace set_heap
         set_mask set_drawn mask drawn Ti].
    split; [done|]. split; [done|].
    repeat (split; [done|]). intros l [b Hl].
    pose proof (fresh_heap_ne _ _ _ Hl) as Hne.
    by rewrite !lookup_insert_ne. }
  destruct d as [|str|l]; [done| |].
  - cbn [Sender.buffer_from]. unfold Sender.new_buffer. run_m.
    cbn [data_bytes] in Hd. rewrite Hd. by apply Hsend.
  - cbn [Sender.buffer_from]. unfold Sender.new_buffer. run_m.
    cbn [data_bytes] in Hd. rewrite Hd. by apply Hsend.
Qed.

Lemma pong_sends s d masking cb payload :
  readyState s = OPEN → sender s ≠ None → length (mask s) = 4%nat →
  data_bytes (heap s) d = payload → Buffer.length payload ≤ 4294967295 →
  ∃ s', pong d masking cb s = (s', Normal tt)
    ∧ trace s' = trace s ++ [SocketWrite (pong_frame (next_key s) payload)]
    ∧ pending s' = pending s ++ [cb_boolean (default true masking)]
    ∧ only_sent s s'.
Proof.
  intros Hopen Hsender Hm Hd Hmax. unfold pong. rewrite bind_read, Hopen.
  change (OPEN =? CONNECTING) with false. change (negb (OPEN =? OPEN)) with false.
  cbv iota. rewrite bind_read. destruct (sender s) as [ff|] eqn:Hs; [|done].
  assert (∀ d', d' = data_undefined ∨ d' = data_string "" → d = d' →
    ∃ s', bind (or_EMPTY_BUFFER d') (λ d, Sender.pong d (cb_boolean (default true masking))) s
            = (s', Normal tt)
      ∧ trace s' = trace s ++ [SocketWrite (pong_frame (next_key s) payload)]
      ∧ pending s' = pending s ++ [cb_boolean (default true masking)]
      ∧ only_sent s s') as Hempty.
  { intros d' Hd' ->.
    assert (payload = []) as -> by (by destruct Hd' as [->| ->]).
    assert (or_EMPTY_BUFFER d' =
              bind (Sender.new_buffer EMPTY_BUFFER) (λ l, ret (data_buffer l))) as ->
      by (by destruct Hd' as [->| ->]).
    unfold Sender.new_buffer. run_m.
    set (l1 := fresh (dom (heap s))).
    set (s1 := set_heap (<[l1 := EMPTY_BUFFER]> (heap s)) s).
    destruct (Sender_pong_sends s1 (data_buffer l1) (cb_boolean (default true masking)) [])
      as (s' & Hrun & Ht & Hp & Honly); [done| |done|done|].
    { cbn. by rewrite lookup_insert_eq. }
    exists s'. split; [exact Hrun|]. split; [exact Ht|]. split; [exact Hp|].
    destruct Honly as (H1 & H2 & H3 & H4 & H5 & H6 & H7 & H8).
    repeat (split; [done|]). intros l [b Hl].
    pose proof (fresh_heap_ne _ _ _ Hl) as Hne. fold l1 in Hne.
    rewrite H8; cbn [heap set_heap s1]; by rewrite lookup_insert_ne. }
  destruct d as [|str|l].
  - apply Hempty; auto.
  - destruct str as [|c str]; [apply Hempty; auto|].
    cbn [or_EMPTY_BUFFER]. rewrite bind_ret. by apply Sender_pong_sends.
  - cbn [or_EMPTY_BUFFER]. rewrite bind_ret. by apply Sender_pong_sends.
Qed.

(** The layout of a frame with FIN and without RSV1 *)
Lemma frame_layout (o : FrameOptions) (L : Z) (key masked : list Z) :
  fin o = true → rsv1 o = false → 0 ≤ frame_opcode o < 16 →
  0 ≤ L ≤ 4294967295 → length key = 4%nat →
  let frame := frame_header o L key ++ masked in
  Frame.isFin frame = true ∧ Frame.opcode frame = frame_opcode o
  ∧ Frame.isMasked frame = true ∧ wire_length frame = L
  ∧ take 4 (drop (wire_offset frame) frame) = key
  ∧ drop (wire_offset frame + 4) frame = masked.
Proof.
  intros Hfin Hrsv Hopc HL Hkey frame. subst frame.
  destruct key as [|k0 [|k1 [|k2 [|k3 [|]]]]]; try done.
  unfold frame_header. rewrite Hfin, Hrsv.
  set (first := js_or (Some (frame_opcode o)) (Some 128) mod 256).
  destruct (Z.leb_spec 65536 L) as [Hbig|Hbig];
    [|destruct (Z.ltb_spec 125 L) as [Hmid|Hsmall]]; cbn [app].
  - destruct (first_byte_fields _ Hopc
      (255 :: 0 :: 0 :: 0 :: 0 :: (L / 16777216) mod 256 :: (L / 65536) mod 256
         :: (L / 256) mod 256 :: L mod 256 :: k0 :: k1 :: k2 :: k3 :: masked))
      as [H1 H2].
    destruct (long_length_field L ltac:(lia) first (k0 :: k1 :: k2 :: k3 :: masked))
      as (Hmasked & Hlen & Hbe).
    fold first in H1, H2.
    unfold wire_length, wire_offset. rewrite Hlen. cbn [Z.eqb Pos.eqb].
    by repeat split.
  - destruct (first_byte_fields _ Hopc
      (254 :: (L / 256) mod 256 :: L mod 256 :: k0 :: k1 :: k2 :: k3 :: masked))
      as [H1 H2].
    destruct (extended_length_field L ltac:(lia) first (k0 :: k1 :: k2 :: k3 :: masked))
      as (Hmasked & Hlen & Hdata).
    fold first in H1, H2.
    unfold wire_length, wire_offset. rewrite Hlen. cbn [Z.eqb Pos.eqb].
    by repeat split.
  - destruct (first_byte_fields _ Hopc
      (js_or (Some (L mod 256)) (Some 128) mod 256 :: k0 :: k1 :: k2 :: k3 :: masked))
      as [H1 H2].
    destruct (short_length_field L ltac:(lia) first (k0 :: k1 :: k2 :: k3 :: masked))
      as (Hmasked & Hlen).
    fold first in H1, H2.
    unfold wire_length, wire_offset, Frame.payloadDataLength. rewrite Hlen.
    destruct (Z.eqb_spec L 127); [lia|]. destruct (Z.eqb_spec L 126); [lia|].
    by repeat split.
Qed.

Lemma next_key_length s : length (next_key s) = 4%nat.
Proof. reflexivity. Qed.

(** X5: [pong(data)] on an open connection, for data that is [undefined], a
    string or a buffer: one pong frame with FIN and the MASK bit is
    written, the next four random bytes are its mask key and its payload
    is the data XOR-ed with that key.  The masking is done on a copy:
    every buffer that existed before the call has its contents
    unchanged. *)
Theorem pong_sends_a_masked_copy (s : WebSocket) (d : JsData) (masking : option bool)
    (cb : Callback) :
  readyState s = OPEN → sender s ≠ None → length (mask s) = 4%nat →
  let payload := data_bytes (heap s) d in
  Buffer.is_bytes payload → Buffer.length payload ≤ 4294967295 →
  let s' := state_after (pong d masking cb) s in
  outcome (pong d masking cb) s = Normal tt
  ∧ (∃ frame,
       trace s' = trace s ++ [SocketWrite frame]
       ∧ Frame.isFin frame = true ∧ Frame.opcode frame = OpcodePong
       ∧ Frame.isMasked frame = true ∧ wire_length frame = Buffer.length payload
       ∧ take 4 (drop (wire_offset frame) frame) = next_key s
       ∧ mask_spec (next_key s) (drop (wire_offset frame + 4) frame) = payload)
  ∧ (∀ l, is_Some (heap s !! l) → heap s' !! l = heap s !! l).
Proof.
  intros Hopen Hsender Hm payload Hb Hmax s'. subst s'.
  destruct (pong_sends s d masking cb payload Hopen Hsender Hm eq_refl Hmax)
    as (s' & Hrun & Ht & Hp & Honly).
  unfold outcome, state_after. rewrite Hrun. cbn [fst snd].
  split; [done|]. split; [|apply Honly].
  eexists. split; [exact Ht|].
  assert (0 ≤ Buffer.length payload) by (unfold Buffer.length; lia).
  unfold pong_frame.
  edestruct (frame_layout {| data := data_undefined; frame_opcode := OpcodePong;
                             fin := true; rsv1 := false |}
               (Buffer.length payload) (next_key s)
               (imap (masked_byte (next_key s)) payload))
    as (H1 & H2 & H3 & H4 & H5 & H6); [done|done|done|lia|done|].
  repeat (split; [done|]).
  rewrite H6, (masked_is_mask_spec _ _ (next_key_is_bytes s) Hb).
  apply mask_spec_twice.
Qed.

Lemma pong_sends_a_masked_copy_witness :
  let s' := state_after (pong (data_buffer 0) None cb_undefined) example_open in
  (readyState example_open = OPEN ∧ sender example_open ≠ None
   ∧ data_bytes (heap example_open) (data_buffer 0) = [1; 2; 3])
  ∧ outcome (pong (data_buffer 0) None cb_undefined) example_open = Normal tt
  ∧ (∃ frame,
       trace s' = trace example_open ++ [SocketWrite frame]
       ∧ Frame.isFin frame = true ∧ Frame.opcode frame = OpcodePong
       ∧ Frame.isMasked frame = true
       ∧ wire_length frame
         = Buffer.length (data_bytes (heap example_open) (data_buffer 0))
       ∧ take 4 (drop (wire_offset frame) frame) = next_key example_open
       ∧ mask_spec (next_key example_open) (drop (wire_offset frame + 4) frame)
         = data_bytes (heap example_open) (data_buffer 0))
  ∧ (∀ l, is_Some (heap example_open !! l) → heap s' !! l = heap example_open !! l).
Proof.
  assert (readyState example_open = OPEN) as H1 by reflexivity.
  assert (sender example_open ≠ None) as H2 by (by vm_compute).
  assert (length (mask example_open) = 4%nat) as H3 by reflexivity.
  assert (Buffer.is_bytes (data_bytes (heap example_open) (data_buffer 0))) as H4
    by (by apply is_bytesb_spec; vm_compute).
  assert (Buffer.length (data_bytes (heap example_open) (data_buffer 0)) ≤ 4294967295)
    as H5 by (by vm_compute).
  cbv zeta. split; [repeat (first [assumption | split]); first [reflexivity | done]|].
  exact (pong_sends_a_masked_copy example_open (data_buffer 0) None cb_undefined
           H1 H2 H3 H4 H5).
Defined.

Lemma write_complete_last (s : WebSocket) (p : list Callback) (cb : Callback) :
  pending s = p ++ [cb] →
  handle (write_complete (length p)) s = run_callback cb (set_pending p s).
Proof.
  intros Hp. cbn [handle]. rewrite bind_read, Hp.
  rewrite list_lookup_middle by done. cbv iota. rewrite bind_update.
  by rewrite Hp, delete_middle, app_nil_r.
Qed.

(** X6: the callback given to [pong] is not called for a pong that was
    sent.  [Sender.pong] has the parameters [(data, cb)] and is called with
    [(data, mask, cb)], so what waits for the completion of the write is
    the mask.  When the write completes nothing is reported to the
    application, and unless the mask was given as [false] the completion
    ends in the [TypeError] of calling a boolean. *)
Theorem pong_drops_its_callback (s : WebSocket) (d : JsData) (masking : option bool)
    (cb : option nat) :
  readyState s = OPEN → sender s ≠ None → length (mask s) = 4%nat →
  Buffer.length (data_bytes (heap s) d) ≤ 4294967295 →
  let s1 := step s (call_pong d masking cb) in
  let written := write_complete (length (pending s)) in
  pending s1 = pending s ++ [cb_boolean (default true masking)]
  ∧ outcome (handle written) s1 =
      (if default true masking then Throw (TypeError "cb is not a function")
       else Normal tt)
  ∧ trace (step s1 written) = trace s1
  ∧ pending (step s1 written) = pending s.
Proof.
  intros Hopen Hsender Hm Hmax s1 written.
  destruct (pong_sends s d masking (callback cb) _ Hopen Hsender Hm eq_refl Hmax)
    as (s' & Hrun & Ht & Hp & Honly).
  assert (s1 = s') as -> by (subst s1; unfold step, state_after; cbn [handle];
                             by rewrite Hrun).
  split; [exact Hp|]. subst written.
  unfold step, state_after, outcome.
  rewrite (write_complete_last s' _ _ Hp).
  by destruct (default true masking).
Qed.

Lemma pong_drops_its_callback_witness :
  let s1 := step example_open (call_pong (data_buffer 0) None (Some 7%nat)) in
  let written := write_complete (length (pending example_open)) in
  (readyState example_open = OPEN ∧ sender example_open ≠ None)
  ∧ pending s1 = pending example_open ++ [cb_boolean (default true None)]
  ∧ outcome (handle written) s1 =
      (if default true None then Throw (TypeError "cb is not a function")
       else Normal tt)
  ∧ trace (step s1 written) = trace s1
  ∧ pending (step s1 written) = pending example_open.
Proof.
  assert (readyState example_open = OPEN) as H1 by reflexivity.
  assert (sender example_open ≠ None) as H2 by (by vm_compute).
  assert (length (mask example_open) = 4%nat) as H3 by reflexivity.
  assert (Buffer.length (data_bytes (heap example_open) (data_buffer 0)) ≤ 4294967295)
    as H4 by (by vm_compute).
  cbv zeta. split; [repeat (first [assumption | split]); first [reflexivity | done]|].
  exact (pong_drops_its_callback example_open (data_buffer 0) None (Some 7%nat)
           H1 H2 H3 H4).
Defined.

(** X7: the callback given to [send] is called, without an error, when the
    write of the frame completes and not before: the call of [send] adds
    the write to the trace and nothing else. *)
Theorem send_calls_back_when_written (s : WebSocket) (l : nat) (payload : list Z)
    (firstFragment : bool) (options : SendOptions) (id : nat) :
  readyState s = OPEN → sender s = Some firstFragment →
  heap s !! l = Some payload → length (mask s) = 4%nat →
  Buffer.length payload ≤ 4294967295 →
  let s1 := step s (call_send (data_buffer l) options (Some id)) in
  let written := write_complete (length (pending s)) in
  (∃ frame, trace s1 = trace s ++ [SocketWrite frame])
  ∧ trace (step s1 written) = trace s1 ++ [Call id None]
  ∧ pending (step s1 written) = pending s.
Proof.
  intros Hopen Hsender Hl Hm Hmax s1 written.
  assert (pending s1 = pending s ++ [cb_function id]
          ∧ ∃ frame, trace s1 = trace s ++ [SocketWrite frame]) as [Hp Ht].
  { subst s1. unfold step, state_after. cbn [handle callback].
    unfold send. rewrite bind_read, Hopen.
    change (OPEN =? CONNECTING) with false. change (negb (OPEN =? OPEN)) with false.
    cbv iota. rewrite bind_read, Hsender. cbv iota. unfold Sender.send.
    destruct firstFragment;
      [rewrite bind_bind, bind_update, bind_ret|rewrite bind_ret]; cbv beta iota;
      (destruct (default true (opt_fin options)); cbn [when];
       [rewrite bind_update|rewrite bind_ret]);
      (rewrite (frame_and_send _ l payload); [|done..]);
      cbn; eauto. }
  split; [exact Ht|]. subst written. clearbody s1. unfold step, state_after.
  by rewrite (write_complete_last s1 _ _ Hp).
Qed.

Lemma send_calls_back_when_written_witness :
  let s1 := step example_open (call_send (data_buffer 0) no_options (Some 7%nat)) in
  let written := write_complete (length (pending example_open)) in
  (readyState example_open = OPEN ∧ sender example_open = Some true
   ∧ heap example_open !! 0%nat = Some [1; 2; 3])
  ∧ (∃ frame, trace s1 = trace example_open ++ [SocketWrite frame])
  ∧ trace (step s1 written) = trace s1 ++ [Call 7 None]
  ∧ pending (step s1 written) = pending example_open.
Proof.
  assert (readyState example_open = OPEN) as H1 by reflexivity.
  assert (sender example_open = Some true) as H2 by reflexivity.
  assert (heap example_open !! 0%nat = Some [1; 2; 3]) as H3 by reflexivity.
  assert (length (mask example_open) = 4%nat) as H4 by reflexivity.
  assert (Buffer.length [1; 2; 3] ≤ 4294967295) as H5 by (by vm_compute).
  cbv zeta. split; [repeat (first [assumption | split]); first [reflexivity | done]|].
  exact (send_calls_back_when_written example_open 0 [1; 2; 3] true no_options 7
           H1 H2 H3 H4 H5).
Defined.

Lemma payloadDataLength_range (buffer : list Z) :
  Buffer.is_bytes buffer → 0 ≤ Frame.payloadDataLength buffer ≤ 65535.
Proof.
  intros Hb. destruct (decide (Frame.payloadLength buffer = 126)) as [H126|Hne].
  - rewrite payloadDataLength_126 by done.
    pose proof (toInt32_get_byte buffer 2 Hb).
    pose proof (toInt32_get_byte buffer 3 Hb). lia.
  - unfold Frame.payloadDataLength.
    destruct (Z.eqb_spec (Frame.payloadLength buffer) 126); [done|].
    pose proof (payloadLength_range buffer Hb). lia.
Qed.

Lemma frame_payload_is_bytes (buffer : list Z) :
  Buffer.is_bytes buffer → Buffer.is_bytes (frame_payload buffer).
Proof.
  unfold Buffer.is_bytes, frame_payload. intros Hb.
  by apply Forall_take, Forall_drop.
Qed.

Lemma frame_payload_length (buffer : list Z) :
  Buffer.is_bytes buffer → Buffer.length (frame_payload buffer) ≤ 65535.
Proof.
  intros Hb. pose proof (payloadDataLength_range buffer Hb).
  unfold Buffer.length, frame_payload. rewrite length_take. lia.
Qed.

(** X8: a ping frame (FIN, no mask, complete in the chunk) that arrives on
    an open connection while no message is open is answered with one pong
    frame whose masked payload is the payload of the ping; then ['ping'] is
    emitted with that payload.  The response stack is empty again and the
    connection stays OPEN; in the callback position of the write stands
    the boolean [!isServer]. *)
Theorem ping_is_answered_with_a_pong (s : WebSocket) (buffer : list Z) :
  readyState s = OPEN → sender s ≠ None → length (mask s) = 4%nat →
  responseStack s = [] → Buffer.is_bytes buffer →
  Frame.opcode buffer = OpcodePing → Frame.isFin buffer = true →
  Frame.isMasked buffer = false → Frame.payloadLength buffer ≠ 127 →
  Frame.payloadDataOffset buffer + Frame.payloadDataLength buffer
    ≤ Buffer.length buffer →
  let payload := frame_payload buffer in
  let s' := state_after (processDataFrame buffer) s in
  (∃ frame,
     trace s' = trace s ++ [SocketWrite frame; Emit "ping" (ev_buffer payload)]
     ∧ Frame.isFin frame = true ∧ Frame.opcode frame = OpcodePong
     ∧ Frame.isMasked frame = true ∧ wire_length frame = Buffer.length payload
     ∧ mask_spec (take 4 (drop (wire_offset frame) frame))
                 (drop (wire_offset frame + 4) frame) = payload)
  ∧ pending s' = pending s ++ [cb_boolean (negb (isServer s))]
  ∧ responseStack s' = [] ∧ readyState s' = OPEN.
Proof.
  intros Hopen Hsender Hm Hstack Hb Hop Hfin Hmasked H127 Hcomplete payload s'.
  subst s'. unfold state_after.
  rewrite processDataFrame_new; try done.
  2:{ by rewrite Hfin, andb_false_r. }
  rewrite Hop, Hfin. fold payload. rewrite bind_update.
  set (response := {| isFin := true; opcode := OpcodePing; bytesLeft := 0;
                      frameCount := 1; buffer := payload |}).
  unfold processResponse. cbn [isFin bytesLeft opcode response].
  change (true && (0 <=? 0)) with true. cbn [when].
  change (OpcodePing =? OpcodePing) with true. cbv iota.
  unfold Sender.new_buffer. run_m.
  set (s1 := set_responseStack [response] s).
  set (l := fresh (dom (heap s1))).
  set (s2 := set_heap (<[l := payload]> (heap s1)) s1).
  destruct (pong_sends s2 (data_buffer l) (Some (negb (isServer s2))) NOOP payload)
    as (s3 & Hrun & Ht & Hp & Honly); [done|done|done| | |].
  { cbn. by rewrite lookup_insert_eq. }
  { pose proof (frame_payload_length buffer Hb) as Hle. fold payload in Hle. lia. }
  rewrite (bind_Normal _ _ _ _ _ Hrun). run_m.
  destruct Honly as (H1 & H2 & H3 & H4 & H5 & H6 & H7 & H8).
  rewrite H8 by (cbn; rewrite lookup_insert_eq; by eexists).
  change (heap s2 !! l) with (<[l := payload]> (heap s1) !! l).
  rewrite lookup_insert_eq. cbn [default from_option id].
  unfold emitEvent, perform. emit_name. run_m.
  unfold ret.
  cbn [fst snd trace pending responseStack readyState set_trace set_responseStack].
  rewrite Ht, Hp, H1, H2.
  change (trace s2) with (trace s). change (pending s2) with (pending s).
  change (next_key s2) with (next_key s). change (readyState s2) with (readyState s).
  change (responseStack s2) with [response].
  split; [|done].
  eexists. split; [by rewrite <- app_assoc|].
  assert (0 ≤ Buffer.length payload) by (unfold Buffer.length; lia).
  pose proof (frame_payload_length buffer Hb) as Hle. fold payload in Hle.
  unfold pong_frame.
  edestruct (frame_layout {| data := data_undefined; frame_opcode := OpcodePong;
                             fin := true; rsv1 := false |}
               (Buffer.length payload) (next_key s)
               (imap (masked_byte (next_key s)) payload))
    as (F1 & F2 & F3 & F4 & F5 & F6); [done|done|done|lia|done|].
  repeat (split; [done|]).
  rewrite F5, F6, (masked_is_mask_spec _ _ (next_key_is_bytes s));
    [|by apply frame_payload_is_bytes].
  apply mask_spec_twice.
Qed.

Lemma ping_is_answered_with_a_pong_witness :
  let chunk := [0x89; 2; 104; 105] in
  let s' := state_after (processDataFrame chunk) example_open in
  (readyState example_open = OPEN ∧ responseStack example_open = []
   ∧ Frame.opcode chunk = OpcodePing ∧ frame_payload chunk = [104; 105])
  ∧ (∃ frame,
       trace s' = trace example_open
                    ++ [SocketWrite frame; Emit "ping" (ev_buffer (frame_payload chunk))]
       ∧ Frame.isFin frame = true ∧ Frame.opcode frame = OpcodePong
       ∧ Frame.isMasked frame = true
       ∧ wire_length frame = Buffer.length (frame_payload chunk)
       ∧ mask_spec (take 4 (drop (wire_offset frame) frame))
                   (drop (wire_offset frame + 4) frame) = frame_payload chunk)
  ∧ pending s' = pending example_open ++ [cb_boolean (negb (isServer example_open))]
  ∧ responseStack s' = [] ∧ readyState s' = OPEN.
Proof.
  assert (readyState example_open = OPEN) as H1 by reflexivity.
  assert (sender example_open ≠ None) as H2 by (by vm_compute).
  assert (length (mask example_open) = 4%nat) as H3 by reflexivity.
  assert (responseStack example_open = []) as H4 by reflexivity.
  assert (Buffer.is_bytes [0x89; 2; 104; 105]) as H5
    by (by apply is_bytesb_spec; vm_compute).
  assert (Frame.payloadLength [0x89; 2; 104; 105] ≠ 127) as H6 by (by vm_compute).
  assert (Frame.payloadDataOffset [0x89; 2; 104; 105]
          + Frame.payloadDataLength [0x89; 2; 104; 105]
          ≤ Buffer.length [0x89; 2; 104; 105]) as H7 by (by vm_compute).
  cbv zeta. split; [repeat (first [assumption | split]); first [reflexivity | done]|].
  exact (ping_is_answered_with_a_pong example_open [0x89; 2; 104; 105]
           H1 H2 H3 H4 H5 eq_refl eq_refl eq_refl H6 H7).
Defined.

Lemma update_last_one (f : WebSocketResponse → WebSocketResponse) r s :
  responseStack s = [r] →
  update_last f s = (set_responseStack [f r] s, Normal tt).
Proof. intros H. unfold update_last, update. by rewrite H. Qed.

Lemma bind_update_last {B} (f : WebSocketResponse → WebSocketResponse)
    (k : unit → M B) r s :
  responseStack s = [r] →
  bind (update_last f) k s = k tt (set_responseStack [f r] s).
Proof. intros H. unfold bind. by rewrite (update_last_one f r s H). Qed.

Lemma next_frame_complete (s : WebSocket) (buffer : list Z) :
  Buffer.is_bytes buffer →
  Frame.payloadDataOffset buffer + Frame.payloadDataLength buffer
    ≤ Buffer.length buffer →
  (do nextFrame ← lift (Buffer.alloc (Buffer.length buffer
       - (Frame.payloadDataOffset buffer + Frame.payloadDataLength buffer)));
   do copied ← lift (Buffer.copy buffer nextFrame 0
       (Frame.payloadDataOffset buffer + Frame.payloadDataLength buffer)
       (Buffer.length buffer));
   ret (js_number copied.2)) s
  = (s, Normal (js_number (Buffer.length buffer - Frame.payloadDataOffset buffer
                           - Frame.payloadDataLength buffer))).
Proof.
  intros Hb Hcomplete.
  pose proof (payloadDataLength_nonneg buffer Hb) as Hlen.
  assert (2 ≤ Frame.payloadDataOffset buffer) as Hoff
    by (unfold Frame.payloadDataOffset; destruct (_ =? _); lia).
  unfold Buffer.alloc.
  destruct (Z.ltb_spec (Buffer.length buffer - (Frame.payloadDataOffset buffer
              + Frame.payloadDataLength buffer)) 0); [lia|].
  rewrite bind_lift.
  destruct (copy_rest buffer (Frame.payloadDataOffset buffer
              + Frame.payloadDataLength buffer) ltac:(lia)) as [bytes Hcopy].
  rewrite Hcopy, bind_lift. unfold ret. cbn [snd]. do 3 f_equal. lia.
Qed.

(** A continuation frame that is complete in the buffer, while a message
    is open: its payload is added to the message *)
Lemma processDataFrame_continue (s : WebSocket) (chunk : list Z) (r : WebSocketResponse) :
  responseStack s = [r] → Buffer.is_bytes chunk →
  Frame.opcode chunk = OpcodeContinueFrame →
  Frame.isMasked chunk = false → Frame.payloadLength chunk ≠ 127 →
  Frame.payloadDataOffset chunk + Frame.payloadDataLength chunk
    ≤ Buffer.length chunk →
  let response :=
    {| isFin := Frame.isFin chunk; opcode := opcode r; bytesLeft := 0;
       frameCount := frameCount r + 1;
       buffer := buffer r ++ frame_payload chunk |} in
  processDataFrame chunk s =
    (update (set_responseStack [response]);;
     processResponse response;;
     ret (js_number (Buffer.length chunk - Frame.payloadDataOffset chunk
                      - Frame.payloadDataLength chunk))) s.
Proof.
  intros Hstack Hb Hop Hmasked H127 Hcomplete response.
  unfold processDataFrame. rewrite bind_read, Hmasked.
  unfold Frame.isControlFrame. rewrite Hop.
  change (OpcodeContinueFrame =? OpcodeConnectionClose) with false.
  change (OpcodeContinueFrame =? OpcodePing) with false.
  destruct (Z.eqb_spec (Frame.payloadLength chunk) 127); [done|].
  cbn [orb andb]. cbv iota.
  pose proof (payloadDataLength_nonneg chunk Hb) as Hlen.
  assert (2 ≤ Frame.payloadDataOffset chunk) as Hoff
    by (unfold Frame.payloadDataOffset; destruct (_ =? _); lia).
  unfold Buffer.alloc at 1.
  destruct (Z.ltb_spec (Frame.payloadDataLength chunk) 0); [lia|].
  rewrite bind_lift. rewrite copy_range by lia. rewrite bind_lift.
  cbn [fst]. fold (frame_payload chunk).
  unfold Frame.framePayloadDataLength.
  destruct (Z.ltb_spec (Buffer.length chunk) (Frame.payloadDataLength chunk)); [lia|].
  rewrite Hstack. change (ResponseStack.last [r]) with (Some r). cbv iota.
  change (OpcodeContinueFrame =? OpcodeContinueFrame) with true. cbv iota.
  rewrite !bind_bind.
  rewrite (bind_update_last _ _ r s Hstack).
  do 4 (rewrite ?bind_bind; erewrite bind_update_last by reflexivity).
  rewrite bind_read. rewrite bind_update.
  cbn [responseStack set_responseStack].
  change (ResponseStack.last [?x]) with (Some x). cbn [default from_option id].
  unfold append_buffer, set_isFin, set_frameCount, set_bytesLeft, set_buffer.
  cbn [isFin opcode bytesLeft frameCount buffer].
  rewrite concat_2, Z.sub_diag. fold response.
  assert (∀ s1 s2, s1 = s2 → ∀ m : M JsReturn, m s1 = m s2) as Hcong
    by (by intros ?? ->).
  unfold bind at 1. unfold bind at 3.
  replace (set_responseStack [response] (set_responseStack _ _))
    with (set_responseStack [response] s) by done.
  destruct (processResponse response _) as [s' [[]|e]]; [|done].
  by apply next_frame_complete.
Qed.

Lemma deliver_complete_frame (s : WebSocket) (buffer : list Z) :
  readyState s ≠ CONNECTING → complete_frame buffer →
  handle (pump (pump_data buffer)) s =
    (do r ← processDataFrame buffer;
     match r with
     | js_undefined => throw (TypeError "Cannot read property 'length' of undefined")
     | js_number _ => ret tt
     end) s.
Proof.
  intros Hstate (Hb & Hmasked & H127 & Hcomplete).
  cbn [handle processInputStream]. rewrite bind_read.
  destruct (Z.eqb_spec (readyState s) CONNECTING); [done|].
  unfold processDataFramesInBuffer.
  pose proof (payloadDataLength_nonneg buffer Hb) as Hlen.
  assert (2 ≤ Frame.payloadDataOffset buffer) as Hoff
    by (unfold Frame.payloadDataOffset; destruct (_ =? _); lia).
  by destruct (Z.leb_spec 2 (Buffer.length buffer)); [|lia].
Qed.

Lemma processResponse_open (response : WebSocketResponse) (s : WebSocket) :
  isFin response = false → processResponse response s = (s, Normal tt).
Proof. intros H. unfold processResponse. by rewrite H. Qed.

Lemma processResponse_message (response : WebSocketResponse) (s : WebSocket) :
  isFin response = true → bytesLeft response ≤ 0 →
  opcode response = OpcodeTextFrame ∨ opcode response = OpcodeBinaryFrame →
  processResponse response s =
    (set_responseStack (ResponseStack.pop (responseStack s))
       (set_trace (trace s ++ [Emit "message"
                     (message_event (opcode response) (buffer response))]) s),
     Normal tt).
Proof.
  intros Hfin Hleft Hop. unfold processResponse. rewrite Hfin.
  destruct (Z.leb_spec (bytesLeft response) 0); [|lia]. cbn [andb when].
  unfold message_event.
  by destruct Hop as [-> | ->].
Qed.

Lemma first_fragment (s : WebSocket) (buffer : list Z) :
  readyState s ≠ CONNECTING → responseStack s = [] →
  complete_frame buffer → Frame.isFin buffer = false →
  Frame.opcode buffer = OpcodeTextFrame ∨ Frame.opcode buffer = OpcodeBinaryFrame →
  step s (pump (pump_data buffer)) =
    set_responseStack
      [{| isFin := false; opcode := Frame.opcode buffer; bytesLeft := 0;
          frameCount := 1; buffer := frame_payload buffer |}] s.
Proof.
  intros Hstate Hstack Hframe Hfin Hop. unfold step, state_after.
  rewrite deliver_complete_frame by done.
  destruct Hframe as (Hb & Hmasked & H127 & Hcomplete).
  unfold bind at 1.
  rewrite processDataFrame_new; [|try done; try lia..].
  2:{ unfold Frame.isControlFrame. by destruct Hop as [-> | ->]. }
  rewrite bind_update, Hfin.
  erewrite bind_Normal; [|by apply processResponse_open]. done.
Qed.

Lemma next_fragment (s : WebSocket) (chunk : list Z) (r : WebSocketResponse)
    (final : bool) :
  readyState s ≠ CONNECTING → responseStack s = [r] →
  fragment final chunk →
  opcode r = OpcodeTextFrame ∨ opcode r = OpcodeBinaryFrame →
  step s (pump (pump_data chunk)) =
    if final then
      set_trace (trace s ++ [Emit "message"
        (message_event (opcode r) (buffer r ++ frame_payload chunk))]) 
        (set_responseStack [] s)
    else
      set_responseStack
        [{| isFin := false; opcode := opcode r; bytesLeft := 0;
            frameCount := frameCount r + 1;
            buffer := buffer r ++ frame_payload chunk |}] s.
Proof.
  intros Hstate Hstack (Hframe & Hop & Hfin) Hr. unfold step, state_after.
  rewrite deliver_complete_frame by done.
  destruct Hframe as (Hb & Hmasked & H127 & Hcomplete).
  unfold bind at 1.
  rewrite (processDataFrame_continue s chunk r); [|try done; try lia..].
  rewrite bind_update, Hfin.
  destruct final.
  - erewrite bind_Normal; [|by apply processResponse_message]. done.
  - erewrite bind_Normal; [|by apply processResponse_open]. done.
Qed.

Lemma fragments_after_the_first (middle : list (list Z)) (last : list Z) :
  ∀ (s : WebSocket) (r : WebSocketResponse),
  readyState s ≠ CONNECTING → responseStack s = [r] →
  opcode r = OpcodeTextFrame ∨ opcode r = OpcodeBinaryFrame →
  Forall (fragment false) middle → fragment true last →
  run s (deliver (middle ++ [last])) =
    set_trace (trace s ++ [Emit "message"
      (message_event (opcode r)
         (buffer r ++ concat (frame_payload <$> middle) ++ frame_payload last))])
      (set_responseStack [] s).
Proof.
  induction middle as [|b middle IH]; intros s r Hstate Hstack Hr Hmiddle Hlast.
  - cbn [app deliver fmap list_fmap run foldl concat].
    by rewrite (next_fragment s last r true).
  - apply Forall_cons in Hmiddle as [Hb Hmiddle].
    cbn [app deliver fmap list_fmap run foldl].
    rewrite (next_fragment s b r false) by done.
    fold (deliver (middle ++ [last])).
    change (foldl step ?s0 ?inputs) with (run s0 inputs).
    erewrite IH; [|exact Hstate|reflexivity|exact Hr|exact Hmiddle|exact Hlast].
    cbn [opcode buffer trace set_responseStack set_trace concat fmap list_fmap].
    by rewrite <- !app_assoc.
Qed.

(** X9: a message that arrives in fragments, one unmasked frame in every
    chunk (a text or binary frame without FIN, any number of continuation
    frames without FIN, a continuation frame with FIN), is dispatched
    once, after the last fragment: one ['message'] with the payloads
    concatenated in the order of arrival, a string for a text message
    (whose bytes together are well-formed UTF-8) and a buffer for a binary
    one.  The response stack is empty again. *)
Theorem fragments_are_reassembled (s : WebSocket) (first : list Z)
    (middle : list (list Z)) (last : list Z) :
  readyState s ≠ CONNECTING → responseStack s = [] →
  complete_frame first → Frame.isFin first = false →
  Frame.opcode first = OpcodeTextFrame ∨ Frame.opcode first = OpcodeBinaryFrame →
  Forall (fragment false) middle → fragment true last →
  let s' := run s (deliver (first :: middle ++ [last])) in
  let data := frame_payload first ++ concat (frame_payload <$> middle)
                ++ frame_payload last in
  decodable (Frame.opcode first) data →
  trace s' = trace s ++ [Emit "message" (message_event (Frame.opcode first) data)]
  ∧ responseStack s' = [] ∧ readyState s' = readyState s.
Proof.
  intros Hstate Hstack Hfirst Hfin Hop Hmiddle Hlast s' data _. subst s'.
  cbn [deliver fmap list_fmap run foldl].
  rewrite first_fragment by done.
  fold (deliver (middle ++ [last])). change (foldl step ?s0 ?inputs) with (run s0 inputs).
  erewrite fragments_after_the_first;
    [|exact Hstate|reflexivity|exact Hop|exact Hmiddle|exact Hlast].
  done.
Qed.

Lemma fragments_are_reassembled_witness :
  let first := [0x01; 1; 97] in
  let middle := [[0x00; 2; 98; 99]] in
  let last := [0x80; 1; 100] in
  let s' := run example_open (deliver (first :: middle ++ [last])) in
  (readyState example_open ≠ CONNECTING ∧ responseStack example_open = []
   ∧ complete_frame first ∧ Forall (fragment false) middle ∧ fragment true last
   ∧ decodable OpcodeTextFrame [97; 98; 99; 100])
  ∧ trace s' = trace example_open ++ [Emit "message" (ev_message_string "abcd")]
  ∧ responseStack s' = [] ∧ readyState s' = readyState example_open.
Proof.
  assert (∀ b, Buffer.is_bytesb b = true → Frame.isMasked b = false →
               Frame.payloadLength b ≠ 127 →
               Frame.payloadDataOffset b + Frame.payloadDataLength b = Buffer.length b →
               complete_frame b) as Hc.
  { intros b H1 H2 H3 H4. split; [by apply is_bytesb_spec|done]. }
  assert (readyState example_open ≠ CONNECTING) as H1 by (by vm_compute).
  assert (responseStack example_open = []) as H2 by reflexivity.
  assert (complete_frame [0x01; 1; 97]) as H3 by (by apply Hc; vm_compute).
  assert (Forall (fragment false) [[0x00; 2; 98; 99]]) as H4.
  { apply Forall_cons. split; [|apply Forall_nil_2].
    split; [by apply Hc; vm_compute|by vm_compute]. }
  assert (fragment true [0x80; 1; 100]) as H5.
  { split; [by apply Hc; vm_compute|by vm_compute]. }
  assert (decodable OpcodeTextFrame [97; 98; 99; 100]) as H6 by (intros _; reflexivity).
  cbv zeta. split; [repeat (first [assumption | split]); first [reflexivity | done]|].
  exact (fragments_are_reassembled example_open [0x01; 1; 97] [[0x00; 2; 98; 99]]
           [0x80; 1; 100] H1 H2 H3 eq_refl (or_introl eq_refl) H4 H5 H6).
Defined.

(** Copying a range that ends behind the source into a fresh buffer: the
    bytes that are there are copied, the rest stays zero *)
Lemma copy_clipped (source : list Z) (start n : Z) :
  0 ≤ start ≤ Buffer.length source → Buffer.length source < start + n →
  Buffer.copy source (replicate (Z.to_nat n) 0) 0 start (start + n)
    = Normal (drop (Z.to_nat start) source
                ++ replicate (Z.to_nat (start + n - Buffer.length source)) 0,
              Buffer.length source - start).
Proof.
  intros Hstart Hn. unfold Buffer.copy, Buffer.length in *.
  rewrite length_replicate.
  assert (0 < n) as Hpos by lia. rewrite (Z2Nat.id n) by lia.
  destruct (Z.leb_spec n 0); [exfalso; lia|].
  destruct (Z.leb_spec (start + n) start); [exfalso; lia|]. cbn [orb].
  destruct (Z.ltb_spec (Z.of_nat (length source)) start); [exfalso; lia|].
  rewrite (Z.min_r (start + n)) by lia. rewrite Z.sub_0_r, Z.add_0_l.
  rewrite (Z.min_l _ n) by lia.
  change (Z.to_nat 0) with 0%nat. rewrite take_0. cbn [app].
  rewrite take_ge by (rewrite length_drop; lia).
  rewrite drop_replicate.
  by replace (Z.to_nat n - Z.to_nat (Z.of_nat (length source) - start))%nat
    with (Z.to_nat (start + n - Z.of_nat (length source))) by lia.
Qed.

(** X10: a frame whose declared payload length is greater than the length
    of the whole chunk is kept as an unfinished response: its buffer holds
    the payload bytes that have arrived, followed by zeros up to the
    declared length, and [bytesLeft] is the number of bytes that are
    missing.  Nothing is emitted, also for a frame with FIN, and
    [processDataFrame] returns 0. *)
Theorem partial_frame_is_kept (s : WebSocket) (buffer : list Z) :
  responseStack s = [] → Buffer.is_bytes buffer →
  Frame.isMasked buffer = false →
  Frame.isControlFrame buffer && negb (Frame.isFin buffer) = false →
  Frame.payloadLength buffer ≠ 127 →
  Frame.payloadDataOffset buffer ≤ Buffer.length buffer →
  Buffer.length buffer < Frame.payloadDataLength buffer →
  let received := received_payload buffer in
  let missing := Frame.payloadDataLength buffer - Buffer.length received in
  processDataFrame buffer s =
    (set_responseStack
       [{| isFin := Frame.isFin buffer; opcode := Frame.opcode buffer;
           bytesLeft := missing; frameCount := 1;
           buffer := received ++ replicate (Z.to_nat missing) 0 |}] s,
     Normal (js_number 0)).
Proof.
  intros Hstack Hb Hmasked Hcontrol H127 Hoffset Hshort received missing.
  assert (2 ≤ Frame.payloadDataOffset buffer) as Hoff
    by (unfold Frame.payloadDataOffset; destruct (_ =? _); lia).
  assert (Buffer.length received
          = Buffer.length buffer - Frame.payloadDataOffset buffer) as Hreceived.
  { unfold received, received_payload, Buffer.length in *. rewrite length_drop. lia. }
  unfold processDataFrame. rewrite bind_read, Hstack, Hmasked, Hcontrol.
  change (ResponseStack.last []) with (@None WebSocketResponse). cbv iota.
  destruct (Z.eqb_spec (Frame.payloadLength buffer) 127); [done|].
  unfold Buffer.alloc at 1.
  destruct (Z.ltb_spec (Frame.payloadDataLength buffer) 0); [lia|].
  rewrite bind_lift. rewrite copy_clipped by lia. rewrite bind_lift.
  cbn [fst]. fold (received_payload buffer). fold received.
  unfold Frame.framePayloadDataLength.
  destruct (Z.ltb_spec (Buffer.length buffer) (Frame.payloadDataLength buffer)); [|lia].
  rewrite bind_bind, bind_update.
  cbn [responseStack set_responseStack]. rewrite Hstack.
  cbn [ResponseStack.push app]. rewrite bind_ret.
  replace (Frame.payloadDataLength buffer
           - (Buffer.length buffer - Frame.payloadDataOffset buffer))
    with missing by (unfold missing; lia).
  replace (Frame.payloadDataOffset buffer + Frame.payloadDataLength buffer
           - Buffer.length buffer) with missing by (unfold missing; lia).
  change (0 + 1) with 1.
  unfold processResponse. cbn [isFin bytesLeft].
  destruct (Z.leb_spec missing 0); [unfold missing in *; lia|].
  rewrite andb_false_r. cbn [when]. rewrite bind_ret.
  replace (Frame.payloadDataOffset buffer
           + (Buffer.length buffer - Frame.payloadDataOffset buffer))
    with (Buffer.length buffer) by lia.
  rewrite Z.sub_diag.
  change (Buffer.alloc 0) with (Normal (@nil Z)). rewrite bind_lift.
  unfold Buffer.copy. change (Buffer.length [] <=? 0) with true. cbn [orb].
  by rewrite bind_lift.
Qed.

Lemma partial_frame_is_kept_witness :
  let chunk := [0x81; 5; 104; 101] in
  (responseStack example_open = [] ∧ Frame.payloadDataLength chunk = 5
   ∧ Buffer.length chunk = 4)
  ∧ processDataFrame chunk example_open =
      (set_responseStack
         [{| isFin := true; opcode := OpcodeTextFrame; bytesLeft := 3;
             frameCount := 1; buffer := [104; 101; 0; 0; 0] |}] example_open,
       Normal (js_number 0)).
Proof.
  assert (responseStack example_open = []) as H1 by reflexivity.
  assert (Buffer.is_bytes [0x81; 5; 104; 101]) as H2
    by (by apply is_bytesb_spec; vm_compute).
  assert (Frame.payloadLength [0x81; 5; 104; 101] ≠ 127) as H3 by (by vm_compute).
  assert (Frame.payloadDataOffset [0x81; 5; 104; 101]
          ≤ Buffer.length [0x81; 5; 104; 101]) as H4 by (by vm_compute).
  assert (Buffer.length [0x81; 5; 104; 101]
          < Frame.payloadDataLength [0x81; 5; 104; 101]) as H5 by (by vm_compute).
  cbv zeta. split; [repeat (first [assumption | split]); first [reflexivity | done]|].
  exact (partial_frame_is_kept example_open [0x81; 5; 104; 101]
           H1 H2 eq_refl eq_refl H3 H4 H5).
Defined.

(** X11: a text or binary frame with FIN whose chunk ends before the
    payload does, while the declared payload length is not greater than
    the length of the chunk (header included): [processDataFrame] takes
    the frame for complete.  The message is dispatched with zeros in the
    place of the missing bytes (for a text frame: when the bytes so
    completed are well-formed UTF-8), the response is dropped, and the
    allocation of the next frame, with a negative size, throws a
    [RangeError]. *)
Theorem short_frame_is_padded (s : WebSocket) (buffer : list Z) :
  responseStack s = [] → Buffer.is_bytes buffer →
  Frame.isMasked buffer = false → Frame.isFin buffer = true →
  Frame.opcode buffer = OpcodeTextFrame ∨ Frame.opcode buffer = OpcodeBinaryFrame →
  Frame.payloadLength buffer ≠ 127 →
  Frame.payloadDataOffset buffer ≤ Buffer.length buffer →
  Frame.payloadDataLength buffer ≤ Buffer.length buffer →
  Buffer.length buffer
    < Frame.payloadDataOffset buffer + Frame.payloadDataLength buffer →
  let received := received_payload buffer in
  let missing := Frame.payloadDataLength buffer - Buffer.length received in
  let s' := state_after (processDataFrame buffer) s in
  decodable (Frame.opcode buffer) (received ++ replicate (Z.to_nat missing) 0) →
  trace s' = trace s ++ [Emit "message"
    (message_event (Frame.opcode buffer)
       (received ++ replicate (Z.to_nat missing) 0))]
  ∧ responseStack s' = []
  ∧ ∃ msg, outcome (processDataFrame buffer) s = Throw (RangeError msg).
Proof.
  intros Hstack Hb Hmasked Hfin Hop H127 Hoffset Hlong Hshort received missing s' _.
  assert (2 ≤ Frame.payloadDataOffset buffer) as Hoff
    by (unfold Frame.payloadDataOffset; destruct (_ =? _); lia).
  assert (Buffer.length received
          = Buffer.length buffer - Frame.payloadDataOffset buffer) as Hreceived.
  { unfold received, received_payload, Buffer.length in *. rewrite length_drop. lia. }
  assert (processDataFrame buffer s =
    (set_responseStack []
       (set_trace (trace s ++ [Emit "message"
          (message_event (Frame.opcode buffer)
             (received ++ replicate (Z.to_nat missing) 0))]) s),
     Throw (RangeError "The value of size is out of range"))) as Hrun.
  { unfold processDataFrame. rewrite bind_read, Hstack, Hmasked, Hfin.
    rewrite andb_false_r.
    change (ResponseStack.last []) with (@None WebSocketResponse). cbv iota.
    destruct (Z.eqb_spec (Frame.payloadLength buffer) 127); [done|].
    unfold Buffer.alloc at 1.
    destruct (Z.ltb_spec (Frame.payloadDataLength buffer) 0); [lia|].
    rewrite bind_lift. rewrite copy_clipped by lia. rewrite bind_lift.
    cbn [fst]. fold (received_payload buffer). fold received.
    unfold Frame.framePayloadDataLength.
    destruct (Z.ltb_spec (Buffer.length buffer) (Frame.payloadDataLength buffer)); [lia|].
    rewrite bind_bind, bind_update.
    cbn [responseStack set_responseStack]. rewrite Hstack.
    cbn [ResponseStack.push app]. rewrite bind_ret.
    replace (Frame.payloadDataOffset buffer + Frame.payloadDataLength buffer
             - Buffer.length buffer) with missing by (unfold missing; lia).
    rewrite Z.sub_diag.
    erewrite bind_Normal; [|by apply processResponse_message].
    unfold Buffer.alloc.
    destruct (Z.ltb_spec (Buffer.length buffer - (Frame.payloadDataOffset buffer
                + Frame.payloadDataLength buffer)) 0); [|lia].
    reflexivity. }
  subst s'. unfold state_after, outcome. rewrite Hrun. cbn [fst snd].
  split; [done|]. split; [done|]. by eexists.
Qed.

Lemma short_frame_is_padded_witness :
  let chunk := [0x81; 3; 104; 105] in
  let s' := state_after (processDataFrame chunk) example_open in
  (responseStack example_open = [] ∧ Frame.payloadDataLength chunk = 3
   ∧ Buffer.length chunk = 4 ∧ received_payload chunk = [104; 105]
   ∧ decodable (Frame.opcode chunk) [104; 105; 0])
  ∧ trace s' = trace example_open ++ [Emit "message"
      (message_event (Frame.opcode chunk)
         (received_payload chunk
            ++ replicate (Z.to_nat (Frame.payloadDataLength chunk
                 - Buffer.length (received_payload chunk))) 0))]
  ∧ responseStack s' = []
  ∧ ∃ msg, outcome (processDataFrame chunk) example_open = Throw (RangeError msg).
Proof.
  assert (responseStack example_open = []) as H1 by reflexivity.
  assert (Buffer.is_bytes [0x81; 3; 104; 105]) as H2
    by (by apply is_bytesb_spec; vm_compute).
  assert (Frame.opcode [0x81; 3; 104; 105] = OpcodeTextFrame
          ∨ Frame.opcode [0x81; 3; 104; 105] = OpcodeBinaryFrame) as H3
    by (left; reflexivity).
  assert (Frame.payloadLength [0x81; 3; 104; 105] ≠ 127) as H4 by (by vm_compute).
  assert (Frame.payloadDataOffset [0x81; 3; 104; 105]
          ≤ Buffer.length [0x81; 3; 104; 105]) as H5 by (by vm_compute).
  assert (Frame.payloadDataLength [0x81; 3; 104; 105]
          ≤ Buffer.length [0x81; 3; 104; 105]) as H6 by (by vm_compute).
  assert (Buffer.length [0x81; 3; 104; 105]
          < Frame.payloadDataOffset [0x81; 3; 104; 105]
            + Frame.payloadDataLength [0x81; 3; 104; 105]) as H7 by (by vm_compute).
  assert (decodable (Frame.opcode [0x81; 3; 104; 105]) [104; 105; 0]) as H8
    by (intros _; reflexivity).
  cbv zeta. split; [repeat (first [assumption | split]); first [reflexivity | done]|].
  exact (short_frame_is_padded example_open [0x81; 3; 104; 105]
           H1 H2 eq_refl eq_refl H3 H4 H5 H6 H7 H8).
Defined.

Global Instance stack_fits_preorder : PreOrder stack_fits.
Proof.
  split; [intros s H; exact H|]. intros s1 s2 s3 H12 H23 H. apply H23, H12, H.
Qed.

Ltac stack_fits_updates :=
  try (apply preserves_update; intros ? ?; assumption).

Lemma createFrameBuffer_stack_fits o : preserves stack_fits (Sender.createFrameBuffer o).
Proof.
  unfold Sender.createFrameBuffer, Sender.data_length, randomFillSync, applyMask.
  preserve; stack_fits_updates.
Qed.

Lemma sendFrame_stack_fits frame cb : preserves stack_fits (Sender.sendFrame frame cb).
Proof. unfold Sender.sendFrame, perform. preserve; stack_fits_updates. Qed.

Lemma new_buffer_stack_fits b : preserves stack_fits (Sender.new_buffer b).
Proof. unfold Sender.new_buffer. preserve; stack_fits_updates. Qed.

Lemma Sender_send_stack_fits ff d binary compress fin cb :
  preserves stack_fits (Sender.send ff d binary compress fin cb).
Proof.
  unfold Sender.send. preserve; stack_fits_updates;
    first [apply createFrameBuffer_stack_fits | apply sendFrame_stack_fits].
Qed.

Lemma Sender_pong_stack_fits d cb : preserves stack_fits (Sender.pong d cb).
Proof.
  unfold Sender.pong, Sender.buffer_from. preserve; stack_fits_updates;
    first [apply createFrameBuffer_stack_fits | apply sendFrame_stack_fits
          | apply new_buffer_stack_fits].
Qed.

Lemma Sender_close_stack_fits code reason cb :
  preserves stack_fits (Sender.close code reason cb).
Proof.
  unfold Sender.close. preserve; stack_fits_updates;
    first [apply createFrameBuffer_stack_fits | apply sendFrame_stack_fits
          | apply new_buffer_stack_fits].
Qed.

Lemma sendAfterClose_stack_fits d cb : preserves stack_fits (sendAfterClose d cb).
Proof. unfold sendAfterClose, perform. preserve; stack_fits_updates. Qed.

Lemma pong_stack_fits d mask cb : preserves stack_fits (pong d mask cb).
Proof.
  unfold pong, or_EMPTY_BUFFER. preserve; stack_fits_updates;
    first [apply sendAfterClose_stack_fits | apply Sender_pong_stack_fits
          | apply new_buffer_stack_fits].
Qed.

Lemma send_stack_fits d options cb : preserves stack_fits (send d options cb).
Proof.
  unfold send. preserve; stack_fits_updates;
    first [apply sendAfterClose_stack_fits | apply Sender_send_stack_fits].
Qed.

Lemma emitClose_stack_fits code msg : preserves stack_fits (emitClose code msg).
Proof. unfold emitClose, emitEvent, perform. preserve; stack_fits_updates. Qed.

Lemma socket_close_stack_fits : preserves stack_fits socket_close.
Proof. unfold socket_close, perform. preserve; stack_fits_updates. Qed.

Lemma abortHandshake_stack_fits msg : preserves stack_fits (abortHandshake msg).
Proof.
  unfold abortHandshake. preserve; stack_fits_updates;
    first [apply emitClose_stack_fits | apply socket_close_stack_fits].
Qed.

Lemma closeSocket_stack_fits code reason : preserves stack_fits (closeSocket code reason).
Proof.
  unfold closeSocket. preserve;
    first [apply emitClose_stack_fits | apply socket_close_stack_fits].
Qed.

Lemma close_stack_fits code reason : preserves stack_fits (close code reason).
Proof.
  unfold close. preserve; stack_fits_updates;
    first [apply abortHandshake_stack_fits | apply closeSocket_stack_fits
          | apply Sender_close_stack_fits].
Qed.

Lemma run_callback_stack_fits cb : preserves stack_fits (run_callback cb).
Proof.
  unfold run_callback, perform. preserve; stack_fits_updates.
  apply closeSocket_stack_fits.
Qed.

Lemma disconnectAndEmitError_stack_fits e code :
  preserves stack_fits (disconnectAndEmitError e code).
Proof.
  unfold disconnectAndEmitError, emitEvent, perform. preserve; stack_fits_updates.
  apply close_stack_fits.
Qed.

Lemma length_pop (stack : list WebSocketResponse) :
  (length (ResponseStack.pop stack) ≤ length stack)%nat.
Proof.
  unfold ResponseStack.pop. induction stack as [|r [|r' stack] IH]; cbn in *; lia.
Qed.

Lemma processResponse_stack_fits response :
  preserves stack_fits (processResponse response).
Proof.
  unfold processResponse, closeCode_and_closeReason, emitEvent, perform.
  preserve; stack_fits_updates;
    first [ apply close_stack_fits | apply pong_stack_fits
          | apply new_buffer_stack_fits
          | apply preserves_update; intros s H; cbn [responseStack set_responseStack];
            pose proof (length_pop (responseStack s)); lia ].
Qed.

Lemma last_None (stack : list WebSocketResponse) :
  ResponseStack.last stack = None → stack = [].
Proof.
  unfold ResponseStack.last. destruct stack as [|r stack] using rev_ind; [done|].
  rewrite fmap_app. cbn [fmap list_fmap]. by rewrite last_last.
Qed.

Lemma update_last_stack_fits f : preserves stack_fits (update_last f).
Proof.
  unfold update_last. apply preserves_update. intros s H.
  cbn [responseStack set_responseStack].
  destruct (ResponseStack.last (responseStack s)); [|done].
  unfold ResponseStack.push. rewrite length_app. cbn [length].
  destruct (responseStack s) as [|r [|r' stack]]; cbn in *; lia.
Qed.

Lemma bind_lift_Throw {A B} (e : JsError) (k : A → M B) s :
  bind (lift (Throw e)) k s = (s, Throw e).
Proof. reflexivity. Qed.

Lemma processDataFrame_stack_fits buffer : preserves stack_fits (processDataFrame buffer).
Proof.
  intros s Hlen. unfold processDataFrame, state_after. rewrite bind_read.
  destruct (Frame.isMasked buffer).
  { refine (preserves_bind stack_fits _ _ _ _ s Hlen); [|intros; apply preserves_ret; apply _].
    apply disconnectAndEmitError_stack_fits. }
  destruct (_ && _).
  { refine (preserves_bind stack_fits _ _ _ _ s Hlen); [|intros; apply preserves_ret; apply _].
    apply disconnectAndEmitError_stack_fits. }
  destruct (_ =? 127); [done|].
  destruct (Buffer.alloc (Frame.payloadDataLength buffer)) as [data|e];
    [rewrite bind_lift|by rewrite bind_lift_Throw].
  destruct (Buffer.copy buffer data _ _ _) as [copied|e];
    [rewrite bind_lift|by rewrite bind_lift_Throw].
  destruct (ResponseStack.last (responseStack s)) as [r|] eqn:Hlast.
  - match goal with |- (length (responseStack (?m s).1) ≤ 1)%nat =>
      cut (preserves stack_fits m); [intros H; exact (H s Hlen)|] end.
    clear. preserve; stack_fits_updates;
      first [ apply update_last_stack_fits | apply disconnectAndEmitError_stack_fits
            | apply processResponse_stack_fits ].
  - apply last_None in Hlast. rewrite bind_bind, bind_update, bind_ret.
    cbn [responseStack set_responseStack]. rewrite Hlast.
    cbn [ResponseStack.push app].
    match goal with |- context [bind (processResponse ?r) ?k ?s1] =>
      refine (preserves_bind stack_fits (processResponse r) k _ _ s1 _) end.
    + apply processResponse_stack_fits.
    + intros _. preserve.
    + done.
Qed.

Lemma processDataFramesInBuffer_stack_fits buffer :
  preserves stack_fits (processDataFramesInBuffer buffer).
Proof.
  unfold processDataFramesInBuffer. preserve. apply processDataFrame_stack_fits.
Qed.

Lemma processHandshake_stack_fits buffer : preserves stack_fits (processHandshake buffer).
Proof.
  unfold processHandshake, emitEvent, perform. preserve; stack_fits_updates;
    apply abortHandshake_stack_fits.
Qed.

Lemma processInputStream_stack_fits e : preserves stack_fits (processInputStream e).
Proof.
  unfold processInputStream, socketOnClose. preserve; stack_fits_updates;
    first [ apply emitClose_stack_fits | apply processHandshake_stack_fits
          | apply processDataFramesInBuffer_stack_fits ].
Qed.

Lemma handle_stack_fits i : preserves stack_fits (handle i).
Proof.
  destruct i; unfold handle, connected, performWsHandshake, error, emitEvent, perform.
  - apply send_stack_fits.
  - apply pong_stack_fits.
  - apply close_stack_fits.
  - preserve; stack_fits_updates.
  - preserve; stack_fits_updates.
  - apply processInputStream_stack_fits.
  - preserve; stack_fits_updates. apply run_callback_stack_fits.
  - preserve; stack_fits_updates.
Qed.

Lemma run_stack_fits inputs : ∀ s,
  (length (responseStack s) ≤ 1)%nat → (length (responseStack (run s inputs)) ≤ 1)%nat.
Proof.
  induction inputs as [|i inputs IH]; intros s H; [done|].
  cbn. apply IH. by apply (handle_stack_fits i s).
Qed.

(** X12: whatever happens to a connection, the response stack never holds
    more than one response: [processDataFrame] pushes a response only when
    the stack is empty. *)
Theorem one_message_at_a_time (opts : Options) (key : string) (ti : Titanium)
    (h : gmap nat (list Z)) (inputs : list Input) :
  (length (responseStack (run (new_WebSocket opts key ti h) inputs)) ≤ 1)%nat.
Proof. apply run_stack_fits. cbn. lia. Qed.

Global Instance winding_down_preorder : PreOrder winding_down.
Proof.
  split.
  - intros s. split; [by left|]. exists []. by rewrite app_nil_r.
  - intros s1 s2 s3 [Hr12 (e12 & Ht12 & He12)] [Hr23 (e23 & Ht23 & He23)].
    split.
    + destruct Hr23 as [->|Hr23]; [exact Hr12|by right].
    + exists (e12 ++ e23). split; [by rewrite Ht23, Ht12, app_assoc|].
      by apply Forall_app.
Qed.

Lemma winding_down_valid s s' :
  winding_down s s' → valid_readyState s → readyState s ≠ OPEN →
  valid_readyState s' ∧ readyState s' ≠ OPEN.
Proof.
  unfold valid_readyState. intros [[-> | [-> | ->]] _] Hv Hne;
    unfold CONNECTING, OPEN, CLOSING, CLOSED in *; lia.
Qed.

Global Instance silent_unless_open_preorder : PreOrder silent_unless_open.
Proof.
  split; [intros s _ _; reflexivity|].
  intros s1 s2 s3 H12 H23 Hv Hne. specialize (H12 Hv Hne).
  destruct (winding_down_valid _ _ H12 Hv Hne) as [Hv2 Hne2].
  etrans; [exact H12|]. by apply H23.
Qed.

Lemma winding_down_silent s s' : winding_down s s' → silent_unless_open s s'.
Proof. by intros H _ _. Qed.

Lemma winding_down_update f :
  (∀ s, readyState (f s) = readyState s ∨ readyState (f s) = CLOSING
        ∨ readyState (f s) = CLOSED) →
  (∀ s, trace (f s) = trace s) →
  preserves winding_down (update f).
Proof.
  intros Hr Ht. apply preserves_update. intros s. split; [apply Hr|].
  exists []. by rewrite app_nil_r, Ht.
Qed.

Lemma winding_down_perform e : is_write e = false → preserves winding_down (perform e).
Proof.
  intros He. apply preserves_update. intros s. split; [by left|].
  exists [e]. split; [done|]. by constructor.
Qed.

Ltac winding_down_updates :=
  try (apply winding_down_update; intros ?;
       [cbn [readyState set_responseStack set_readyState set_socket set_closeFrameSent
             set_closeFrameReceived set_sender set_mask set_socketState set_heap
             set_drawn set_pending set_trace]; auto
       |reflexivity]);
  try (apply winding_down_perform; reflexivity).

Lemma new_buffer_winding_down b : preserves winding_down (Sender.new_buffer b).
Proof. unfold Sender.new_buffer. preserve; winding_down_updates. Qed.

Lemma sendAfterClose_winding_down d cb : preserves winding_down (sendAfterClose d cb).
Proof. unfold sendAfterClose. preserve; winding_down_updates. Qed.

Lemma emitClose_winding_down code msg : preserves winding_down (emitClose code msg).
Proof. unfold emitClose, emitEvent. preserve; winding_down_updates. Qed.

Lemma socket_close_winding_down : preserves winding_down socket_close.
Proof. unfold socket_close. preserve; winding_down_updates. Qed.

Lemma abortHandshake_winding_down msg : preserves winding_down (abortHandshake msg).
Proof.
  unfold abortHandshake. preserve; winding_down_updates;
    first [apply emitClose_winding_down | apply socket_close_winding_down].
Qed.

Lemma closeSocket_winding_down code reason :
  preserves winding_down (closeSocket code reason).
Proof.
  unfold closeSocket. preserve;
    first [apply emitClose_winding_down | apply socket_close_winding_down].
Qed.

Lemma run_callback_winding_down cb : preserves winding_down (run_callback cb).
Proof.
  unfold run_callback. preserve; winding_down_updates. apply closeSocket_winding_down.
Qed.

Lemma update_last_winding_down f : preserves winding_down (update_last f).
Proof. unfold update_last. winding_down_updates. Qed.

Ltac by_winding_down lem :=
  apply (preserves_weaken winding_down); [apply winding_down_silent|apply lem].

Ltac silent_updates :=
  try (apply (preserves_weaken winding_down); [apply winding_down_silent|];
       progress winding_down_updates).

Lemma pong_silent d mask cb : preserves silent_unless_open (pong d mask cb).
Proof.
  intros s Hv Hne. unfold pong, state_after. rewrite bind_read.
  destruct (readyState s =? CONNECTING); [reflexivity|].
  destruct (Z.eqb_spec (readyState s) OPEN); [done|]. cbn [negb].
  apply sendAfterClose_winding_down.
Qed.

Lemma send_silent d options cb : preserves silent_unless_open (send d options cb).
Proof.
  intros s Hv Hne. unfold send, state_after. rewrite bind_read.
  destruct (readyState s =? CONNECTING); [reflexivity|].
  destruct (Z.eqb_spec (readyState s) OPEN); [done|]. cbn [negb].
  apply sendAfterClose_winding_down.
Qed.

Lemma close_silent code reason : preserves silent_unless_open (close code reason).
Proof.
  intros s Hv Hne. unfold close, state_after. rewrite bind_read.
  destruct (Z.eqb_spec (readyState s) CLOSED); [reflexivity|].
  destruct (Z.eqb_spec (readyState s) CONNECTING); [apply abortHandshake_winding_down|].
  destruct (Z.eqb_spec (readyState s) CLOSING).
  - run_m. exact (preserves_when winding_down _ _
                    (closeSocket_winding_down code reason) s).
  - unfold valid_readyState, CONNECTING, OPEN, CLOSING, CLOSED in *. lia.
Qed.

Lemma disconnectAndEmitError_silent e code :
  preserves silent_unless_open (disconnectAndEmitError e code).
Proof.
  unfold disconnectAndEmitError, emitEvent. preserve; silent_updates.
  apply close_silent.
Qed.

Lemma processResponse_silent response :
  preserves silent_unless_open (processResponse response).
Proof.
  unfold processResponse, closeCode_and_closeReason, emitEvent.
  preserve; silent_updates;
    first [ apply close_silent | apply pong_silent
          | by_winding_down new_buffer_winding_down ].
Qed.

Lemma processDataFrame_silent buffer :
  preserves silent_unless_open (processDataFrame buffer).
Proof.
  unfold processDataFrame. preserve; silent_updates;
    first [ apply disconnectAndEmitError_silent | apply processResponse_silent
          | by_winding_down update_last_winding_down ].
Qed.

Lemma processDataFramesInBuffer_silent buffer :
  preserves silent_unless_open (processDataFramesInBuffer buffer).
Proof.
  unfold processDataFramesInBuffer. preserve. apply processDataFrame_silent.
Qed.

Global Instance no_write_preorder : PreOrder no_write.
Proof.
  split.
  - intros s. exists []. by rewrite app_nil_r.
  - intros s1 s2 s3 (e12 & Ht12 & He12) (e23 & Ht23 & He23).
    exists (e12 ++ e23). split; [by rewrite Ht23, Ht12, app_assoc|].
    by apply Forall_app.
Qed.

Lemma winding_down_no_write s s' : winding_down s s' → no_write s s'.
Proof. by intros [_ H]. Qed.

Lemma processHandshake_no_write buffer : preserves no_write (processHandshake buffer).
Proof.
  unfold processHandshake, emitEvent. preserve;
    first [ apply (preserves_weaken winding_down);
              [apply winding_down_no_write|apply abortHandshake_winding_down]
          | apply preserves_update; intros s; exists []; by rewrite app_nil_r
          | apply preserves_update; intros s; eexists [_]; split; [done|];
            by repeat constructor ].
Qed.

(** X13: a connection that is CONNECTING, CLOSING or CLOSED writes nothing
    to the socket, whatever happens to it (a call of [send], [pong] or
    [close], a chunk, the end of the stream, a socket error, the completion
    of a write); the one exception is the [connected] callback, which
    writes the upgrade request. *)
Theorem frames_are_written_only_when_open (s : WebSocket) (i : Input) :
  valid_readyState s → readyState s ≠ OPEN → i ≠ socket_connected →
  ∃ effects, trace (step s i) = trace s ++ effects
    ∧ Forall (λ e, is_write e = false) effects.
Proof.
  intros Hv Hne Hi. unfold step. change (no_write s (state_after (handle i) s)).
  assert (∀ {A} (m : M A), preserves winding_down m → no_write s (state_after m s))
    as Hwd by (intros A m H; apply winding_down_no_write, H).
  destruct i as [d options cb|d mask cb|code reason| |e|e|i|name]; cbn [handle].
  - apply winding_down_no_write. by apply send_silent.
  - apply winding_down_no_write. by apply pong_silent.
  - apply winding_down_no_write. by apply close_silent.
  - done.
  - apply Hwd. unfold error, emitEvent. preserve; winding_down_updates.
  - destruct e as [| |buffer]; cbn [processInputStream].
    + apply Hwd. unfold socketOnClose. preserve; winding_down_updates.
      apply emitClose_winding_down.
    + reflexivity.
    + unfold state_after. rewrite bind_read.
      destruct (readyState s =? CONNECTING).
      * apply processHandshake_no_write.
      * apply winding_down_no_write. by apply processDataFramesInBuffer_silent.
  - apply Hwd. preserve; winding_down_updates. apply run_callback_winding_down.
  - apply Hwd. preserve; winding_down_updates.
Qed.

Lemma frames_are_written_only_when_open_witness :
  let s := step example_open (call_close None None) in
  let i := call_send (data_buffer 0) no_options (Some 7%nat) in
  (valid_readyState s ∧ readyState s = CLOSING)
  ∧ ∃ effects, trace (step s i) = trace s ++ effects
      ∧ Forall (λ e, is_write e = false) effects.
Proof.
  assert (valid_readyState (step example_open (call_close None None))) as H1
    by (by vm_compute).
  assert (readyState (step example_open (call_close None None)) ≠ OPEN) as H2
    by (by vm_compute).
  assert (call_send (data_buffer 0) no_options (Some 7%nat) ≠ socket_connected) as H3
    by discriminate.
  cbv zeta. split; [repeat (first [assumption | split]); first [reflexivity | done]|].
  exact (frames_are_written_only_when_open _ _ H1 H2 H3).
Defined.

Global Instance keeps_once_preorder : PreOrder keeps_once.
Proof.
  split; [intros s H; exact H|]. intros s1 s2 s3 H12 H23 H. apply H23, H12, H.
Qed.

Global Instance steady_preorder : PreOrder steady.
Proof.
  split; [by intros s|].
  intros s1 s2 s3 (?&?&?&?&?) (?&?&?&?&?). repeat split; congruence.
Qed.

Lemma steady_keeps_once s s' : steady s s' → keeps_once s s'.
Proof.
  intros (Hsock&Hrs&Hsent&Hw&Hc) (Iv&Iw&Iopen&Isent&Ic).
  unfold once_inv, valid_readyState. rewrite Hsock, Hrs, Hsent, Hw, Hc. done.
Qed.

Lemma same_connection_steady s s' : same_connection s s' → steady s s'.
Proof.
  intros (?&?&?&?&Hp&Ht). repeat split; try done.
  - unfold waiting. by rewrite Hp.
  - by rewrite Ht.
Qed.

Lemma closes_app t e :
  closes (t ++ [e]) = (closes t + if is_close_event e then 1 else 0)%nat.
Proof.
  unfold closes. rewrite List.filter_app, length_app. cbn.
  by destruct (is_close_event e).
Qed.

Lemma steady_perform e : is_close_event e = false → preserves steady (perform e).
Proof.
  intros He. apply preserves_update. intros s. repeat split; try done.
  cbn [trace set_trace]. rewrite closes_app, He. lia.
Qed.

Lemma steady_pending cb :
  is_closeFrameSent cb = false →
  preserves steady (update (λ s, set_pending (pending s ++ [cb]) s)).
Proof.
  intros Hcb. apply preserves_update. intros s. repeat split; try done.
  unfold waiting at 1. cbn [pending set_pending]. rewrite waiting_app, Hcb. lia.
Qed.

Ltac by_same_connection_steady lem :=
  apply (preserves_weaken same_connection); [apply same_connection_steady|apply lem].

Ltac steady_updates :=
  try (apply preserves_update; intros ?; apply same_connection_steady;
       by repeat split);
  try (apply steady_perform; reflexivity);
  try (apply steady_pending; done).

Lemma sendFrame_steady frame cb :
  is_closeFrameSent cb = false → preserves steady (Sender.sendFrame frame cb).
Proof. intros Hcb. unfold Sender.sendFrame. preserve; steady_updates. Qed.

Lemma Sender_send_steady ff d binary compress fin cb :
  is_closeFrameSent cb = false →
  preserves steady (Sender.send ff d binary compress fin cb).
Proof.
  intros Hcb. unfold Sender.send. preserve; steady_updates;
    first [ by_same_connection_steady createFrameBuffer_same_connection
          | by apply sendFrame_steady ].
Qed.

Lemma Sender_pong_steady d b : preserves steady (Sender.pong d (cb_boolean b)).
Proof.
  unfold Sender.pong, Sender.buffer_from. preserve; steady_updates;
    first [ by_same_connection_steady createFrameBuffer_same_connection
          | by_same_connection_steady new_buffer_same_connection
          | by apply sendFrame_steady ].
Qed.

Lemma sendAfterClose_steady d cb : preserves steady (sendAfterClose d cb).
Proof. unfold sendAfterClose. preserve; steady_updates. Qed.

Lemma pong_steady d mask cb : preserves steady (pong d mask cb).
Proof.
  unfold pong, or_EMPTY_BUFFER. preserve; steady_updates;
    first [ apply sendAfterClose_steady | apply Sender_pong_steady
          | by_same_connection_steady new_buffer_same_connection ].
Qed.

Lemma send_steady d options cb :
  is_closeFrameSent cb = false → preserves steady (send d options cb).
Proof.
  intros Hcb. unfold send. preserve; steady_updates;
    first [ apply sendAfterClose_steady | by apply Sender_send_steady ].
Qed.

Lemma connected_steady : preserves steady connected.
Proof. unfold connected, performWsHandshake. preserve; steady_updates. Qed.

Lemma socket_close_steady : preserves steady socket_close.
Proof. unfold socket_close. preserve; steady_updates. Qed.

Lemma update_last_steady f : preserves steady (update_last f).
Proof. unfold update_last. steady_updates. Qed.

(** ['close'] is emitted *)
Lemma emitClose_once code msg s :
  once_inv s → closes (trace s) = 0%nat → waiting s = 0%nat ∨ socket s = false →
  once_inv (state_after (emitClose code msg) s).
Proof.
  intros (Iv&Iw&Iopen&Isent&Ic) Hc Hw.
  unfold emitClose, emitEvent, perform, state_after. emit_name. run_m. unfold update.
  cbn [fst]. unfold once_inv, valid_readyState.
  cbn [readyState closeFrameSent socket trace set_trace set_readyState].
  change (waiting (set_trace _ (set_readyState CLOSED s))) with (waiting s).
  rewrite closes_app, Hc. cbn [is_close_event].
  rewrite bool_decide_eq_true_2 by done.
  unfold CONNECTING, OPEN, CLOSED. repeat split; try done; try lia.
  right. by repeat split.
Qed.

Lemma closeSocket_once code reason s :
  once_inv s → waiting s = 0%nat → closes (trace s) = 0%nat ∨ socket s = false →
  once_inv (state_after (closeSocket code reason) s).
Proof.
  intros I Hw Hc. unfold closeSocket, socket_close, state_after.
  rewrite bind_bind, bind_read.
  destruct (socket s) eqn:Hsocket; [|done].
  destruct Hc as [Hc|Hc]; [|done].
  rewrite bind_bind, bind_update. unfold perform. rewrite bind_update.
  cbv beta. apply (emitClose_once code reason).
  - revert I. apply steady_keeps_once. repeat split; try done.
    cbn [trace set_trace set_socketState]. rewrite closes_app. cbn. lia.
  - cbn [trace set_trace set_socketState]. rewrite closes_app, Hc. done.
  - by left.
Qed.

Lemma abortHandshake_once msg s :
  once_inv s → readyState s = CONNECTING →
  once_inv (state_after (abortHandshake msg) s).
Proof.
  intros (Iv&Iw&Iopen&Isent&Ic) Hrs.
  destruct Iopen as [Hw Hsent]; [rewrite Hrs; done|].
  assert (closes (trace s) = 0%nat) as Hc.
  { destruct Ic as [Ic|(_&Ic&_)]; [done|]. by rewrite Hrs in Ic. }
  assert (once_inv (set_readyState CLOSING s)) as I1.
  { unfold once_inv, valid_readyState.
    cbn [readyState closeFrameSent socket trace set_readyState].
    change (waiting (set_readyState CLOSING s)) with (waiting s).
    unfold CONNECTING, OPEN, CLOSING, CLOSED. repeat split; try lia; auto. }
  unfold abortHandshake, state_after. rewrite bind_update, bind_read.
  cbn [socket set_readyState]. destruct (socket s) eqn:Hsocket; [|done].
  rewrite bind_bind, bind_read. cbn [socketState set_readyState].
  assert (∀ s1, steady (set_readyState CLOSING s) s1 →
            once_inv (state_after (emitClose (Some CloseCode.abnormal) (Some msg)) s1))
    as Hfinish.
  { intros s1 Hsteady. pose proof (steady_keeps_once _ _ Hsteady I1) as I2.
    destruct Hsteady as (?&?&?&Hw1&Hc1).
    apply (emitClose_once (Some CloseCode.abnormal) (Some msg)); [done| |].
    - by rewrite Hc1.
    - left. by rewrite Hw1. }
  destruct (socketState s).
  - rewrite bind_ret. by apply Hfinish.
  - pose proof (socket_close_steady (set_readyState CLOSING s)) as Hsc.
    unfold state_after in Hsc. unfold bind.
    destruct (socket_close (set_readyState CLOSING s)) as [s1 [[]|e]];
      cbn [fst] in *.
    + by apply Hfinish.
    + by apply (steady_keeps_once _ _ Hsc).
  - rewrite bind_ret. by apply Hfinish.
  - rewrite bind_ret. by apply Hfinish.
Qed.

Lemma close_once code reason : preserves keeps_once (close code reason).
Proof.
  intros s I. pose proof I as (Iv&Iw&Iopen&Isent&Ic).
  unfold close, state_after. rewrite bind_read.
  destruct (Z.eqb_spec (readyState s) CLOSED) as [Hc|Hc]; [done|].
  assert (closes (trace s) = 0%nat) as Hcloses
    by (destruct Ic as [Ic|(_&Ic&_)]; done).
  destruct (Z.eqb_spec (readyState s) CONNECTING) as [Hn|Hn];
    [by apply abortHandshake_once|].
  destruct (Z.eqb_spec (readyState s) CLOSING) as [Hg|Hg].
  - run_m. destruct (closeFrameSent s) eqn:Hsent; [|done].
    destruct (closeFrameReceived s); [|done]. cbn [andb when].
    apply closeSocket_once; auto.
  - assert (readyState s = OPEN) as Hopen
      by (unfold valid_readyState, CONNECTING, OPEN, CLOSING, CLOSED in *; lia).
    destruct Iopen as [Hw Hsent]; [rewrite Hopen; done|].
    run_m. cbn [sender set_readyState].
    assert (once_inv (set_readyState CLOSING s)) as I1.
    { unfold once_inv, valid_readyState.
      cbn [readyState closeFrameSent socket trace set_readyState].
      change (waiting (set_readyState CLOSING s)) with (waiting s).
      unfold CONNECTING, OPEN, CLOSING, CLOSED. repeat split; try lia; auto. }
    destruct (sender s); [|done].
    pose proof (Sender_close_cases code reason (cb_closeFrameSent code reason)
                  (set_readyState CLOSING s)) as (Hsock&Hrs&Hs&_&Hcases).
    unfold state_after in *.
    set (s' := (Sender.close code reason (cb_closeFrameSent code reason)
                  (set_readyState CLOSING s)).1) in *.
    cbn [socket readyState closeFrameSent pending trace set_readyState] in *.
    unfold once_inv, valid_readyState. rewrite Hrs, Hs, Hsock.
    unfold CONNECTING, OPEN, CLOSING, CLOSED.
    destruct Hcases as [[Hp Ht]|(frame&Hp&Ht)].
    + assert (waiting s' = waiting s) as -> by (unfold waiting; by rewrite Hp).
      rewrite Ht. repeat split; try lia; auto.
    + assert (waiting s' = 1%nat) as ->.
      { unfold waiting at 1. rewrite Hp.
        change (pending s) with (pending (set_readyState CLOSING s)).
        rewrite waiting_app.
        change (waiting (set_readyState CLOSING s)) with (waiting s).
        rewrite Hw. done. }
      rewrite Ht, closes_app, Hcloses. cbn [is_close_event].
      repeat split; try lia; try congruence.
Qed.

Lemma write_complete_once i : preserves keeps_once (handle (write_complete i)).
Proof.
  intros s I. pose proof I as (Iv&Iw&Iopen&Isent&Ic).
  cbn [handle]. unfold state_after. rewrite bind_read.
  destruct (pending s !! i) as [cb|] eqn:Hcb; [|done].
  rewrite bind_update.
  set (s1 := set_pending (delete i (pending s)) s).
  assert (waiting s = (waiting s1 + if is_closeFrameSent cb then 1 else 0)%nat) as Hw1.
  { unfold waiting, s1. cbn [pending set_pending]. by apply waiting_delete. }
  destruct (is_closeFrameSent cb) eqn:Hkind.
  - destruct cb as [| | | |code reason]; try done. cbn [run_callback].
    assert (0 < waiting s)%nat as Hpos by lia.
    assert (OPEN < readyState s) as Hrs.
    { destruct (Z.le_gt_cases (readyState s) OPEN) as [Hle|Hgt]; [|lia].
      destruct (Iopen Hle) as [Hw _]. lia. }
    assert (waiting s1 = 0%nat) as Hw0 by lia.
    rewrite bind_update, bind_read.
    set (s2 := set_closeFrameSent true s1).
    assert (once_inv s2) as I2.
    { unfold once_inv, valid_readyState.
      change (waiting s2) with (waiting s1). rewrite Hw0.
      cbn [readyState closeFrameSent socket trace s2 s1 set_closeFrameSent set_pending].
      repeat split; try apply Iv; try lia. }
    destruct (closeFrameReceived s2); [|done]. cbn [when].
    apply closeSocket_once; [done|done|].
    change (trace s2) with (trace s). change (socket s2) with (socket s).
    destruct Ic as [Ic|(_&_&[Ic|Ic])]; [by left|lia|by right].
  - assert (steady s s1) as Hsteady.
    { repeat split; try done. lia. }
    pose proof (steady_keeps_once _ _ Hsteady I) as I1.
    destruct cb as [| [|] | | |code reason]; try done; cbn [run_callback];
      try exact I1.
    apply (steady_keeps_once s1); [|done]. by apply steady_perform.
Qed.

Ltac by_steady lem :=
  apply (preserves_weaken steady keeps_once); [apply steady_keeps_once|apply lem].

Ltac keeps_once_updates :=
  try (apply preserves_update; intros ?; apply steady_keeps_once;
       apply same_connection_steady; by repeat split);
  try (apply (preserves_weaken steady keeps_once);
       [apply steady_keeps_once|apply steady_perform; reflexivity]).

Lemma disconnectAndEmitError_once e code :
  preserves keeps_once (disconnectAndEmitError e code).
Proof.
  unfold disconnectAndEmitError, emitEvent. preserve; keeps_once_updates.
  apply close_once.
Qed.

Lemma processResponse_once response : preserves keeps_once (processResponse response).
Proof.
  unfold processResponse, closeCode_and_closeReason, emitEvent.
  preserve; keeps_once_updates;
    first [ apply close_once | by_steady pong_steady
          | by_steady new_buffer_same_connection
          | apply (preserves_weaken same_connection keeps_once);
            [intros ???; by apply steady_keeps_once, same_connection_steady
            |apply new_buffer_same_connection]
          | apply preserves_update; intros s; apply steady_keeps_once;
            by repeat split ].
Qed.

Lemma processDataFrame_once buffer : preserves keeps_once (processDataFrame buffer).
Proof.
  unfold processDataFrame. preserve; keeps_once_updates;
    first [ apply disconnectAndEmitError_once | apply processResponse_once
          | by_steady update_last_steady ].
Qed.

Lemma processDataFramesInBuffer_once buffer :
  preserves keeps_once (processDataFramesInBuffer buffer).
Proof. unfold processDataFramesInBuffer. preserve. apply processDataFrame_once. Qed.

Lemma processHandshake_once buffer s :
  once_inv s → readyState s = CONNECTING →
  once_inv (state_after (processHandshake buffer) s).
Proof.
  intros I Hrs. unfold processHandshake.
  destruct (String.index _ _ _); [|by apply abortHandshake_once].
  unfold state_after. rewrite bind_read, bind_read.
  destruct (bool_decide _); [|by apply abortHandshake_once].
  destruct I as (Iv&Iw&Iopen&Isent&Ic).
  destruct Iopen as [Hw Hsent]; [rewrite Hrs; done|].
  assert (closes (trace s) = 0%nat) as Hc.
  { destruct Ic as [Ic|(_&Ic&_)]; [done|]. by rewrite Hrs in Ic. }
  rewrite bind_update. unfold emitEvent, perform, update. emit_name. cbn [fst].
  unfold once_inv, valid_readyState.
  cbn [readyState closeFrameSent socket trace set_trace set_readyState].
  change (waiting (set_trace _ (set_readyState OPEN s))) with (waiting s).
  rewrite closes_app, Hc. cbn [is_close_event].
  unfold CONNECTING, OPEN, CLOSED. repeat split; try done; try lia. by left.
Qed.

Lemma socketOnClose_once s :
  once_inv s → readyState s ≠ CLOSED → once_inv (state_after socketOnClose s).
Proof.
  intros (Iv&Iw&Iopen&Isent&Ic) Hrs.
  assert (closes (trace s) = 0%nat) as Hc
    by (destruct Ic as [Ic|(_&Ic&_)]; done).
  unfold socketOnClose, state_after. rewrite !bind_update.
  apply (emitClose_once None None); [| |by right].
  - unfold once_inv, valid_readyState.
    cbn [readyState closeFrameSent socket trace set_socket set_readyState].
    change (waiting (set_socket false (set_readyState CLOSING s))) with (waiting s).
    unfold CONNECTING, OPEN, CLOSING, CLOSED. repeat split; try lia; auto.
  - done.
Qed.

Lemma processInputStream_once e : preserves keeps_once (processInputStream e).
Proof.
  intros s I. unfold processInputStream, state_after.
  destruct e as [| |buffer].
  - rewrite bind_read. destruct (Z.eqb_spec (readyState s) CLOSED); [done|].
    by apply socketOnClose_once.
  - done.
  - rewrite bind_read. destruct (Z.eqb_spec (readyState s) CONNECTING).
    + by apply processHandshake_once.
    + by apply processDataFramesInBuffer_once.
Qed.

Lemma error_once e : preserves keeps_once (error e).
Proof.
  intros s (Iv&Iw&Iopen&Isent&Ic). unfold error, state_after.
  rewrite bind_update, emitEvent_error. cbn [fst].
  unfold once_inv, valid_readyState.
  cbn [readyState closeFrameSent socket trace set_trace set_readyState].
  change (waiting (set_trace _ (set_readyState CLOSED s))) with (waiting s).
  rewrite closes_app. cbn [is_close_event]. rewrite Nat.add_0_r.
  unfold CONNECTING, OPEN, CLOSED. repeat split; try done; try lia.
  destruct Ic as [Ic|(Ic&_&Hw)]; [by left|]. right. by repeat split.
Qed.

Lemma callback_is_not_closeFrameSent cb : is_closeFrameSent (callback cb) = false.
Proof. by destruct cb. Qed.

Lemma handle_once i : preserves keeps_once (handle i).
Proof.
  destruct i; cbn [handle].
  - by_steady send_steady. apply callback_is_not_closeFrameSent.
  - by_steady pong_steady.
  - apply close_once.
  - preserve; keeps_once_updates. by_steady connected_steady.
  - preserve; keeps_once_updates. apply error_once.
  - apply processInputStream_once.
  - apply write_complete_once.
  - preserve; keeps_once_updates.
Qed.

Lemma new_WebSocket_once opts key ti h : once_inv (new_WebSocket opts key ti h).
Proof.
  unfold once_inv, valid_readyState, CONNECTING, OPEN, CLOSED. cbn.
  repeat split; try done; try lia.
Qed.

Lemma run_once inputs : ∀ s, once_inv s → once_inv (run s inputs).
Proof.
  induction inputs as [|i inputs IH]; intros s H; [done|].
  cbn. apply IH. by apply (handle_once i s).
Qed.

(** X14: over the whole life of a connection, whatever happens to it and
    in whatever order, ['close'] is emitted once at most; once it has been
    emitted [readyState] is CLOSED. *)
Theorem close_is_emitted_once_at_most (opts : Options) (key : string)
    (ti : Titanium) (h : gmap nat (list Z)) (inputs : list Input) :
  let s := run (new_WebSocket opts key ti h) inputs in
  (closes (trace s) ≤ 1)%nat
  ∧ (closes (trace s) = 1%nat → readyState s = CLOSED).
Proof.
  intros s.
  destruct (run_once inputs _ (new_WebSocket_once opts key ti h))
    as (_&_&_&_&[Hc|(Hc&Hrs&_)]); fold s in Hc |- *.
  - rewrite Hc. split; [lia|done].
  - rewrite Hc. split; [lia|done].
Qed.

Lemma chars_app (a b : string) : chars (a +:+ b) = chars a ++ chars b.
Proof.
  unfold chars. induction a as [|c a IH]; [done|].
  change (String c a +:+ b) with (String c (a +:+ b)).
  cbn [String.list_ascii_of_string app]. by rewrite IH.
Qed.

Lemma headerPattern_skip (pre : list ascii) : ∀ run rest,
  Forall (λ c, c ≠ ":"%char) pre →
  headerPattern (pre ++ chars CRLF ++ rest) run None = headerPattern rest [] None.
Proof.
  induction pre as [|c pre IH]; intros run rest Hpre.
  - reflexivity.
  - apply Forall_cons in Hpre as [Hc Hpre]. cbn [app headerPattern].
    destruct (is_word c); [by apply IH|].
    rewrite bool_decide_eq_false_2 by done. cbn [andb]. by apply IH.
Qed.

Lemma headerPattern_name (name : list ascii) : ∀ run rest,
  Forall (λ c, is_word c = true) name →
  headerPattern (name ++ rest) run None = headerPattern rest (rev name ++ run) None.
Proof.
  induction name as [|c name IH]; intros run rest Hname; [done|].
  apply Forall_cons in Hname as [Hc Hname]. cbn [app headerPattern]. rewrite Hc.
  rewrite IH by done. cbn [rev]. by rewrite <- app_assoc.
Qed.

Lemma headerPattern_value (value : list ascii) : ∀ run name acc rest,
  Forall (λ c, is_line_terminator c = false ∧ (Ascii.nat_of_ascii c < 128)%nat)
         value →
  headerPattern (value ++ chars CRLF ++ rest) run (Some (name, acc))
    = (toLowerCase name, String.string_of_list_ascii (rev acc ++ value))
        :: headerPattern rest [] None.
Proof.
  induction value as [|c value IH]; intros run name acc rest Hvalue.
  - cbn [app]. by rewrite app_nil_r.
  - apply Forall_cons in Hvalue as [[Hc Hascii] Hvalue].
    cbn [app headerPattern]. rewrite Hc.
    assert (is_separator c (value ++ chars CRLF ++ rest) = false) as ->.
    { unfold is_separator. by destruct (Nat.eqb_spec (Ascii.nat_of_ascii c) 226); [lia|]. }
    cbn [orb]. rewrite IH by done. cbn [rev]. by rewrite <- app_assoc.
Qed.

Lemma headerPattern_line (name value : string) (rest : list ascii) :
  is_name name → is_value value →
  headerPattern (chars (header_line (name, value)) ++ rest) [] None
    = (lower name, value) :: headerPattern rest [] None.
Proof.
  intros [Hne Hname] Hvalue. unfold header_line. cbn [fst snd].
  rewrite !chars_app, <- !app_assoc.
  rewrite (headerPattern_name (chars name)) by exact Hname. rewrite app_nil_r.
  change (chars ": ") with [":"%char; " "%char]. cbn [app headerPattern].
  change (is_word ":") with false. cbv iota.
  rewrite (bool_decide_eq_true_2 (":"%char = ":"%char)) by done.
  destruct (bool_decide (rev (chars name) = [])) eqn:Hempty.
  { apply bool_decide_eq_true in Hempty.
    assert (chars name = []) as Hnil
      by (by rewrite <- (rev_involutive (chars name)), Hempty).
    by destruct name. }
  cbn [andb negb]. rewrite (bool_decide_eq_true_2 (" "%char = " "%char)) by done.
  rewrite rev_involutive.
  rewrite headerPattern_value.
  - cbn [rev app]. unfold lower. do 2 f_equal.
    apply String.string_of_list_ascii_of_string.
  - exact Hvalue.
Qed.

Lemma header_lines_parsed (status : string) (headers : list (string * string)) :
  Forall (λ c, c ≠ ":"%char) (chars status) →
  Forall (λ h, is_name h.1 ∧ is_value h.2) headers →
  headerPattern (chars (http_response status headers)) [] None
    = (λ h, (lower h.1, h.2)) <$> headers.
Proof.
  intros Hstatus Hheaders. unfold http_response.
  rewrite chars_app, chars_app.
  rewrite headerPattern_skip by done.
  induction headers as [|[name value] headers IH]; [reflexivity|].
  apply Forall_cons in Hheaders as [[Hname Hvalue] Hheaders].
  cbn [foldr fmap list_fmap]. rewrite chars_app.
  rewrite headerPattern_line by done. cbn [fst snd]. f_equal. by apply IH.
Qed.

Lemma colon_free (s : string) :
  forallb (λ c, negb (Ascii.eqb c ":")) (chars s) = true →
  Forall (λ c, c ≠ ":"%char) (chars s).
Proof.
  intros H. apply Forall_forall. intros c Hc. rewrite forallb_forall in H.
  apply list_elem_of_In, H, negb_true_iff in Hc. by apply Ascii.eqb_neq.
Qed.

Lemma names_and_values (headers : list (string * string)) :
  forallb (λ h, bool_decide (h.1 ≠ "") && forallb is_word (chars h.1)
                && forallb (λ c, negb (is_line_terminator c)
                                 && (Ascii.nat_of_ascii c <? 128)%nat) (chars h.2))
          headers = true →
  Forall (λ h, is_name h.1 ∧ is_value h.2) headers.
Proof.
  intros H. apply Forall_forall. intros [n v] Hh. rewrite forallb_forall in H.
  apply list_elem_of_In, H in Hh. cbn [fst snd] in *.
  apply andb_true_iff in Hh as [Hh H3]. apply andb_true_iff in Hh as [H1 H2].
  split; [split|].
  - by apply bool_decide_eq_true in H1.
  - apply Forall_forall. intros c Hc. rewrite forallb_forall in H2.
    by apply H2, list_elem_of_In.
  - apply Forall_forall. intros c Hc. rewrite forallb_forall in H3.
    apply list_elem_of_In, H3, andb_true_iff in Hc as [Hc1 Hc2].
    split; [by apply negb_true_iff|by apply Nat.ltb_lt].
Qed.

(** X15: the pattern loop of [processHandshake] on a response head (a
    status line without a colon, header lines of the form [name: value]
    ended by CR LF, an empty line) finds one match for every header line,
    in order: the name, which the loop turns to lower case, and the value
    up to the end of its line. *)
Theorem header_lines_are_parsed (status : string) (headers : list (string * string)) :
  Forall (λ c, c ≠ ":"%char) (chars status) →
  Forall (λ h, is_name h.1 ∧ is_value h.2) headers →
  headerPattern (chars (http_response status headers)) [] None
    = (λ h, (lower h.1, h.2)) <$> headers.
Proof. apply header_lines_parsed. Qed.

Lemma header_lines_are_parsed_witness :
  let headers :=
    example_headers ++ [("SEC-WEBSOCKET-ACCEPT", "s3pPLMBiTxaQ9kYGzzhZRbK+xOo=")] in
  headerPattern (chars (http_response "HTTP/1.1 101 Switching Protocols" headers))
                [] None
    = [("upgrade", "websocket"); ("connection", "Upgrade");
       ("sec-websocket-accept", "s3pPLMBiTxaQ9kYGzzhZRbK+xOo=")].
Proof.
  assert (Forall (λ c, c ≠ ":"%char) (chars "HTTP/1.1 101 Switching Protocols")) as H1
    by (by apply colon_free; vm_compute).
  assert (Forall (λ h, is_name h.1 ∧ is_value h.2)
            (example_headers
               ++ [("SEC-WEBSOCKET-ACCEPT", "s3pPLMBiTxaQ9kYGzzhZRbK+xOo=")])) as H2
    by (by apply names_and_values; vm_compute).
  exact (header_lines_are_parsed "HTTP/1.1 101 Switching Protocols" _ H1 H2).
Defined.

Lemma lookup_foldl_insert_ne (l : list (string * string)) (k : string) :
  ∀ m : gmap string string,
  Forall (λ h, h.1 ≠ k) l →
  foldl (λ headers h, <[h.1 := h.2]> headers) m l !! k = m !! k.
Proof.
  induction l as [|[k' v'] l IH]; intros m Hl; [done|].
  apply Forall_cons in Hl as [Hk Hl]. cbn [foldl]. rewrite IH by done.
  by rewrite lookup_insert_ne.
Qed.

Lemma lookup_foldl_insert_last (l1 l2 : list (string * string)) (k v : string) :
  Forall (λ h, h.1 ≠ k) l2 →
  foldl (λ headers h, <[h.1 := h.2]> headers) (∅ : gmap string string)
        (l1 ++ (k, v) :: l2) !! k = Some v.
Proof.
  intros Hl2. rewrite foldl_app. cbn [foldl]. rewrite lookup_foldl_insert_ne by done.
  apply lookup_insert_eq.
Qed.

Lemma prefix_app (p r : string) : String.prefix p (p +:+ r) = true.
Proof.
  induction p as [|a p IH]; [by destruct r|].
  change (String a p +:+ r) with (String a (p +:+ r)). cbn [String.prefix].
  by destruct (Ascii.ascii_dec a a).
Qed.

Lemma index_prefix (a : ascii) (p r : string) :
  String.index 0 (String a p) (String a p +:+ r) = Some 0%nat.
Proof.
  change (String a p +:+ r) with (String a (p +:+ r)) at 1.
  cbn [String.index].
  change (String a (p +:+ r)) with (String a p +:+ r). by rewrite prefix_app.
Qed.

Lemma app_assoc_string (a b c : string) : (a +:+ b) +:+ c = a +:+ (b +:+ c).
Proof.
  induction a as [|x a IH]; [done|].
  change (String x a +:+ b) with (String x (a +:+ b)).
  change (String x (a +:+ b) +:+ c) with (String x ((a +:+ b) +:+ c)).
  by rewrite IH.
Qed.

Lemma abortHandshake_runs msg s :
  socket s = true →
  let effects := match socketState s with
                 | Socket_CONNECTED => [SocketClose]
                 | _ => []
                 end in
  let s' := state_after (abortHandshake msg) s in
  readyState s' = CLOSED
  ∧ trace s' = trace s ++ effects ++ [Emit "close" (ev_number CloseCode.abnormal)].
Proof.
  intros Hsocket. unfold abortHandshake, state_after. rewrite bind_update, bind_read.
  cbn [socket set_readyState]. rewrite Hsocket. rewrite bind_bind, bind_read.
  cbn [socketState set_readyState].
  destruct (socketState s); try (rewrite bind_ret; by cbn).
  unfold socket_close. rewrite !bind_bind, bind_read. cbn [socket set_readyState].
  rewrite Hsocket. rewrite bind_bind, bind_update. unfold perform. rewrite bind_update.
  cbn. by rewrite <- app_assoc.
Qed.

(** X16: the chunk that arrives while the connection is CONNECTING settles
    the handshake.  In a response that starts with [HTTP/1.1 101] the
    header Sec-WebSocket-Accept decides, whatever the case of the letters
    of its name, and the last one if there are several: when its value is
    the hash of the key and the GUID the connection is OPEN and ['open'] is
    emitted; when it is not, the socket is closed if it is connected,
    ['close'] is emitted with the code 1006 and the connection is
    CLOSED. *)
Theorem handshake_is_settled_by_the_accept_header (s : WebSocket)
    (reason : string) (before after : list (string * string)) (name value : string) :
  readyState s = CONNECTING → socket s = true →
  Forall (λ c, c ≠ ":"%char) (chars reason) →
  Forall (λ h, is_name h.1 ∧ is_value h.2) (before ++ (name, value) :: after) →
  lower name = "sec-websocket-accept" →
  Forall (λ h, lower h.1 ≠ "sec-websocket-accept") after →
  let response :=
    http_response ("HTTP/1.1 101" +:+ reason) (before ++ (name, value) :: after) in
  let hash := sha1_base64 (Ti s) (secWebSocketKey s +:+ GUID) in
  let s' := step s (pump (pump_data (Buffer.fromString response))) in
  (value = hash →
   readyState s' = OPEN ∧ trace s' = trace s ++ [Emit "open" ev_undefined])
  ∧ (value ≠ hash →
     readyState s' = CLOSED
     ∧ trace s' = trace s
         ++ match socketState s with Socket_CONNECTED => [SocketClose] | _ => [] end
         ++ [Emit "close" (ev_number 1006)]).
Proof.
  intros Hrs Hsocket Hreason Hheaders Hname Hafter response hash s'.
  assert (step s (pump (pump_data (Buffer.fromString response)))
          = state_after
              (if bool_decide (Some hash = Some value)
               then update (set_readyState OPEN);; emitEvent "open" ev_undefined
               else abortHandshake "Invalid Sec-WebSocket-Accept header") s) as Hstep.
  { unfold step, state_after. cbn [handle processInputStream].
    rewrite bind_read, Hrs. change (CONNECTING =? CONNECTING) with true. cbv iota.
    unfold processHandshake. rewrite toString_fromString.
    assert (String.index 0 "HTTP/1.1 101" response = Some 0%nat) as ->.
    { unfold response, http_response. rewrite app_assoc_string. apply index_prefix. }
    fold (chars response). unfold response.
    rewrite header_lines_parsed.
    2:{ rewrite chars_app. apply Forall_app. split; [|done].
        repeat constructor; discriminate. }
    2:{ done. }
    rewrite fmap_app. cbn [fmap list_fmap fst snd]. rewrite Hname.
    rewrite lookup_foldl_insert_last.
    2:{ apply Forall_fmap. eapply Forall_impl; [exact Hafter|]. by intros [??]. }
    by rewrite bind_read, bind_read. }
  subst s'. rewrite Hstep. split.
  - intros ->. rewrite bool_decide_eq_true_2 by done.
    unfold state_after. by rewrite bind_update.
  - intros Hne. rewrite bool_decide_eq_false_2 by congruence.
    by apply abortHandshake_runs.
Qed.

Lemma handshake_is_settled_by_the_accept_header_witness :
  let s := step example_new socket_connected in
  let response :=
    http_response ("HTTP/1.1 101" +:+ " Switching Protocols")
      (example_headers ++ [("SEC-WEBSOCKET-ACCEPT", "s3pPLMBiTxaQ9kYGzzhZRbK+xOo=")]) in
  let s' := step s (pump (pump_data (Buffer.fromString response))) in
  (readyState s = CONNECTING ∧ socket s = true
   ∧ sha1_base64 (Ti s) (secWebSocketKey s +:+ GUID) = "s3pPLMBiTxaQ9kYGzzhZRbK+xOo=")
  ∧ readyState s' = OPEN ∧ trace s' = trace s ++ [Emit "open" ev_undefined].
Proof.
  assert (readyState (step example_new socket_connected) = CONNECTING) as H1
    by reflexivity.
  assert (socket (step example_new socket_connected) = true) as H2 by reflexivity.
  assert (Forall (λ c, c ≠ ":"%char) (chars " Switching Protocols")) as H3
    by (by apply colon_free; vm_compute).
  assert (Forall (λ h, is_name h.1 ∧ is_value h.2)
            (example_headers
               ++ ("SEC-WEBSOCKET-ACCEPT", "s3pPLMBiTxaQ9kYGzzhZRbK+xOo=") :: []))
    as H4 by (by apply names_and_values; vm_compute).
  assert (lower "SEC-WEBSOCKET-ACCEPT" = "sec-websocket-accept") as H5 by reflexivity.
  assert (Forall (λ h : string * string, lower h.1 ≠ "sec-websocket-accept") []) as H6
    by apply Forall_nil_2.
  cbv zeta. split; [repeat (first [assumption | split]); first [reflexivity | done]|].
  exact (proj1 (handshake_is_settled_by_the_accept_header _ " Switching Protocols"
                  example_headers [] "SEC-WEBSOCKET-ACCEPT"
                  "s3pPLMBiTxaQ9kYGzzhZRbK+xOo=" H1 H2 H3 H4 H5 H6) eq_refl).
Defined.

(** X17: [ResponseStack]: after [push] the pushed response is [last], and
    [pop] gives the stack back as it was before the [push]; [last] of the
    empty stack is [null] and [pop] leaves the empty stack empty. *)
Theorem ResponseStack_is_a_stack (response : WebSocketResponse)
    (stack : list WebSocketResponse) :
  ResponseStack.last (ResponseStack.push response stack) = Some response
  ∧ ResponseStack.pop (ResponseStack.push response stack) = stack
  ∧ ResponseStack.last [] = None
  ∧ ResponseStack.pop [] = [].
Proof.
  unfold ResponseStack.last, ResponseStack.pop, ResponseStack.push.
  rewrite fmap_app. cbn [fmap list_fmap]. rewrite last_last, removelast_last.
  done.
Qed.

Lemma sendAfterClose_reports d id s :
  readyState s = CLOSING ∨ readyState s = CLOSED →
  sendAfterClose d (cb_function id) s
    = (set_trace (trace s ++ [Call id (Some (not_open (readyState s)))]) s, Normal tt).
Proof.
  intros Hrs. unfold sendAfterClose. rewrite bind_read.
  by destruct Hrs as [Hrs|Hrs]; rewrite Hrs.
Qed.

(** X18: [send] and [pong] on a connection that is CLOSING or CLOSED send
    nothing and throw nothing.  A callback, if one is given, is called at
    once with the error [WebSocket is not open: readyState 2 (CLOSING)] or
    [... 3 (CLOSED)]; without a callback the call has no effect at all. *)
Theorem send_after_close_reports_the_state (s : WebSocket) (d : JsData)
    (options : SendOptions) (mask : option bool) (cb : option nat) :
  readyState s = CLOSING ∨ readyState s = CLOSED →
  let s' := match cb with
            | Some id => set_trace (trace s ++ [Call id (Some (not_open (readyState s)))]) s
            | None => s
            end in
  handle (call_send d options cb) s = (s', Normal tt)
  ∧ handle (call_pong d mask cb) s = (s', Normal tt).
Proof.
  intros Hrs s'. subst s'. cbn [handle]. unfold send, pong. rewrite !bind_read.
  assert (readyState s ≠ CONNECTING ∧ readyState s ≠ OPEN) as [Hc Ho]
    by (destruct Hrs as [-> | ->]; done).
  destruct (Z.eqb_spec (readyState s) CONNECTING); [done|].
  destruct (Z.eqb_spec (readyState s) OPEN); [done|]. cbn [negb].
  destruct cb as [id|]; cbn [callback]; [|done].
  by rewrite sendAfterClose_reports.
Qed.

Lemma send_after_close_reports_the_state_witness :
  let s := step example_open (call_close None None) in
  (readyState s = CLOSING ∨ readyState s = CLOSED)
  ∧ handle (call_send (data_buffer 0) {| binary := None; compress := None; opt_fin := None |}
              (Some 7%nat)) s
    = (set_trace (trace s ++ [Call 7 (Some (not_open (readyState s)))]) s, Normal tt)
  ∧ handle (call_pong (data_buffer 0) None (Some 7%nat)) s
    = (set_trace (trace s ++ [Call 7 (Some (not_open (readyState s)))]) s, Normal tt).
Proof.
  assert (readyState (step example_open (call_close None None)) = CLOSING
          ∨ readyState (step example_open (call_close None None)) = CLOSED) as H
    by (left; reflexivity).
  cbv zeta. split; [exact H|].
  exact (send_after_close_reports_the_state _ (data_buffer 0)
           {| binary := None; compress := None; opt_fin := None |} None (Some 7%nat) H).
Defined.

Lemma unmasked_first_byte (final : bool) (opc : Z) rest :
  0 ≤ opc < 16 →
  let first := (if final then 128 else 0) + opc in
  0 ≤ first < 256
  ∧ Frame.isFin (first :: rest) = final ∧ Frame.opcode (first :: rest) = opc.
Proof.
  intros Hopc first. subst first.
  pose proof (forallb_below
    (λ opc, forallb (λ final : bool,
       let first := (if final then 128 else 0) + opc in
       (0 <=? first) && (first <? 256)
       && Bool.eqb (Frame.isFin [first]) final
       && (Frame.opcode [first] =? opc)) [true; false]) 16 eq_refl opc Hopc) as H.
  cbv zeta in H. cbn [forallb] in H.
  repeat (apply andb_true_iff in H as [H ?]).
  destruct final.
  - repeat match goal with H : _ && _ = true |- _ =>
      apply andb_true_iff in H as [H ?] end.
    repeat split; try lia; [by apply Bool.eqb_prop|by apply Z.eqb_eq].
  - repeat match goal with H : _ && _ = true |- _ =>
      apply andb_true_iff in H as [H ?] end.
    repeat split; try lia; [by apply Bool.eqb_prop|by apply Z.eqb_eq].
Qed.

Lemma unmasked_short_length (L : Z) first rest :
  0 ≤ L ≤ 125 →
  Frame.isMasked (first :: L :: rest) = false
  ∧ Frame.payloadLength (first :: L :: rest) = L.
Proof.
  intros HL.
  pose proof (forallb_below
    (λ L, negb (Frame.isMasked [0; L]) && (Frame.payloadLength [0; L] =? L))
    126 eq_refl L ltac:(lia)) as H.
  apply andb_true_iff in H as [H1 H2]. apply Z.eqb_eq in H2.
  apply negb_true_iff in H1. by split.
Qed.

Lemma unmasked_frame_fields (final : bool) (opc : Z) (payload : list Z) :
  0 ≤ opc < 16 → Buffer.is_bytes payload → Buffer.length payload ≤ 65535 →
  let frame := unmasked_frame final opc payload in
  Buffer.is_bytes frame
  ∧ Frame.isFin frame = final ∧ Frame.opcode frame = opc
  ∧ Frame.isMasked frame = false ∧ Frame.payloadLength frame ≠ 127
  ∧ Frame.payloadDataLength frame = Buffer.length payload
  ∧ Frame.payloadDataOffset frame + Frame.payloadDataLength frame = Buffer.length frame
  ∧ frame_payload frame = payload.
Proof.
  intros Hopc Hb Hmax frame. subst frame. unfold unmasked_frame.
  set (L := Buffer.length payload) in *.
  assert (0 ≤ L) as HL by (unfold L, Buffer.length; lia).
  set (first := (if final then 128 else 0) + opc).
  destruct (Z.leb_spec L 125) as [Hshort|Hlong].
  - destruct (unmasked_first_byte final opc (L :: payload) Hopc) as (Hf & Hfin & Hop).
    destruct (unmasked_short_length L first payload ltac:(lia)) as [Hmasked Hlen].
    fold first in Hf, Hfin, Hop.
    assert (Frame.payloadDataLength (first :: L :: payload) = L) as Hdata.
    { unfold Frame.payloadDataLength. rewrite Hlen.
      by destruct (Z.eqb_spec L 126); [lia|]. }
    assert (Frame.payloadDataOffset (first :: L :: payload) = 2) as Hoff.
    { unfold Frame.payloadDataOffset. rewrite Hlen.
      by destruct (Z.eqb_spec L 126); [lia|]. }
    repeat split; try done.
    + do 2 (constructor; [lia|]). done.
    + lia.
    + rewrite Hdata, Hoff. unfold L, Buffer.length. cbn [length]. lia.
    + unfold frame_payload. rewrite Hdata, Hoff. change (Z.to_nat 2) with 2%nat.
      cbn [drop]. apply take_ge. unfold L, Buffer.length. lia.
  - set (rest := 126 :: L / 256 :: L mod 256 :: payload).
    destruct (unmasked_first_byte final opc rest Hopc) as (Hf & Hfin & Hop).
    fold first in Hf, Hfin, Hop.
    assert (0 ≤ L / 256 < 256) as Hhi by (Z.div_mod_to_equations; lia).
    assert (0 ≤ L mod 256 < 256) as Hlo by (apply Z.mod_pos_bound; lia).
    assert (Buffer.is_bytes (first :: rest)) as Hbytes.
    { do 4 (constructor; [lia|]). done. }
    assert (Frame.payloadLength (first :: rest) = 126) as Hlen by reflexivity.
    assert (Frame.payloadDataLength (first :: rest) = L) as Hdata.
    { rewrite payloadDataLength_126 by done.
      change (Buffer.get (first :: rest) 2) with (Some (L / 256)).
      change (Buffer.get (first :: rest) 3) with (Some (L mod 256)).
      rewrite !toInt32_byte by done. Z.div_mod_to_equations. lia. }
    assert (Frame.payloadDataOffset (first :: rest) = 4) as Hoff by reflexivity.
    repeat split; try done.
    + rewrite Hdata, Hoff. unfold L, rest, Buffer.length. cbn [length]. lia.
    + unfold frame_payload. rewrite Hdata, Hoff. change (Z.to_nat 4) with 4%nat.
      cbn [drop rest]. apply take_ge. unfold L, Buffer.length. lia.
Qed.

(** X19: the decoder reads the wire format of an unmasked frame.  A text or
    binary frame with FIN and a payload of up to 65535 bytes (well-formed
    UTF-8 in a text frame), with the 7-bit length field or with the 16-bit
    one, delivered alone in a chunk while no message is open, gives
    exactly one ['message'] with the payload; nothing else of the
    connection changes. *)
Theorem unmasked_frame_is_decoded (s : WebSocket) (opc : Z) (payload : list Z) :
  readyState s ≠ CONNECTING → responseStack s = [] →
  opc = OpcodeTextFrame ∨ opc = OpcodeBinaryFrame →
  Buffer.is_bytes payload → Buffer.length payload ≤ 65535 →
  decodable opc payload →
  handle (pump (pump_data (unmasked_frame true opc payload))) s
    = (set_trace (trace s ++ [Emit "message" (message_event opc payload)]) s,
       Normal tt).
Proof.
  intros Hstate Hstack Hopc Hb Hmax _.
  assert (0 ≤ opc < 16) as Hrange by (destruct Hopc as [-> | ->]; done).
  destruct (unmasked_frame_fields true opc payload Hrange Hb Hmax)
    as (Hbytes & Hfin & Hop & Hmasked & H127 & Hdata & Hcomplete & Hpayload).
  set (frame := unmasked_frame true opc payload) in *.
  rewrite deliver_complete_frame by done.
  unfold bind at 1.
  rewrite processDataFrame_new; [|try done; try lia..].
  2:{ by rewrite Hfin, andb_false_r. }
  rewrite bind_update, Hfin, Hop, Hpayload.
  erewrite bind_Normal; [|by apply processResponse_message].
  unfold ret. cbn [opcode buffer]. 
  assert (set_responseStack (ResponseStack.pop (responseStack
            (set_responseStack [{| isFin := true; opcode := opc; bytesLeft := 0;
                                   frameCount := 1; buffer := payload |}] s)))
            (set_trace (trace (set_responseStack
               [{| isFin := true; opcode := opc; bytesLeft := 0;
                   frameCount := 1; buffer := payload |}] s)
               ++ [Emit "message" (message_event opc payload)])
               (set_responseStack
                  [{| isFin := true; opcode := opc; bytesLeft := 0;
                      frameCount := 1; buffer := payload |}] s))
          = set_trace (trace s ++ [Emit "message" (message_event opc payload)]) s)
    as ->; [|done].
  clear - Hstack. destruct s. cbn in *. by subst.
Qed.

Lemma unmasked_frame_is_decoded_witness :
  (readyState example_open ≠ CONNECTING ∧ responseStack example_open = []
   ∧ unmasked_frame true OpcodeTextFrame [104; 105] = [0x81; 2; 104; 105]
   ∧ decodable OpcodeTextFrame [104; 105])
  ∧ handle (pump (pump_data (unmasked_frame true OpcodeTextFrame [104; 105])))
           example_open
    = (set_trace (trace example_open
                    ++ [Emit "message" (message_event OpcodeTextFrame [104; 105])])
         example_open, Normal tt).
Proof.
  assert (readyState example_open ≠ CONNECTING) as H1 by (by vm_compute).
  assert (responseStack example_open = []) as H2 by reflexivity.
  assert (Buffer.is_bytes [104; 105]) as H3 by (by apply is_bytesb_spec; vm_compute).
  assert (Buffer.length [104; 105] ≤ 65535) as H4 by (by vm_compute).
  assert (decodable OpcodeTextFrame [104; 105]) as H5 by (intros _; reflexivity).
  split; [repeat (first [assumption | split]); first [reflexivity | done]|].
  exact (unmasked_frame_is_decoded example_open OpcodeTextFrame [104; 105]
           H1 H2 (or_introl eq_refl) H3 H4 H5).
Defined.

Lemma fromString_toString (b : list Z) :
  Buffer.is_bytes b → Buffer.fromString (Buffer.toString b) = b.
Proof.
  intros Hb. unfold Buffer.toString, Buffer.fromString.
  rewrite String.list_ascii_of_string_of_list_ascii, <- list_fmap_compose.
  induction Hb as [|x b Hx Hb IH]; [done|].
  cbn [fmap list_fmap compose]. f_equal; [|exact IH].
  rewrite Ascii.N_ascii_embedding by lia. lia.
Qed.

(** X20: a close frame received on an open connection is answered with a
    close frame of the same payload (empty, or a status code other than
    1005 followed by a reason in ASCII), masked.  The connection is
    CLOSING, [closeFrameReceived] is set, the response stack is empty, and
    the callback that will set [closeFrameSent] waits for the write. *)
Theorem close_frame_is_echoed (s : WebSocket) (payload : list Z) :
  readyState s = OPEN → sender s ≠ None → length (mask s) = 4%nat →
  responseStack s = [] →
  Buffer.is_bytes payload → Buffer.length payload ≤ 65535 →
  length payload ≠ 1%nat →
  (close_status payload).1 ≠ Some CloseCode.noStatus →
  Forall (λ x, x < 128) (drop 2 payload) →
  let s' := step s (pump (pump_data (unmasked_frame true OpcodeConnectionClose payload))) in
  readyState s' = CLOSING ∧ closeFrameReceived s' = true
  ∧ responseStack s' = []
  ∧ pending s' = pending s
      ++ [cb_closeFrameSent (close_status payload).1 (close_status payload).2]
  ∧ ∃ frame,
      trace s' = trace s ++ [SocketWrite frame]
      ∧ Frame.isFin frame = true ∧ Frame.opcode frame = OpcodeConnectionClose
      ∧ Frame.isMasked frame = true ∧ wire_length frame = Buffer.length payload
      ∧ mask_spec (take 4 (drop (wire_offset frame) frame))
                  (drop (wire_offset frame + 4) frame) = payload.
Proof.
  intros Hopen Hsender Hm Hstack Hb Hmax Hone Hstatus Hascii s'.
  destruct (unmasked_frame_fields true OpcodeConnectionClose payload
              ltac:(done) Hb Hmax)
    as (Hbytes & Hfin & Hop & Hmasked & H127 & Hdata & Hcomplete & Hpayload).
  set (chunk := unmasked_frame true OpcodeConnectionClose payload) in *.
  set (code := (close_status payload).1) in *.
  set (reason := (close_status payload).2).
  assert (Sender.close_data code reason = Normal payload) as Hbuild.
  { destruct payload as [|hi [|lo rest]]; [done|done|].
    apply Forall_cons in Hb as [Hhi Hb]. apply Forall_cons in Hb as [Hlo Hb].
    cbn [close_status fst snd] in code, reason. subst code reason.
    rewrite close_data_code by lia. cbn [default from_option id].
    rewrite fromString_toString by done.
    f_equal. f_equal; [|f_equal]; Z.div_mod_to_equations; lia. }
  assert (closeCode_and_closeReason payload =
            ret (default CloseCode.noStatus code,
                 default "connection closed by server" reason)) as Hparse.
  { destruct payload as [|hi [|lo rest]]; [done|done|].
    unfold closeCode_and_closeReason, Buffer.length. cbn [length].
    destruct (Z.eqb_spec (Z.of_nat (S (S (length rest)))) 0); [lia|].
    destruct (Z.eqb_spec (Z.of_nat (S (S (length rest)))) 1); [lia|].
    reflexivity. }
  assert (handle (pump (pump_data chunk)) s =
    (let l := fresh (dom (heap s)) in
     let o := {| data := data_buffer l; frame_opcode := OpcodeConnectionClose;
                 fin := true; rsv1 := false |} in
     let s1 := set_closeFrameReceived true
                 (set_responseStack
                    [{| isFin := true; opcode := OpcodeConnectionClose;
                        bytesLeft := 0; frameCount := 1; buffer := payload |}] s) in
     let s2 := set_readyState CLOSING s1 in
     let s3 := framed l payload (set_heap (<[l := payload]> (heap s2)) s2) in
     set_responseStack []
       (set_pending (pending s ++ [cb_closeFrameSent code reason])
          (set_trace (trace s ++ [SocketWrite
             (frame_header o (Buffer.length payload) (next_key s)
                ++ imap (masked_byte (next_key s)) payload)]) s3)), Normal tt))
    as Hrun.
  { rewrite deliver_complete_frame by (by rewrite ?Hopen).
    unfold bind at 1.
    rewrite processDataFrame_new; [|try done; try lia..].
    2:{ by rewrite Hfin, andb_false_r. }
    rewrite bind_update, Hfin, Hop, Hpayload.
    unfold processResponse. cbn [isFin bytesLeft opcode buffer].
    change (true && (0 <=? 0)) with true. cbn [when].
    change (OpcodeConnectionClose =? OpcodePing) with false.
    change (OpcodeConnectionClose =? OpcodeConnectionClose) with true. cbv iota.
    rewrite Hparse. run_m. cbn [fst snd].
    assert (∀ s1, readyState s1 = OPEN → sender s1 = sender s →
                  mask s1 = mask s →
      (if default CloseCode.noStatus code =? CloseCode.noStatus
       then close None None
       else close (Some (default CloseCode.noStatus code))
                  (Some (default "connection closed by server" reason))) s1
      = Sender.close code reason (cb_closeFrameSent code reason)
          (set_readyState CLOSING s1)) as Hclose.
    { intros s1 Hrs Hs1 Hm1.
      assert (∀ c r, close c r s1
                = Sender.close c r (cb_closeFrameSent c r) (set_readyState CLOSING s1))
        as Hc.
      { intros c r. unfold close. rewrite bind_read, Hrs.
        change (OPEN =? CLOSED) with false. change (OPEN =? CONNECTING) with false.
        change (OPEN =? CLOSING) with false. cbv iota.
        rewrite bind_update, bind_read. cbn [sender set_readyState]. rewrite Hs1.
        by destruct (sender s). }
      destruct payload as [|hi [|lo rest]]; [|done|];
        cbn [close_status fst snd] in code, reason; subst code reason;
        cbn [default from_option id].
      { change (CloseCode.noStatus =? CloseCode.noStatus) with true. cbv iota.
        apply Hc. }
      destruct (Z.eqb_spec (hi * 256 + lo) CloseCode.noStatus) as [Heq|Hne];
        [by rewrite Heq in Hstatus|].
      by rewrite Hc. }
    unfold bind at 1.
    rewrite Hclose by done.
    rewrite (Sender_close_sends _ code reason _ payload Hbuild); [|lia|done].
    cbv zeta. cbv beta iota. rewrite bind_update. by unfold ret. }
  subst s'. unfold step, state_after. rewrite Hrun. cbv zeta. cbn [fst].
  cbn [readyState closeFrameReceived responseStack pending trace set_responseStack
       set_pending set_trace framed set_heap set_mask set_drawn set_readyState
       set_closeFrameReceived].
  repeat (split; [done|]).
  eexists. split; [done|].
  assert (0 ≤ Buffer.length payload) by (unfold Buffer.length; lia).
  edestruct (frame_layout
               {| data := data_buffer (fresh (dom (heap s)));
                  frame_opcode := OpcodeConnectionClose; fin := true; rsv1 := false |}
               (Buffer.length payload) (next_key s)
               (imap (masked_byte (next_key s)) payload))
    as (F1 & F2 & F3 & F4 & F5 & F6); [done|done|done|lia|done|].
  repeat (split; [done|]).
  rewrite F5, F6, (masked_is_mask_spec _ _ (next_key_is_bytes s)) by done.
  apply mask_spec_twice.
Qed.

Lemma close_frame_is_echoed_witness :
  let payload := [3; 232; 98; 121; 101] in
  let s' := step example_open
              (pump (pump_data (unmasked_frame true OpcodeConnectionClose payload))) in
  (readyState example_open = OPEN ∧ responseStack example_open = []
   ∧ close_status payload = (Some 1000, Some "bye"))
  ∧ readyState s' = CLOSING ∧ closeFrameReceived s' = true
  ∧ responseStack s' = []
  ∧ pending s' = pending example_open
      ++ [cb_closeFrameSent (close_status payload).1 (close_status payload).2]
  ∧ ∃ frame,
      trace s' = trace example_open ++ [SocketWrite frame]
      ∧ Frame.isFin frame = true ∧ Frame.opcode frame = OpcodeConnectionClose
      ∧ Frame.isMasked frame = true ∧ wire_length frame = Buffer.length payload
      ∧ mask_spec (take 4 (drop (wire_offset frame) frame))
                  (drop (wire_offset frame + 4) frame) = payload.
Proof.
  assert (readyState example_open = OPEN) as H1 by reflexivity.
  assert (sender example_open ≠ None) as H2 by (by vm_compute).
  assert (length (mask example_open) = 4%nat) as H3 by reflexivity.
  assert (responseStack example_open = []) as H4 by reflexivity.
  assert (Buffer.is_bytes [3; 232; 98; 121; 101]) as H5
    by (by apply is_bytesb_spec; vm_compute).
  assert (Buffer.length [3; 232; 98; 121; 101] ≤ 65535) as H6 by (by vm_compute).
  assert (length [3; 232; 98; 121; 101] ≠ 1%nat) as H7 by (by vm_compute).
  assert ((close_status [3; 232; 98; 121; 101]).1 ≠ Some CloseCode.noStatus) as H8
    by (by vm_compute).
  assert (Forall (λ x, x < 128) (drop 2 [3; 232; 98; 121; 101])) as H9
    by (repeat constructor; lia).
  cbv zeta. split; [repeat (first [assumption | split]); first [reflexivity | done]|].
  exact (close_frame_is_echoed example_open [3; 232; 98; 121; 101]
           H1 H2 H3 H4 H5 H6 H7 H8 H9).
Defined.

Global Instance past_open_preorder : PreOrder past_open.
Proof.
  split; [by split; [|left]|].
  intros s1 s2 s3 [Ho12 Hr12] [Ho23 Hr23]. split; [congruence|].
  destruct Hr23 as [->|Hr23]; [exact Hr12|by right].
Qed.

Lemma past_open_inv s s' : past_open s s' → open_inv s → open_inv s'.
Proof.
  intros [Ho Hr] (Iv&Ile&Ic&Io). unfold open_inv, valid_readyState in *.
  rewrite Ho. unfold CONNECTING, OPEN, CLOSING, CLOSED in *.
  destruct Hr as [->|[->| ->]]; repeat split; try done; try lia.
Qed.

Lemma opens_app t e :
  opens (t ++ [e]) = (opens t + if is_open_event e then 1 else 0)%nat.
Proof.
  unfold opens. rewrite List.filter_app, length_app. cbn.
  by destruct (is_open_event e).
Qed.

Lemma past_open_update f :
  (∀ s, trace (f s) = trace s) →
  (∀ s, readyState (f s) = readyState s ∨ readyState (f s) = CLOSING
        ∨ readyState (f s) = CLOSED) →
  preserves past_open (update f).
Proof.
  intros Ht Hr. apply preserves_update. intros s. split; [by rewrite Ht|apply Hr].
Qed.

Lemma past_open_perform e : is_open_event e = false → preserves past_open (perform e).
Proof.
  intros He. apply preserves_update. intros s. split; [|by left].
  cbn [trace set_trace]. rewrite opens_app, He. lia.
Qed.

Ltac past_open_updates :=
  try (apply past_open_update; intros ?;
       [reflexivity
       |cbn [readyState set_responseStack set_readyState set_socket set_closeFrameSent
             set_closeFrameReceived set_sender set_mask set_socketState set_heap
             set_drawn set_pending set_trace]; auto]);
  try (apply past_open_perform; reflexivity).

Lemma createFrameBuffer_past_open o : preserves past_open (Sender.createFrameBuffer o).
Proof.
  unfold Sender.createFrameBuffer, Sender.data_length, randomFillSync, applyMask.
  preserve; past_open_updates.
Qed.

Lemma sendFrame_past_open frame cb : preserves past_open (Sender.sendFrame frame cb).
Proof. unfold Sender.sendFrame. preserve; past_open_updates. Qed.

Lemma new_buffer_past_open b : preserves past_open (Sender.new_buffer b).
Proof. unfold Sender.new_buffer. preserve; past_open_updates. Qed.

Lemma Sender_send_past_open ff d binary compress fin cb :
  preserves past_open (Sender.send ff d binary compress fin cb).
Proof.
  unfold Sender.send. preserve; past_open_updates;
    first [apply createFrameBuffer_past_open | apply sendFrame_past_open].
Qed.

Lemma Sender_pong_past_open d cb : preserves past_open (Sender.pong d cb).
Proof.
  unfold Sender.pong, Sender.buffer_from. preserve; past_open_updates;
    first [apply createFrameBuffer_past_open | apply sendFrame_past_open
          | apply new_buffer_past_open].
Qed.

Lemma Sender_close_past_open code reason cb :
  preserves past_open (Sender.close code reason cb).
Proof.
  unfold Sender.close. preserve; past_open_updates;
    first [apply createFrameBuffer_past_open | apply sendFrame_past_open
          | apply new_buffer_past_open].
Qed.

Lemma sendAfterClose_past_open d cb : preserves past_open (sendAfterClose d cb).
Proof. unfold sendAfterClose. preserve; past_open_updates. Qed.

Lemma pong_past_open d mask cb : preserves past_open (pong d mask cb).
Proof.
  unfold pong, or_EMPTY_BUFFER. preserve; past_open_updates;
    first [apply sendAfterClose_past_open | apply Sender_pong_past_open
          | apply new_buffer_past_open].
Qed.

Lemma send_past_open d options cb : preserves past_open (send d options cb).
Proof.
  unfold send. preserve; past_open_updates;
    first [apply sendAfterClose_past_open | apply Sender_send_past_open].
Qed.

Lemma emitClose_past_open code msg : preserves past_open (emitClose code msg).
Proof. unfold emitClose, emitEvent. preserve; past_open_updates. Qed.

Lemma socket_close_past_open : preserves past_open socket_close.
Proof. unfold socket_close. preserve; past_open_updates. Qed.

Lemma abortHandshake_past_open msg : preserves past_open (abortHandshake msg).
Proof.
  unfold abortHandshake. preserve; past_open_updates;
    first [apply emitClose_past_open | apply socket_close_past_open].
Qed.

Lemma closeSocket_past_open code reason : preserves past_open (closeSocket code reason).
Proof.
  unfold closeSocket. preserve;
    first [apply emitClose_past_open | apply socket_close_past_open].
Qed.

Lemma close_past_open code reason : preserves past_open (close code reason).
Proof.
  unfold close. preserve; past_open_updates;
    first [apply abortHandshake_past_open | apply closeSocket_past_open
          | apply Sender_close_past_open].
Qed.

Lemma run_callback_past_open cb : preserves past_open (run_callback cb).
Proof.
  unfold run_callback. preserve; past_open_updates. apply closeSocket_past_open.
Qed.

Lemma disconnectAndEmitError_past_open e code :
  preserves past_open (disconnectAndEmitError e code).
Proof.
  unfold disconnectAndEmitError, emitEvent. preserve; past_open_updates.
  apply close_past_open.
Qed.

Lemma processResponse_past_open response :
  preserves past_open (processResponse response).
Proof.
  unfold processResponse, closeCode_and_closeReason, emitEvent.
  preserve; past_open_updates;
    first [apply close_past_open | apply pong_past_open | apply new_buffer_past_open].
Qed.

Lemma processDataFrame_past_open buffer : preserves past_open (processDataFrame buffer).
Proof.
  unfold processDataFrame, update_last. preserve; past_open_updates;
    first [apply disconnectAndEmitError_past_open | apply processResponse_past_open].
Qed.

Lemma processDataFramesInBuffer_past_open buffer :
  preserves past_open (processDataFramesInBuffer buffer).
Proof.
  unfold processDataFramesInBuffer. preserve. apply processDataFrame_past_open.
Qed.

Lemma processHandshake_open_inv buffer s :
  open_inv s → readyState s = CONNECTING →
  open_inv (state_after (processHandshake buffer) s).
Proof.
  intros I Hrs. unfold processHandshake.
  destruct (String.index _ _ _);
    [|by apply (past_open_inv s), I; apply abortHandshake_past_open].
  unfold state_after. rewrite bind_read, bind_read.
  destruct (bool_decide _);
    [|by apply (past_open_inv s), I; apply abortHandshake_past_open].
  destruct I as (Iv&Ile&Ic&Io). rewrite bind_update.
  unfold emitEvent, perform, update. emit_name. cbn [fst].
  unfold open_inv, valid_readyState. cbn [readyState trace set_trace set_readyState].
  rewrite opens_app, (Ic Hrs). cbn [is_open_event].
  rewrite bool_decide_eq_true_2 by done.
  unfold CONNECTING, OPEN, CLOSED. repeat split; try done; try lia.
Qed.

Lemma handle_open_inv i s : open_inv s → open_inv (step s i).
Proof.
  intros I. unfold step.
  assert (∀ {A} (m : M A), preserves past_open m → open_inv (state_after m s))
    as Hpast by (intros A m H; by apply (past_open_inv s), I).
  destruct i as [d options cb|d mask cb|code reason| |e|e|i|name]; cbn [handle].
  - apply Hpast, send_past_open.
  - apply Hpast, pong_past_open.
  - apply Hpast, close_past_open.
  - apply Hpast. unfold connected, performWsHandshake. preserve; past_open_updates.
  - apply Hpast. unfold error, emitEvent. preserve; past_open_updates.
  - destruct e as [| |buffer]; cbn [processInputStream].
    + apply Hpast. unfold socketOnClose. preserve; past_open_updates.
      apply emitClose_past_open.
    + done.
    + unfold state_after. rewrite bind_read.
      destruct (Z.eqb_spec (readyState s) CONNECTING).
      * by apply processHandshake_open_inv.
      * apply Hpast, processDataFramesInBuffer_past_open.
  - apply Hpast. preserve; past_open_updates. apply run_callback_past_open.
  - apply Hpast. preserve; past_open_updates.
Qed.

Lemma run_open_inv inputs : ∀ s, open_inv s → open_inv (run s inputs).
Proof.
  induction inputs as [|i inputs IH]; intros s H; [done|].
  cbn. apply IH. by apply handle_open_inv.
Qed.

(** X21: over the whole life of a connection ['open'] is emitted once at
    most: it has not been emitted while the connection is CONNECTING, and
    it has been emitted exactly once when the connection is OPEN. *)
Theorem open_is_emitted_on_entering_OPEN (opts : Options) (key : string)
    (ti : Titanium) (h : gmap nat (list Z)) (inputs : list Input) :
  let s := run (new_WebSocket opts key ti h) inputs in
  (opens (trace s) ≤ 1)%nat
  ∧ (readyState s = CONNECTING → opens (trace s) = 0%nat)
  ∧ (readyState s = OPEN → opens (trace s) = 1%nat).
Proof.
  intros s.
  assert (open_inv (new_WebSocket opts key ti h)) as I0.
  { unfold open_inv, valid_readyState, CONNECTING, OPEN, CLOSED. cbn.
    repeat split; try done; lia. }
  by destruct (run_open_inv inputs _ I0) as (_&?&?&?).
Qed.

Lemma foldl_header_lines (headers : list (string * string)) : ∀ (acc : string),
  foldl (λ acc h, acc +:+ h.1 +:+ ": " +:+ h.2 +:+ CRLF) acc headers +:+ CRLF
    = acc +:+ foldr (λ h rest, header_line h +:+ rest) CRLF headers.
Proof.
  induction headers as [|h headers IH]; intros acc; [done|].
  cbn [foldl foldr]. rewrite IH. unfold header_line.
  by rewrite !app_assoc_string.
Qed.

(** X22: the [connected] callback creates the sender and writes the
    upgrade request: the request line [GET path HTTP/1.1], the Host
    header, the headers of the options in their order, every line ended
    by CR LF, and an empty line.  The header pattern of
    [processHandshake] reads this request back as the host and the
    headers. *)
Theorem upgrade_request_is_written (s : WebSocket) :
  socket s = true →
  let request :=
    http_response ("GET " +:+ path (options s) +:+ " HTTP/1.1")
                  (("Host", host (options s)) :: headers (options s)) in
  handle socket_connected s =
    (set_pending (pending s ++ [NOOP])
       (set_trace (trace s ++ [SocketWrite (Buffer.fromString request)])
          (set_sender (Some true) (set_socketState Socket_CONNECTED s))),
     Normal tt)
  ∧ (Forall (λ c, c ≠ ":"%char) (chars (path (options s))) →
     Forall (λ h, is_name h.1 ∧ is_value h.2)
       (("Host", host (options s)) :: headers (options s)) →
     headerPattern (chars request) [] None
       = ("host", host (options s)) :: ((λ h, (lower h.1, h.2)) <$> headers (options s))).
Proof.
  intros Hsocket request. split.
  - cbn [handle]. unfold connected, performWsHandshake.
    rewrite !bind_update, bind_read, bind_read.
    cbn [socket options set_sender set_socketState]. rewrite Hsocket.
    unfold perform. rewrite bind_update. unfold update. do 4 f_equal.
    subst request. unfold http_response. cbn [foldr].
    rewrite foldl_header_lines. unfold header_line. cbn [fst snd].
    by rewrite !app_assoc_string.
  - intros Hpath Hheaders. subst request.
    rewrite header_lines_parsed; [done| |done].
    rewrite !chars_app. apply Forall_app. split; [|apply Forall_app; split; [done|]].
    + repeat constructor; discriminate.
    + repeat constructor; discriminate.
Qed.

Lemma upgrade_request_is_written_witness :
  socket example_new = true
  ∧ ∃ request,
      handle socket_connected example_new =
        (set_pending (pending example_new ++ [NOOP])
           (set_trace (trace example_new ++ [SocketWrite (Buffer.fromString request)])
              (set_sender (Some true) (set_socketState Socket_CONNECTED example_new))),
         Normal tt)
      ∧ headerPattern (chars request) [] None
        = [("host", "www.host.com"); ("sec-websocket-version", "13");
           ("sec-websocket-key", "dGhlIHNhbXBsZSBub25jZQ==");
           ("connection", "Upgrade"); ("upgrade", "websocket")].
Proof.
  assert (socket example_new = true) as H1 by reflexivity.
  assert (Forall (λ c, c ≠ ":"%char) (chars (path (options example_new)))) as H2
    by (by apply colon_free; vm_compute).
  assert (Forall (λ h, is_name h.1 ∧ is_value h.2)
            (("Host", host (options example_new)) :: headers (options example_new)))
    as H3 by (by apply names_and_values; vm_compute).
  split; [exact H1|]. eexists. split.
  - exact (proj1 (upgrade_request_is_written example_new H1)).
  - exact (proj2 (upgrade_request_is_written example_new H1) H2 H3).
Defined.

(** [close(code, reason)] on an open connection sends a close frame *)
Lemma close_open_sends s code reason payload :
  readyState s = OPEN → sender s ≠ None → length (mask s) = 4%nat →
  Sender.close_data code reason = Normal payload →
  Buffer.length payload ≤ 4294967295 →
  ∃ s' frame,
    close code reason s = (s', Normal tt)
    ∧ trace s' = trace s ++ [SocketWrite frame]
    ∧ Frame.opcode frame = OpcodeConnectionClose
    ∧ readyState s' = CLOSING ∧ responseStack s' = responseStack s
    ∧ sender s' = sender s.
Proof.
  intros Hopen Hsender Hm Hdata Hmax.
  eexists _, _. split.
  { unfold close. rewrite bind_read, Hopen.
    change (OPEN =? CLOSED) with false. change (OPEN =? CONNECTING) with false.
    change (OPEN =? CLOSING) with false. cbv iota.
    rewrite bind_update, bind_read. cbn [sender set_readyState].
    destruct (sender s); [|done].
    by apply Sender_close_sends. }
  cbv zeta.
  cbn [readyState sender responseStack trace set_pending set_trace framed set_heap
       set_mask set_drawn set_readyState].
  repeat split; try done.
  assert (0 ≤ Buffer.length payload) by (unfold Buffer.length; lia).
  edestruct (frame_layout
               {| data := data_buffer (fresh (dom (heap (set_readyState CLOSING s))));
                  frame_opcode := OpcodeConnectionClose; fin := true; rsv1 := false |}
               (Buffer.length payload) (next_key (set_readyState CLOSING s))
               (imap (masked_byte (next_key (set_readyState CLOSING s))) payload))
    as (F1 & F2 & F3 & F4 & F5 & F6); [done|done|done|lia|done|]. exact F2.
Qed.

(** How a computation goes on after its first step *)
Lemma bind_outcome {A B} (m : M A) (k : A → M B) s s' o :
  m s = (s', o) →
  bind m k s = match o with Normal a => k a s' | Throw e => (s', Throw e) end.
Proof. intros H. unfold bind. by rewrite H. Qed.

(** X23: a text or binary frame with FIN that arrives while a fragmented
    message is open is reported as an error, [A frame after a fragmeneted
    message must be a continue frame.]  When nobody listens to ['error'],
    [emit] throws the error out of the pump callback and the frame is
    dropped; the open message stays as it was.  With a listener the frame
    is used nevertheless: [close(1006, ...)] sends a close frame and the
    connection is CLOSING; then the payload of the frame is appended to
    the open message, which is dispatched as one ['message'] (a text
    message when its bytes are well-formed UTF-8). *)
Theorem interleaved_frame_is_appended (s : WebSocket) (chunk : list Z)
    (r : WebSocketResponse) :
  readyState s = OPEN → sender s ≠ None → length (mask s) = 4%nat →
  responseStack s = [r] →
  opcode r = OpcodeTextFrame ∨ opcode r = OpcodeBinaryFrame →
  bytesLeft r ≤ Frame.payloadDataLength chunk →
  complete_frame chunk → Frame.isFin chunk = true →
  Frame.opcode chunk = OpcodeTextFrame ∨ Frame.opcode chunk = OpcodeBinaryFrame →
  decodable (opcode r) (buffer r ++ frame_payload chunk) →
  let s' := step s (pump (pump_data chunk)) in
  let reported := set_trace (trace s ++ [Emit "error" (ev_error not_a_continuation)]) s in
  ("error" ∉ listeners s →
   handle (pump (pump_data chunk)) s = (reported, Throw not_a_continuation))
  ∧ ("error" ∈ listeners s →
     readyState s' = CLOSING ∧ responseStack s' = []
     ∧ ∃ frame,
         trace s' = trace s ++
           [Emit "error" (ev_error not_a_continuation);
            SocketWrite frame;
            Emit "message" (message_event (opcode r) (buffer r ++ frame_payload chunk))]
         ∧ Frame.opcode frame = OpcodeConnectionClose).
Proof.
  intros Hopen Hsender Hm Hstack Hr Hleft Hframe Hfin Hop _ s' s1.
  pose proof Hframe as (Hb & Hmasked & H127 & Hcomplete).
  destruct (close_open_sends s1 (Some CloseCode.abnormal)
              (Some (message not_a_continuation))
              (CloseCode.abnormal / 256 :: CloseCode.abnormal mod 256
                 :: Buffer.fromString (message not_a_continuation)))
    as (s2 & frame & Hclose & Ht2 & Hopc & Hrs2 & Hstack2 & Hsender2);
    [done|done|done|by apply close_data_code|by vm_compute|].
  set (response := {| isFin := true; opcode := opcode r;
                      bytesLeft := bytesLeft r - Frame.payloadDataLength chunk;
                      frameCount := frameCount r + 1;
                      buffer := buffer r ++ frame_payload chunk |}).
  assert (handle (pump (pump_data chunk)) s =
            if bool_decide ("error" ∈ listeners s) then
              (set_responseStack []
                 (set_trace (trace s2 ++ [Emit "message"
                    (message_event (opcode r) (buffer r ++ frame_payload chunk))])
                    (set_responseStack [response] s2)), Normal tt)
            else (s1, Throw not_a_continuation)) as Hrun.
  { rewrite deliver_complete_frame by (by rewrite ?Hopen).
    unfold bind at 1. unfold processDataFrame.
    rewrite bind_read, Hmasked, Hfin, andb_false_r.
    destruct (Z.eqb_spec (Frame.payloadLength chunk) 127); [done|].
    pose proof (payloadDataLength_nonneg chunk Hb) as Hlen.
    assert (2 ≤ Frame.payloadDataOffset chunk) as Hoff
      by (unfold Frame.payloadDataOffset; destruct (_ =? _); lia).
    unfold Buffer.alloc at 1.
    destruct (Z.ltb_spec (Frame.payloadDataLength chunk) 0); [lia|].
    rewrite bind_lift. rewrite copy_range by lia. rewrite bind_lift.
    cbn [fst]. fold (frame_payload chunk).
    unfold Frame.framePayloadDataLength.
    destruct (Z.ltb_spec (Buffer.length chunk) (Frame.payloadDataLength chunk)); [lia|].
    rewrite Hstack. change (ResponseStack.last [r]) with (Some r). cbv iota.
    assert ((Frame.opcode chunk =? OpcodeContinueFrame) = false) as ->
      by (by destruct Hop as [-> | ->]).
    rewrite !bind_bind. fold not_a_continuation.
    destruct (decide ("error" ∈ listeners s)) as [heard|unheard].
    - rewrite bool_decide_eq_true_2 by done.
      erewrite bind_Normal
        by (rewrite (disconnectAndEmitError_heard _ _ _ heard); exact Hclose).
      cbv beta. rewrite ?bind_bind.
      rewrite (bind_update_last _ _ r s2) by (by rewrite Hstack2).
      do 3 (rewrite ?bind_bind; erewrite bind_update_last by reflexivity).
      rewrite bind_read. cbn [responseStack set_responseStack].
      change (ResponseStack.last [?x]) with (Some x). cbn [default from_option id].
      unfold append_buffer, set_isFin, set_frameCount, set_bytesLeft, set_buffer.
      cbn [isFin opcode bytesLeft frameCount buffer].
      rewrite concat_2. fold response.
      erewrite bind_Normal;
        [|apply processResponse_message; [done|cbn [bytesLeft response]; lia|done]].
      rewrite next_frame_complete by (try done; lia). done.
    - rewrite bool_decide_eq_false_2 by done.
      by erewrite bind_outcome by (by apply disconnectAndEmitError_unheard). }
  split.
  - intros unheard. by rewrite Hrun, bool_decide_eq_false_2.
  - intros heard. subst s'. unfold step, state_after.
    rewrite Hrun, bool_decide_eq_true_2 by done. cbn [fst].
    cbn [readyState responseStack trace set_responseStack set_trace].
    split; [done|]. split; [done|].
    exists frame. split; [|done]. rewrite Ht2. unfold s1. cbn [trace set_trace].
    by rewrite <- !app_assoc.
Qed.

Lemma interleaved_frame_is_appended_witness :
  let s := step example_open (pump (pump_data [0x01; 1; 97])) in
  let r := {| isFin := false; opcode := OpcodeTextFrame; bytesLeft := 0;
              frameCount := 1; buffer := [97] |} in
  let chunk := [0x81; 1; 98] in
  let s' := step s (pump (pump_data chunk)) in
  let reported := set_trace (trace s ++ [Emit "error" (ev_error not_a_continuation)]) s in
  (readyState s = OPEN ∧ responseStack s = [r] ∧ complete_frame chunk
   ∧ decodable (opcode r) (buffer r ++ frame_payload chunk))
  ∧ ("error" ∉ listeners s →
     handle (pump (pump_data chunk)) s = (reported, Throw not_a_continuation))
  ∧ ("error" ∈ listeners s →
     readyState s' = CLOSING ∧ responseStack s' = []
     ∧ ∃ frame,
         trace s' = trace s ++
           [Emit "error" (ev_error not_a_continuation);
            SocketWrite frame;
            Emit "message" (message_event (opcode r) (buffer r ++ frame_payload chunk))]
         ∧ Frame.opcode frame = OpcodeConnectionClose).
Proof.
  assert (readyState (step example_open (pump (pump_data [0x01; 1; 97]))) = OPEN)
    as H1 by (vm_compute; reflexivity).
  assert (sender (step example_open (pump (pump_data [0x01; 1; 97]))) ≠ None)
    as H2 by (vm_compute; discriminate).
  assert (length (mask (step example_open (pump (pump_data [0x01; 1; 97])))) = 4%nat)
    as H3 by (vm_compute; reflexivity).
  assert (responseStack (step example_open (pump (pump_data [0x01; 1; 97])))
          = [{| isFin := false; opcode := OpcodeTextFrame; bytesLeft := 0;
                frameCount := 1; buffer := [97] |}])
    as H4 by (vm_compute; reflexivity).
  assert (0 ≤ Frame.payloadDataLength [0x81; 1; 98]) as H5
    by (vm_compute; discriminate).
  assert (complete_frame [0x81; 1; 98]) as H6.
  { split; [apply is_bytesb_spec; vm_compute; reflexivity|].
    split; [vm_compute; reflexivity|].
    split; [vm_compute; discriminate|vm_compute; reflexivity]. }
  assert (decodable OpcodeTextFrame ([97] ++ frame_payload [0x81; 1; 98])) as H7
    by (intros _; reflexivity).
  cbv zeta. split; [exact (conj H1 (conj H4 (conj H6 H7)))|].
  exact (interleaved_frame_is_appended _ [0x81; 1; 98] _ H1 H2 H3 H4
           (or_introl eq_refl) H5 H6 eq_refl (or_introl eq_refl) H7).
Defined.

(** * Close frames and the close handshake *)

(** ** A close frame that is received *)





(** ** Both close frames go through *)

Global Instance flags_kept_preorder : PreOrder flags_kept.
Proof.
  split; [done|]. intros s1 s2 s3 (H1&H2&H3) (H4&H5&H6).
  unfold flags_kept. repeat split; congruence.
Qed.










